(** * trackingValidation.py: ratio, efficiency and rendering of validation plots

    A shallow embedding of [src/trackingValidation.py].

    - numpy [float64] scalars are IEEE-754 binary64 numbers, taken from the
      Standard Library's executable specification [SpecFloat]
      ([prec = 53], [emax = 1024]); one-dimensional arrays are lists of them,
      with numpy's broadcasting rules written out;
    - histogram objects live in a heap ([gmap loc Hist]); [values()] and
      [variances()] return views onto an object's storage, read and written
      through the heap; on plain storage the two views show one buffer;
    - the plotting library and [print] are modelled by a trace of calls, the
      file system by the directories that exist, which [os.makedirs] and
      [plt.savefig] consult;
    - Python exceptions are the [Raise] results of an error monad threaded
      together with the state. *)

From Stdlib Require Import ZArith List String Ascii Bool Lia.
From Stdlib Require Import Floats.SpecFloat.
From stdpp Require Import gmap strings list pretty.

Local Open Scope string_scope.

(** ** numpy float64 *)

Module Float64.

Definition prec : Z := 53.
Definition emax : Z := 1024.

Abbreviation float := spec_float (only parsing).

Definition div : float -> float -> float := SFdiv prec emax.
Definition mul : float -> float -> float := SFmul prec emax.
Definition add : float -> float -> float := SFadd prec emax.
Definition sqrt : float -> float := SFsqrt prec emax.
Definition abs : float -> float := SFabs.
Definition eqb : float -> float -> bool := SFeqb.
Definition ltb : float -> float -> bool := SFltb.

Definition zero : float := S754_zero false.
Definition nan : float := S754_nan.
(** [1.0], [0.5] and [1.5] *)
Definition one : float := S754_finite false 4503599627370496 (-52).
Definition half : float := S754_finite false 4503599627370496 (-53).
Definition three_halves : float := S754_finite false 6755399441055744 (-52).

(** [x ** 2] on a float array is numpy's [square], that is [x * x]. *)
Definition square (x : float) : float := mul x x.

(** The number of a small non-negative integer ([float(n)]). *)
Definition of_pos (p : positive) : float :=
  binary_normalize prec emax (Zpos p) 0 false.

Definition is_zero (x : float) : bool :=
  match x with S754_zero _ => true | _ => false end.

Definition is_finite_nonzero (x : float) : bool :=
  match x with S754_finite _ _ _ => true | _ => false end.

Definition is_nan (x : float) : bool :=
  match x with S754_nan => true | _ => false end.

Definition is_inf (x : float) : bool :=
  match x with S754_infinity _ => true | _ => false end.

(** [int(x)]: truncation towards zero; [None] where Python raises
    ([ValueError] on NaN, [OverflowError] on an infinity). *)
Definition trunc (x : float) : option Z :=
  match x with
  | S754_zero _ => Some 0%Z
  | S754_finite s m e =>
      let mag := match e with
                 | Zneg p => Z.shiftr (Zpos m) (Zpos p)
                 | _ => Z.shiftl (Zpos m) e
                 end in
      Some (if s then Z.opp mag else mag)
  | _ => None
  end.

End Float64.

Abbreviation float := spec_float (only parsing).

(** ** Python exceptions and results *)

(** The error numbers of the operating system that the script can meet;
    Python raises them as [FileNotFoundError], [FileExistsError] and
    [IsADirectoryError], the subclasses of [OSError]. *)
Inductive Errno := ENOENT | EEXIST | EISDIR.

Inductive exn :=
| NameError (name : string)
| ValueError (msg : string)
| OverflowError (msg : string)
| IndexError (msg : string)
| UnboundLocalError (name : string)
| AttributeError (msg : string)
| AssertionError (msg : string)
| OSError (errno : Errno) (filename : string)
| ReferenceError.   (* a reference to no object; no Python program makes one *)

Inductive result (A : Type) :=
| Ok (a : A)
| Raise (e : exn).
Arguments Ok {A} a.
Arguments Raise {A} e.

(** ** One-dimensional float64 arrays and broadcasting *)

Abbreviation ndarray := (list spec_float) (only parsing).

Definition broadcast_error : exn :=
  ValueError "operands could not be broadcast together".

(** An elementwise binary operation. Shapes [(n,)] and [(n,)] give [(n,)];
    a shape [(1,)] is stretched to the other operand's; anything else
    raises. *)
Definition broadcast2 (f : float -> float -> float) (a b : ndarray)
  : result ndarray :=
  match a, b with
  | [x], _ => Ok (map (f x) b)
  | _, [y] => Ok (map (fun x => f x y) a)
  | _, _ => if Nat.eqb (length a) (length b)
            then Ok (zip_with f a b)
            else Raise broadcast_error
  end.

(** The right-hand side of [dst[:] = src] and of [dst[:] *= src], where
    [dst] has [n] elements: [src] must have shape [(n,)] or [(1,)]. *)
Definition broadcast_to (n : nat) (src : ndarray) : result ndarray :=
  if Nat.eqb (length src) n then Ok src
  else match src with
       | [y] => Ok (repeat y n)
       | _ => Raise (ValueError "could not broadcast input array")
       end.

Definition np_abs (a : ndarray) : ndarray := map Float64.abs a.
Definition np_sqrt (a : ndarray) : ndarray := map Float64.sqrt a.
Definition np_square (a : ndarray) : ndarray := map Float64.square a.
Definition np_add : ndarray -> ndarray -> result ndarray :=
  broadcast2 Float64.add.
Definition np_true_divide : ndarray -> ndarray -> result ndarray :=
  broadcast2 Float64.div.

(** ** Histograms, the heap, the trace *)

Definition loc := positive.

(** The storage of a histogram, as [to_hist()] makes it from a [TH1]: plain
    ([Double]) storage is one buffer of counts, for a histogram whose file
    keeps no sums of squared weights; weighted storage ([Weight]) keeps a
    value and a variance per bin. *)
Inductive Storage :=
| Double (counts : ndarray)
| Weight (value variance : ndarray).

(** A one-dimensional [hist] histogram: the edges of its axis and its
    storage. *)
Record Hist := mkHist {
  edges : ndarray;
  storage : Storage
}.

Definition weighted (edges value variance : ndarray) : Hist :=
  mkHist edges (Weight value variance).

Definition plain (edges counts : ndarray) : Hist :=
  mkHist edges (Double counts).

(** What [h.values()] shows. *)
Definition bin_values (h : Hist) : ndarray :=
  match storage h with
  | Double counts => counts
  | Weight value _ => value
  end.

(** What [h.variances()] shows: on plain storage the counts themselves. *)
Definition bin_variances (h : Hist) : ndarray :=
  match storage h with
  | Double counts => counts
  | Weight _ variance => variance
  end.

Inductive field := Values | Variances.

(** What [h.values()] and [h.variances()] return: a view, not a copy. On
    plain storage both are views of the one buffer. *)
Record view := mkView { view_obj : loc; view_field : field }.

Definition get_field (f : field) (h : Hist) : ndarray :=
  match f with Values => bin_values h | Variances => bin_variances h end.

(** Writing through a view: on plain storage a write through either view
    lands in the one buffer. *)
Definition set_field (f : field) (a : ndarray) (h : Hist) : Hist :=
  mkHist (edges h)
    match storage h, f with
    | Double _, _ => Double a
    | Weight _ variance, Values => Weight a variance
    | Weight value _, Variances => Weight value a
    end.

Inductive Axes := Ax1 | Ax2.

(** The calls that reach the outside: the plotting library, [print]. A
    plotted histogram is recorded with the contents it has when drawn. *)
Inductive event :=
| EvPrint (msg : string)
| EvClose
| EvSubplots (nrows : nat)
| EvSubplotsAdjust
| EvHistPlot (ax : Axes) (h : Hist) (label : string) (color : nat)
| EvRatioPlot (ax : option Axes) (h : Hist) (label : string) (color : nat)
| EvSetYLabel (ax : Axes) (text : string)
| EvSetXLabel (ax : Axes) (text : string)
| EvSetYLim (ax : Axes) (lim : float * float)
| EvHLines (ax : Axes) (y xmin xmax : float)
| EvTickParams (ax : Axes)
| EvLegend (ax : Axes)
| EvCmsText (ax : Axes)
| EvLumiText (ax : Axes) (title : string)
| EvStyleUse
| EvSaveFig (path : string).

Record world := mkWorld {
  heap : gmap loc Hist;
  cwd : string;
  dirs : gset string;
  trace : list event
}.

(** ** The state and error monad *)

Definition M (A : Type) : Type := world -> result A * world.

Definition ret {A} (a : A) : M A := fun w => (Ok a, w).

Definition bind {A B} (m : M A) (k : A -> M B) : M B :=
  fun w => match m w with
           | (Ok a, w') => k a w'
           | (Raise e, w') => (Raise e, w')
           end.

Definition raise {A} (e : exn) : M A := fun w => (Raise e, w).

Definition lift {A} (r : result A) : M A := fun w => (r, w).

Declare Scope py_scope.
Delimit Scope py_scope with py.
Notation "x <- m ;; k" := (bind m (fun x => k))
  (at level 100, m at next level, right associativity) : py_scope.
Notation "m ;;; k" := (bind m (fun _ => k))
  (at level 100, right associativity) : py_scope.
Local Open Scope py_scope.

Definition emit (e : event) : M unit :=
  fun w => (Ok tt, mkWorld (heap w) (cwd w) (dirs w) (trace w ++ [e])).

Definition deref (l : loc) : M Hist :=
  fun w => match heap w !! l with
           | Some h => (Ok h, w)
           | None => (Raise ReferenceError, w)
           end.

Definition store (l : loc) (h : Hist) : M unit :=
  fun w => (Ok tt, mkWorld (<[l := h]> (heap w)) (cwd w) (dirs w) (trace w)).

(** [h.copy()]: a deep copy, a new object. *)
Definition hist_copy (l : loc) : M loc :=
  h <- deref l ;;
  fun w => let l' := fresh (dom (heap w)) in
           (Ok l', mkWorld (<[l' := h]> (heap w)) (cwd w) (dirs w) (trace w)).

Definition values (l : loc) : M view :=
  _ <- deref l ;; ret (mkView l Values).
Definition variances (l : loc) : M view :=
  _ <- deref l ;; ret (mkView l Variances).

Definition read (v : view) : M ndarray :=
  h <- deref (view_obj v) ;; ret (get_field (view_field v) h).

(** [v[:] = src] *)
Definition assign_all (v : view) (src : ndarray) : M unit :=
  h <- deref (view_obj v) ;;
  a <- lift (broadcast_to (length (get_field (view_field v) h)) src) ;;
  store (view_obj v) (set_field (view_field v) a h).

(** [v[:] *= src]: multiplies in place *)
Definition imul_all (v : view) (src : ndarray) : M unit :=
  h <- deref (view_obj v) ;;
  let cur := get_field (view_field v) h in
  a <- lift (broadcast_to (length cur) src) ;;
  store (view_obj v) (set_field (view_field v) (zip_with Float64.mul cur a) h).

(** ** ValidPlotter *)

Record ValidPlotter := mkValidPlotter { savedir : string }.

(** [_div]: inside [np.errstate(divide='ignore', invalid='ignore')] the
    division neither warns nor raises on a zero divisor; the quotient is the
    IEEE one. *)
Definition _div (num den : view) : M ndarray :=
  n <- read num ;;
  d <- read den ;;
  lift (np_true_divide n d).

Definition ratioHist (self : ValidPlotter) (num den : loc) : M loc :=
  hratio <- hist_copy num ;;
  upvals <- values num ;;
  upvars <- variances num ;;
  dovals <- values den ;;
  dovars <- variances den ;;
  (* hratio.values()[:] = self._div(upvals, dovals) *)
  r <- _div upvals dovals ;;
  tgt <- values hratio ;;
  assign_all tgt r ;;;
  (* hratio.variances()[:] = np.abs(self._div(upvals, dovals)) *)
  r <- _div upvals dovals ;;
  tgt <- variances hratio ;;
  assign_all tgt (np_abs r) ;;;
  (* hratio.variances()[:] *= np.sqrt(self._div(upvars, upvals)**2
                                      + self._div(dovars, dovals)**2) *)
  tgt <- variances hratio ;;
  t1 <- _div upvars upvals ;;
  t2 <- _div dovars dovals ;;
  s <- lift (np_add (np_square t1) (np_square t2)) ;;
  imul_all tgt (np_sqrt s) ;;;
  ret hratio.

(** ** The file system

    The file system is modelled by its directories. The working directory
    exists, with everything that leads to it; [dirs] holds the paths that
    [os.makedirs] made (or that were there before), as they were written,
    and every directory passed on the way along such a path exists too.
    Regular files standing in the way, permissions and symbolic links are
    left out, and paths are taken to be names that the file system can
    hold. *)

Definition slash : ascii := "/"%char.

(** [path.split('/')]: the steps of a path. *)
Fixpoint path_steps (path : string) : list string :=
  match path with
  | EmptyString => [EmptyString]
  | String c rest =>
      if Ascii.eqb c slash then EmptyString :: path_steps rest
      else match path_steps rest with
           | piece :: pieces => String c piece :: pieces
           | [] => [String c EmptyString]
           end
  end.

(** A step that names an entry of a directory: not empty, not [.] and
    not [..]. *)
Definition is_name (s : string) : bool :=
  negb (String.eqb s "" || String.eqb s "." || String.eqb s "..").

(** A directory is named by the steps that lead to it from the root. One
    step on from the directory [cur]: an empty step and [.] stay, [..] goes
    to the parent (the root is its own parent), a name goes to that entry. *)
Definition step (cur : list string) (s : string) : list string :=
  if String.eqb s "" || String.eqb s "." then cur
  else if String.eqb s ".." then removelast cur
  else app cur [s].

(** Every directory passed on the way along [steps] from [cur]. *)
Fixpoint passed (cur : list string) (steps : list string) : list (list string) :=
  match steps with
  | [] => [cur]
  | s :: rest => cur :: passed (step cur s) rest
  end.

Definition is_absolute (path : string) : bool :=
  match path with
  | String c _ => Ascii.eqb c slash
  | EmptyString => false
  end.

(** The working directory, which [os.getcwd()] gives as an absolute path. *)
Definition cwd_dir (c : string) : list string :=
  fold_left step (path_steps c) [].

(** Where the way along a path begins. *)
Definition start (c : string) (path : string) : list string :=
  if is_absolute path then [] else cwd_dir c.

(** [d] lies on the way to [q]. *)
Fixpoint leads_to (d q : list string) : bool :=
  match d, q with
  | [], _ => true
  | x :: d', y :: q' => String.eqb x y && leads_to d' q'
  | _ :: _, [] => false
  end.

(** The directories known to exist, with working directory [c] and made
    paths [made]. *)
Definition known_dirs (c : string) (made : gset string) : list (list string) :=
  app (passed [] (path_steps c))
    (flat_map (fun p => passed (start c p) (path_steps p)) (elements made)).

Definition fs_dir_exists (c : string) (made : gset string) (d : list string)
  : bool :=
  existsb (leads_to d) (known_dirs c made).

(** Following [steps] from the existing directory [cur] as the operating
    system does: a name must lead to a directory that exists. *)
Fixpoint fs_walk (c : string) (made : gset string) (cur : list string)
    (steps : list string) : option (list string) :=
  match steps with
  | [] => Some cur
  | s :: rest =>
      if is_name s && negb (fs_dir_exists c made (step cur s)) then None
      else fs_walk c made (step cur s) rest
  end.

(** The directory that a path names, if it names one. *)
Definition fs_resolve (c : string) (made : gset string) (path : string)
  : option (list string) :=
  if String.eqb path "" then None
  else fs_walk c made (start c path) (path_steps path).

(** [os.path.exists(path)] *)
Definition os_path_exists (w : world) (path : string) : bool :=
  match fs_resolve (cwd w) (dirs w) path with
  | Some _ => true
  | None => false
  end.

(** The last step of a path that is not empty: what [os.makedirs] makes
    last. *)
Definition last_name (path : string) : string :=
  default "" (last (List.filter (fun s => negb (String.eqb s ""))
                      (path_steps path))).

(** [os.makedirs(path)]: makes the directories on the way that are missing,
    then [path] itself. It raises [FileNotFoundError] on the empty path and
    [FileExistsError] where [path] exists, which is also what happens when
    the last step is [..]: the directories before it have been made by
    then. *)
Definition os_makedirs (path : string) : M unit :=
  fun w =>
    if String.eqb path "" then (Raise (OSError ENOENT path), w)
    else if os_path_exists w path then (Raise (OSError EEXIST path), w)
    else
      let w' := mkWorld (heap w) (cwd w) ({[path]} ∪ dirs w) (trace w) in
      if String.eqb (last_name path) ".." then (Raise (OSError EEXIST path), w')
      else (Ok tt, w').

Definition makedir (path : string) : M unit :=
  fun w => if os_path_exists w path then (Ok tt, w) else os_makedirs path w.

(** The steps to the directory that is to hold the file [path], and the
    name of the file in it. *)
Definition file_dir (path : string) : list string := removelast (path_steps path).

Definition file_name (path : string) : string :=
  default "" (last (path_steps path)).

(** Why the file [path] cannot be written, if it cannot: the directory that
    is to hold it does not exist ([FileNotFoundError]), or a directory
    stands in its place ([IsADirectoryError]). *)
Definition save_error (w : world) (path : string) : option exn :=
  match fs_walk (cwd w) (dirs w) (start (cwd w) path) (file_dir path) with
  | None => Some (OSError ENOENT path)
  | Some d =>
      if negb (is_name (file_name path))
         || fs_dir_exists (cwd w) (dirs w) (app d [file_name path])
      then Some (OSError EISDIR path)
      else None
  end.

(** [plt.savefig(path)], for a path that ends in a file name, as every path
    that [plotHistos] builds does (it ends in [.png]): the call is recorded
    in the trace, and it raises where the file cannot be written. *)
Definition savefig (path : string) : M unit :=
  emit (EvSaveFig path) ;;;
  fun w => match save_error w path with
           | Some e => (Raise e, w)
           | None => (Ok tt, w)
           end.

(** The truth value of an optional string argument: [None] and the empty
    string are false. *)
Definition truthy (o : option string) : bool :=
  match o with
  | Some (String _ _) => true
  | _ => false
  end.

(** [ValidPlotter.__init__]; [os.path.join] of a single path is that path.
    The markers, colours and font size it also sets only style the figure. *)
Definition ValidPlotter_init (tag : string) (odir : option string)
  : M ValidPlotter :=
  dir <- (if truthy odir
          then ret (default "" odir)
          else fun w => (Ok (cwd w ++ "/Plots_" ++ tag ++ "/"), w)) ;;
  makedir dir ;;;
  ret (mkValidPlotter dir).

(** ** plotHistos *)

Definition index {A} (l : list A) (i : nat) : result A :=
  match l !! i with
  | Some x => Ok x
  | None => Raise (IndexError "list index out of range")
  end.

(** [a[-1]] *)
Definition index_last {A} (l : list A) : result A :=
  match last l with
  | Some x => Ok x
  | None => Raise (IndexError "index -1 is out of bounds")
  end.

(** The builtin [sum] starts from the integer [0] and adds from the left. *)
Definition py_sum (a : ndarray) : float := fold_left Float64.add a Float64.zero.

(** [float(sum(h.values())) == 0.0] *)
Definition sums_to_zero (a : ndarray) : bool :=
  Float64.eqb (py_sum a) Float64.zero.

(** [all(float(sum(h.values())) == 0.0 for h in v_h)], which stops at the
    first histogram that is not empty. *)
Fixpoint all_empty (v_h : list loc) : M bool :=
  match v_h with
  | [] => ret true
  | h :: rest =>
      v <- values h ;;
      a <- read v ;;
      if sums_to_zero a then all_empty rest else ret false
  end.

(** The keyword arguments of [plotHistos] that its body reads ([xlim],
    [ylim] and [yscale] are accepted and never used). *)
Record PlotOpts := mkPlotOpts {
  ylabel : string;
  xlabel : string;
  title : string;
  modify_ticks : bool;
  ratio_ylim : float * float
}.

Definition default_opts : PlotOpts :=
  mkPlotOpts "" "" "" false (Float64.half, Float64.three_halves).

(** [plt.cm.tab10.colors] has ten entries. *)
Definition n_colors : nat := 10.

(** [for idx, (h, label) in enumerate(zip(v_h, v_label)): h.plot(ax=ax1, ...)] *)
Fixpoint plot_main (idx : nat) (hl : list (loc * string)) : M unit :=
  match hl with
  | [] => ret tt
  | (h, label) :: rest =>
      snap <- deref h ;;
      emit (EvHistPlot Ax1 snap label (idx mod n_colors)) ;;;
      plot_main (S idx) rest
  end.

(** [for idx, h in enumerate(v_h[1:], start=1): ...]; the result is the
    binding of [hratio] when the loop ends. *)
Fixpoint plot_ratios (self : ValidPlotter) (reference_hist : loc)
    (v_label : list string) (ax2 : option Axes)
    (idx : nat) (hs : list loc) (hratio : option loc) : M (option loc) :=
  match hs with
  | [] => ret hratio
  | h :: rest =>
      hr <- ratioHist self reference_hist h ;;
      li <- lift (index v_label idx) ;;
      l0 <- lift (index v_label 0) ;;
      snap <- deref hr ;;
      emit (EvRatioPlot ax2 snap (li ++ "/" ++ l0) (idx mod n_colors)) ;;;
      plot_ratios self reference_hist v_label ax2 (S idx) rest (Some hr)
  end.

Definition on_ax2 (ax2 : option Axes) (k : Axes -> M unit) : M unit :=
  match ax2 with
  | Some ax => k ax
  | None => raise (AttributeError "'NoneType' object has no attribute")
  end.

Definition skip_message (savename : string) : string :=
  "All histograms in " ++ savename ++ " are empty. Skipping plot.".

Definition plotHistos (self : ValidPlotter) (v_h : list loc)
    (savename : string) (v_label : list string) (opts : PlotOpts) : M unit :=
  skip <- all_empty v_h ;;
  if skip then emit (EvPrint (skip_message savename))
  else
    emit EvClose ;;;
    ax2 <- (if Nat.ltb 1 (length v_h)
            then emit (EvSubplots 2) ;;; emit EvSubplotsAdjust ;;;
                 ret (Some Ax2)
            else emit (EvSubplots 1) ;;; ret None) ;;
    plot_main 0 (zip v_h v_label) ;;;
    reference_hist <- lift (index v_h 0) ;;
    hratio <- plot_ratios self reference_hist v_label ax2 1 (tail v_h) None ;;
    emit (EvSetYLabel Ax1 (ylabel opts)) ;;;
    emit (EvSetXLabel Ax1 "") ;;;
    (if Nat.ltb 1 (length v_h)
     then
       on_ax2 ax2 (fun ax => emit (EvSetYLabel ax "Ratio")) ;;;
       on_ax2 ax2 (fun ax => emit (EvSetXLabel ax (xlabel opts))) ;;;
       on_ax2 ax2 (fun ax => emit (EvSetYLim ax (ratio_ylim opts))) ;;;
       hr <- match hratio with
             | Some l => deref l
             | None => raise (UnboundLocalError "hratio")
             end ;;
       xmin <- lift (index (edges hr) 0) ;;
       xmax <- lift (index_last (edges hr)) ;;
       on_ax2 ax2 (fun ax => emit (EvHLines ax Float64.one xmin xmax)) ;;;
       if modify_ticks opts
       then on_ax2 ax2 (fun ax => emit (EvTickParams ax))
       else ret tt
     else ret tt) ;;;
    emit (EvLegend Ax1) ;;;
    emit (EvCmsText Ax1) ;;;
    emit (EvLumiText Ax1 (title opts)) ;;;
    emit EvStyleUse ;;;
    (* for ext in ('.png', '.pdf'):
           plt.savefig(self.savedir + "{}.png".format(savename)) *)
    fold_right (fun (ext : string) k =>
                  savefig (savedir self ++ savename ++ ".png") ;;; k)
               (ret tt) [".png"; ".pdf"].

(** ** getEfficiency *)

(** A Python number: an [int], or a float64. *)
Inductive pynum :=
| PyInt (z : Z)
| PyFloat (x : float).

(** [y > 0] *)
Definition gt_zero (y : pynum) : bool :=
  match y with
  | PyInt z => Z.ltb 0 z
  | PyFloat x => Float64.ltb Float64.zero x
  end.

(** [y == 0] *)
Definition eq_zero (y : pynum) : bool :=
  match y with
  | PyInt z => Z.eqb z 0
  | PyFloat x => Float64.eqb x Float64.zero
  end.

(** [int(y)] *)
Definition py_int (y : pynum) : result Z :=
  match y with
  | PyInt z => Ok z
  | PyFloat x =>
      match Float64.trunc x with
      | Some z => Ok z
      | None =>
          if Float64.is_nan x
          then Raise (ValueError "cannot convert float NaN to integer")
          else Raise (OverflowError "cannot convert float infinity to integer")
      end
  end.

(** The names the module binds at its top level: its imports, its
    definitions, and the variables of the [__main__] block. *)
Definition module_globals : list string :=
  [ "__name__"; "_all_";
    "os"; "np"; "uproot"; "ak"; "hist"; "plt"; "mpl"; "hep";
    "collections"; "argparse";
    "makedir"; "ValidPlotter"; "getEfficiency";
    "hgcalReleaseValidation"; "trackReleaseValidation";
    "parser"; "args"; "files"; "labels" ].

(** The functions of Python's [builtins] module. *)
Definition builtin_functions : list string :=
  [ "abs"; "aiter"; "all"; "anext"; "any"; "ascii"; "bin"; "bool";
    "breakpoint"; "bytearray"; "bytes"; "callable"; "chr"; "classmethod";
    "compile"; "complex"; "delattr"; "dict"; "dir"; "divmod"; "enumerate";
    "eval"; "exec"; "filter"; "float"; "format"; "frozenset"; "getattr";
    "globals"; "hasattr"; "hash"; "help"; "hex"; "id"; "input"; "int";
    "isinstance"; "issubclass"; "iter"; "len"; "list"; "locals"; "map";
    "max"; "memoryview"; "min"; "next"; "object"; "oct"; "open"; "ord";
    "pow"; "print"; "property"; "range"; "repr"; "reversed"; "round";
    "set"; "setattr"; "slice"; "sorted"; "staticmethod"; "str"; "sum";
    "super"; "tuple"; "type"; "vars"; "zip"; "__import__" ].

(** A global name resolves in the module's globals, then in the builtins. *)
Definition name_is_bound (name : string) : bool :=
  existsb (String.eqb name) module_globals
  || existsb (String.eqb name) builtin_functions.

(** The result object of a binomial test: the point estimate, and the
    confidence interval as a function of the level. *)
Record BinomTestResult := mkBinomTestResult {
  statistic : float;
  proportion_ci : float -> float * float
}.

(** The literal [0.683]. *)
Definition confidence_level : float :=
  Eval vm_compute in Float64.div (Float64.of_pos 683) (Float64.of_pos 1000).

Definition rbind {A B} (r : result A) (k : A -> result B) : result B :=
  match r with
  | Ok a => k a
  | Raise e => Raise e
  end.

Notation "x <~ r ;; k" := (rbind r (fun x => k))
  (at level 100, r at next level, right associativity) : py_scope.

Definition float_of_Z (z : Z) : float :=
  binary_normalize Float64.prec Float64.emax z 0 false.

Definition is_int (y : pynum) : bool :=
  match y with PyInt _ => true | PyFloat _ => false end.

Definition to_float (y : pynum) : pynum :=
  match y with PyInt z => PyFloat (float_of_Z z) | PyFloat _ => y end.

(** [np.array] of a list of numbers: an integer array when all are [int]
    (or there is none to decide otherwise), else a float64 array. *)
Definition np_array (l : list pynum) : list pynum :=
  if forallb is_int l then l else map to_float l.

Section Efficiency.

(** What the name [binomtest] would denote where it is bound: the exact
    binomial test of [k] successes in [n] trials, which rejects some
    arguments. *)
Variable binomtest_impl : Z -> Z -> result BinomTestResult.

(** Evaluating the global name [binomtest]. *)
Definition load_binomtest : result (Z -> Z -> result BinomTestResult) :=
  if name_is_bound "binomtest" then Ok binomtest_impl
  else Raise (NameError "binomtest").

(** The body of [for yPass, yTot in zip(passing, total)], with the three
    lists it appends to. *)
Fixpoint getEfficiency_loop (bins : list (pynum * pynum))
    (yEff yEffErrUp yEffErrLow : list pynum)
  : result (list pynum * list pynum * list pynum) :=
  match bins with
  | [] => Ok (yEff, yEffErrLow, yEffErrUp)
  | (yPass, yTot) :: rest =>
      if gt_zero yTot then
        binomtest <~ load_binomtest ;;
        k <~ py_int yPass ;;
        n <~ py_int yTot ;;
        res <~ binomtest k n ;;
        getEfficiency_loop rest
          (yEff ++ [PyFloat (statistic res)])
          (yEffErrUp ++ [PyFloat (snd (proportion_ci res confidence_level))])
          (yEffErrLow ++ [PyFloat (fst (proportion_ci res confidence_level))])
      else
        getEfficiency_loop rest
          (yEff ++ [PyInt 0]) (yEffErrUp ++ [PyInt 0]) (yEffErrLow ++ [PyInt 0])
  end.

(** Returns [(yEff, yEffErrLow, yEffErrUp)] as arrays. *)
Definition getEfficiency (passing total : list pynum)
  : result (list pynum * list pynum * list pynum) :=
  r <~ getEfficiency_loop (zip passing total) [] [] [] ;;
  let '(yEff, yEffErrLow, yEffErrUp) := r in
  Ok (np_array yEff, np_array yEffErrLow, np_array yEffErrUp).

End Efficiency.

(** ** The command line *)

Record Args := mkArgs {
  args_files : string;
  args_labels : option string;
  args_tag : string;
  args_odir : option string
}.

Definition comma : ascii := ","%char.

(** [',' in s] *)
Fixpoint has_comma (s : string) : bool :=
  match s with
  | EmptyString => false
  | String c rest => Ascii.eqb c comma || has_comma rest
  end.

(** [s.split(',')] *)
Fixpoint split_comma (s : string) : list string :=
  match s with
  | EmptyString => [EmptyString]
  | String c rest =>
      if Ascii.eqb c comma then EmptyString :: split_comma rest
      else match split_comma rest with
           | piece :: pieces => String c piece :: pieces
           | [] => [String c EmptyString]
           end
  end.

Definition split_list (s : string) : list string :=
  if has_comma s then split_comma s else [s].

(** [str(i)] *)
Definition str_of_nat (i : nat) : string := pretty i.

(** [[f"File_{i}" for i in range(len(files))]] *)
Definition default_labels (files : list string) : list string :=
  map (fun i => "File_" ++ str_of_nat i) (seq 0 (length files)).

Definition parse_files (args : Args) : list string :=
  split_list (args_files args).

Definition parse_labels (args : Args) : list string :=
  if truthy (args_labels args)
  then split_list (default "" (args_labels args))
  else default_labels (parse_files args).

Definition assert_message : string := "Number of files and labels must match.".

Section Main.

(** The two release validations open the input files and call
    [plotHistos] on what they read. *)
Variable trackReleaseValidation hgcalReleaseValidation :
  list string -> list string -> string -> option string -> M unit.

(** The [__main__] block, after [parser.parse_args()]. *)
Definition main (args : Args) : M unit :=
  let files := parse_files args in
  let labels := parse_labels args in
  if Nat.eqb (length files) (length labels)
  then
    trackReleaseValidation files labels (args_tag args) (args_odir args) ;;;
    hgcalReleaseValidation files labels (args_tag args) (args_odir args)
  else raise (AssertionError assert_message).

End Main.

(** ** The histogram that ratioHist builds *)

(** Values and variances of a histogram come in pairs, one per bin. *)
Definition well_formed (h : Hist) : Prop :=
  length (bin_variances h) = length (bin_values h).

(** Two histograms with the same number of bins. *)
Definition same_binning (a b : Hist) : Prop :=
  length (bin_values a) = length (bin_values b).

Definition ratio_value (n d : float) : float := Float64.div n d.

Definition ratio_variance (n vn d vd : float) : float :=
  Float64.mul (Float64.abs (Float64.div n d))
    (Float64.sqrt (Float64.add (Float64.square (Float64.div vn n))
                               (Float64.square (Float64.div vd d)))).

(** The quotients of the values, and the factor that the last statement of
    [ratioHist] multiplies in. *)
Definition ratio_values (hn hd : Hist) : ndarray :=
  zip_with Float64.div (bin_values hn) (bin_values hd).

Definition ratio_scale (hn hd : Hist) : ndarray :=
  np_sqrt
    (zip_with Float64.add
       (np_square (zip_with Float64.div (bin_variances hn) (bin_values hn)))
       (np_square (zip_with Float64.div (bin_variances hd) (bin_values hd)))).

(** The copy of the numerator after the three stores of [ratioHist], each
    through its view. *)
Definition ratio_hist (hn hd : Hist) : Hist :=
  let h1 := set_field Values (ratio_values hn hd) hn in
  let h2 := set_field Variances (np_abs (ratio_values hn hd)) h1 in
  set_field Variances
    (zip_with Float64.mul (get_field Variances h2) (ratio_scale hn hd)) h2.

(** Whether a histogram keeps its variances apart from its values. *)
Definition is_weighted (h : Hist) : bool :=
  match storage h with Weight _ _ => true | Double _ => false end.

(** The world with another heap. *)
Definition with_heap (w : world) (hp : gmap loc Hist) : world :=
  mkWorld hp (cwd w) (dirs w) (trace w).

(** ** Frames *)

(** [w'] differs from [w] at most in the object at [l]. *)
Definition same_outside (l : loc) (w w' : world) : Prop :=
  (forall l0, l0 <> l -> heap w' !! l0 = heap w !! l0)
  /\ cwd w' = cwd w /\ dirs w' = dirs w /\ trace w' = trace w.

(** The computation [m] writes at most to the object at [l], and its
    results satisfy [R]. *)
Definition writes_only {A} (l : loc) (m : M A) (R : A -> Prop) : Prop :=
  forall w, same_outside l w (snd (m w)) /\ forall a, fst (m w) = Ok a -> R a.

(** ** Example histograms *)

(** One bin from 0 to 1, holding nothing. *)
Definition hist_empty : Hist :=
  weighted [Float64.zero; Float64.one] [Float64.zero] [Float64.zero].

(** One bin from 0 to 1, with value 4 and variance 4. *)
Definition hist_four : Hist :=
  weighted [Float64.zero; Float64.one] [Float64.of_pos 4] [Float64.of_pos 4].

(** One bin from 0 to 1, with value 2 and variance 0. *)
Definition hist_two : Hist :=
  weighted [Float64.zero; Float64.one] [Float64.of_pos 2] [Float64.zero].

Definition example_plotter : ValidPlotter := mkValidPlotter "/plots/".

Definition example_heap : gmap loc Hist :=
  <[3%positive := hist_two]> (<[2%positive := hist_four]> (<[1%positive := hist_empty]> ∅)).

(** A world in which the directory of [example_plotter] exists. *)
Definition example_world : world :=
  mkWorld example_heap "/home/user" {["/plots/"]} [].



(** One bin from 0 to 1 with 4 counts, on plain storage. *)
Definition hist_counts : Hist :=
  plain [Float64.zero; Float64.one] [Float64.of_pos 4].

Definition example_world3 : world :=
  mkWorld (<[1%positive := hist_counts]> ∅) "/home/user" ∅ [].

(** [sqrt(2)] to the nearest float64 *)
Definition sqrt_two : float := S754_finite false 6369051672525773 (-52).

(** ** The claim's reading of the ratio: a division by zero counts as zero *)

Definition div_or_zero (a b : float) : float :=
  if Float64.is_zero b then Float64.zero else Float64.div a b.

(** The relative uncertainty of a bin: its uncertainty, the square root of
    the variance, over its value. *)
Definition relative_uncertainty (var val : float) : float :=
  div_or_zero (Float64.sqrt var) val.

(** The absolute value of the ratio scaled by the relative uncertainties
    of numerator and denominator, combined in quadrature. *)
Definition claimed_ratio_variance (n vn d vd : float) : float :=
  Float64.mul (Float64.abs (div_or_zero n d))
    (Float64.sqrt (Float64.add (Float64.square (relative_uncertainty vn n))
                               (Float64.square (relative_uncertainty vd d)))).

(** ** plotHistos: what a call draws *)

Definition add_events (w : world) (evs : list event) : world :=
  mkWorld (heap w) (cwd w) (dirs w) (trace w ++ evs).

(** The events a call appended to the trace. *)
Definition new_events (w w' : world) : list event :=
  drop (length (trace w)) (trace w').

(** The paths handed to [plt.savefig]. *)
Fixpoint saved_files (evs : list event) : list string :=
  match evs with
  | [] => []
  | EvSaveFig path :: rest => path :: saved_files rest
  | _ :: rest => saved_files rest
  end.

(** The ratio curves drawn, each with its panel and its legend label. *)
Fixpoint ratio_curves (evs : list event) : list (option Axes * string) :=
  match evs with
  | [] => []
  | EvRatioPlot ax _ label _ :: rest => (ax, label) :: ratio_curves rest
  | _ :: rest => ratio_curves rest
  end.

(** Whether an event creates or draws on the secondary panel. *)
Definition on_secondary (e : event) : bool :=
  match e with
  | EvSubplots n => Nat.ltb 1 n
  | EvSubplotsAdjust => true
  | EvRatioPlot _ _ _ _ => true
  | EvHistPlot Ax2 _ _ _ | EvSetYLabel Ax2 _ | EvSetXLabel Ax2 _
  | EvSetYLim Ax2 _ | EvHLines Ax2 _ _ _ | EvTickParams Ax2
  | EvLegend Ax2 | EvCmsText Ax2 | EvLumiText Ax2 _ => true
  | _ => false
  end.

(** The reference lines drawn on the secondary panel, by their height. *)
Fixpoint reference_lines (evs : list event) : list float :=
  match evs with
  | [] => []
  | EvHLines Ax2 y _ _ :: rest => y :: reference_lines rest
  | _ :: rest => reference_lines rest
  end.

Fixpoint main_events (idx : nat) (hl : list (Hist * string)) : list event :=
  match hl with
  | [] => []
  | (h, label) :: rest =>
      EvHistPlot Ax1 h label (idx mod n_colors) :: main_events (S idx) rest
  end.

Fixpoint ratio_events (ax2 : option Axes) (href : Hist) (l0 : string)
    (idx : nat) (hl : list (Hist * string)) : list event :=
  match hl with
  | [] => []
  | (h, label) :: rest =>
      EvRatioPlot ax2 (ratio_hist href h) (label ++ "/" ++ l0) (idx mod n_colors)
      :: ratio_events ax2 href l0 (S idx) rest
  end.

(** The legend labels of the ratio curves of a call with labels [v_label]. *)
Definition ratio_labels (v_label : list string) : list (option Axes * string) :=
  match v_label with
  | [] => []
  | l0 :: rest => map (fun li => (Some Ax2, li ++ "/" ++ l0)) rest
  end.

(** A call of [plotHistos] on objects of the heap holding [hists], one label
    each, the histograms after the first binned like the first. *)
Record plot_call (w : world) (v_h : list loc) (hists : list Hist)
    (v_label : list string) : Prop := {
  call_objects : Forall2 (fun l h => heap w !! l = Some h) v_h hists;
  call_well_formed : Forall well_formed hists;
  call_binning :
    forall h0, head hists = Some h0 -> Forall (same_binning h0) hists;
  call_edges : forall h0, head hists = Some h0 -> edges h0 <> [];
  call_labels : length v_label = length v_h
}.

(** Not every histogram sums to zero. *)
Definition not_all_empty (hists : list Hist) : Prop :=
  forallb (fun h => sums_to_zero (bin_values h)) hists = false.

(** The figure file of a call. *)
Definition png_path (self : ValidPlotter) (savename : string) : string :=
  savedir self ++ savename ++ ".png".

(** Whether a file can be written at [path]. *)
Definition writable (w : world) (path : string) : bool :=
  match save_error w path with
  | None => true
  | Some _ => false
  end.

(** Whether the directory that is to hold the file [path] exists. *)
Definition parent_exists (w : world) (path : string) : bool :=
  match fs_walk (cwd w) (dirs w) (start (cwd w) path) (file_dir path) with
  | Some _ => true
  | None => false
  end.



(** The events of a call that is not skipped, in the order of the calls,
    up to the saving of the figure. *)
Definition draw_events (hists : list Hist) (v_label : list string)
    (opts : PlotOpts) : list event :=
  match hists, v_label with
  | h0 :: hrest, l0 :: lrest =>
      let two := Nat.ltb 1 (length hists) in
      let ax2 := if two then Some Ax2 else None in
      (EvClose
         :: (if two then [EvSubplots 2; EvSubplotsAdjust] else [EvSubplots 1]))
      ++ main_events 0 (zip hists v_label)
      ++ ratio_events ax2 h0 l0 1 (zip hrest lrest)
      ++ [EvSetYLabel Ax1 (ylabel opts); EvSetXLabel Ax1 ""]
      ++ (if two
          then [EvSetYLabel Ax2 "Ratio"; EvSetXLabel Ax2 (xlabel opts);
                EvSetYLim Ax2 (ratio_ylim opts);
                EvHLines Ax2 Float64.one
                  (default Float64.nan (head (edges h0)))
                  (default Float64.nan (last (edges h0)))]
               ++ (if modify_ticks opts then [EvTickParams Ax2] else [])
          else [])
      ++ [EvLegend Ax1; EvCmsText Ax1; EvLumiText Ax1 (title opts); EvStyleUse]
  | _, _ => []
  end%list.

(** All events of a call that is not skipped and whose figure can be
    written: the loop over the two extensions saves the one file twice.
    Where it cannot be written, the first [plt.savefig] raises. *)
Definition plot_events (self : ValidPlotter) (hists : list Hist)
    (savename : string) (v_label : list string) (opts : PlotOpts) : list event :=
  app (draw_events hists v_label opts)
    [EvSaveFig (png_path self savename); EvSaveFig (png_path self savename)].

(** The directory string that [__init__] stores. *)
Definition init_savedir (tag : string) (odir : option string) (w : world) : string :=
  if truthy odir then default "" odir else cwd w ++ "/Plots_" ++ tag ++ "/".

(** ** Signs *)

(** Whether a float is NaN or carries the sign [s]. *)
Definition sign_is (s : bool) (x : float) : bool :=
  match x with
  | S754_nan => true
  | S754_zero s' | S754_infinity s' | S754_finite s' _ _ => Bool.eqb s s'
  end.

(** NaN, or a number that is not negative ([+0.0] included, [-0.0] not). *)
Definition nan_or_nonneg (x : float) : bool := sign_is false x.

(** NaN or [+inf]. *)
Definition nan_or_pinf (x : float) : bool :=
  match x with
  | S754_nan | S754_infinity false => true
  | _ => false
  end.

(** A third example: two bins. *)
Definition hist_two_bins : Hist :=
  weighted [Float64.zero; Float64.one; Float64.of_pos 2]
    [Float64.of_pos 4; Float64.zero] [Float64.of_pos 4; Float64.zero].

(** Three bins. *)
Definition hist_three_bins : Hist :=
  weighted [Float64.zero; Float64.one; Float64.of_pos 2; Float64.of_pos 3]
    [Float64.one; Float64.one; Float64.one] [Float64.one; Float64.one; Float64.one].

Definition example_heap2 : gmap loc Hist :=
  <[2%positive := hist_three_bins]> (<[1%positive := hist_two_bins]> ∅).

Definition example_world2 : world :=
  mkWorld example_heap2 "/home/user" ∅ [].

(** ** What a computation leaves in place *)

(** [w'] has every histogram of [w] as it was, the same working directory
    and directories, and the trace of [w] with events added at its end. *)
Definition keeps (w w' : world) : Prop :=
  (forall l h, heap w !! l = Some h -> heap w' !! l = Some h)
  /\ cwd w' = cwd w /\ dirs w' = dirs w
  /\ exists evs, trace w' = (trace w ++ evs)%list.

(** As [keeps], but directories may have been added. *)
Definition grows (w w' : world) : Prop :=
  (forall l h, heap w !! l = Some h -> heap w' !! l = Some h)
  /\ cwd w' = cwd w /\ dirs w ⊆ dirs w'
  /\ exists evs, trace w' = (trace w ++ evs)%list.

(** Every run of [m] is related to its start by [R]. *)
Definition respects (R : world -> world -> Prop) {A} (m : M A) : Prop :=
  forall w, R w (snd (m w)).


(** Not a finite number: NaN or an infinity. *)
Definition not_finite (x : float) : bool :=
  match x with
  | S754_nan | S754_infinity _ => true
  | _ => false
  end.

(** ** Counting and joining *)

(** [s.count(',')] *)
Fixpoint count_commas (s : string) : nat :=
  match s with
  | EmptyString => 0
  | String c rest => (if Ascii.eqb c comma then 1 else 0) + count_commas rest
  end.

(** [','.join(pieces)] *)
Definition join_commas (pieces : list string) : string :=
  String.concat "," pieces.

(** ** The release validations *)

(** The exceptions of the file-access library, beside those above. *)
Inductive io_exn :=
| PyError (e : exn)
| FileNotFoundError (path : string)
| KeyError (key : string).

Inductive io_result (A : Type) :=
| Done (a : A)
| Fail (e : io_exn).
Arguments Done {A} a.
Arguments Fail {A} e.

(** Computations that may also fail in the file-access library. *)
Definition IO (A : Type) : Type := world -> io_result A * world.

Definition io_ret {A} (a : A) : IO A := fun w => (Done a, w).

Definition io_bind {A B} (m : IO A) (k : A -> IO B) : IO B :=
  fun w => match m w with
           | (Done a, w') => k a w'
           | (Fail e, w') => (Fail e, w')
           end.

Definition io_lift {A} (r : io_result A) : IO A := fun w => (r, w).

(** A computation of the plotting code, its exceptions passed on. *)
Definition run {A} (m : M A) : IO A :=
  fun w => match m w with
           | (Ok a, w') => (Done a, w')
           | (Raise e, w') => (Fail (PyError e), w')
           end.

Notation "x <-- m ;; k" := (io_bind m (fun x => k))
  (at level 100, m at next level, right associativity) : py_scope.
Notation "m ;;;; k" := (io_bind m (fun _ => k))
  (at level 100, right associativity) : py_scope.

(** [for x in l: s = body(s, x)] *)
Fixpoint io_fold {A S} (body : S -> A -> IO S) (l : list A) (s : S) : IO S :=
  match l with
  | [] => io_ret s
  | x :: rest => s' <-- body s x ;; io_fold body rest s'
  end.

(** [for x in l: body(x)] *)
Definition io_for {A} (l : list A) (body : A -> IO unit) : IO unit :=
  io_fold (fun _ x => body x) l tt.

(** A Python [dict] with string keys, in insertion order: assigning to a key
    that is present replaces its value where it stands. *)
Fixpoint dict_set {V} (d : list (string * V)) (k : string) (v : V)
  : list (string * V) :=
  match d with
  | [] => [(k, v)]
  | (k', v') :: rest =>
      if String.eqb k' k then (k', v) :: rest else (k', v') :: dict_set rest k v
  end.

Fixpoint dict_get {V} (d : list (string * V)) (k : string) : option V :=
  match d with
  | [] => None
  | (k', v') :: rest => if String.eqb k' k then Some v' else dict_get rest k
  end.

Definition dict_keys {V} (d : list (string * V)) : list string := map fst d.

(** A directory of a ROOT file as the script reads it: histograms by name,
    and sub-directories of histograms by name. *)
Record RootDir := mkRootDir {
  dir_hists : gmap string Hist;
  dir_subdirs : gmap string (gmap string Hist)
}.

(** [os.path.join(a, b)] *)
Definition ends_with_slash (s : string) : bool :=
  match last (list_ascii_of_string s) with
  | Some c => Ascii.eqb c "/"%char
  | None => false
  end.

Definition os_path_join (a b : string) : string :=
  match b with
  | String "/"%char _ => b
  | _ => if String.eqb a "" || ends_with_slash a then a ++ b else a ++ "/" ++ b
  end.

(** [obj.to_hist()]: a new histogram object. *)
Definition to_hist (h : Hist) : M loc :=
  fun w => let l := fresh (dom (heap w)) in
           (Ok l, mkWorld (<[l := h]> (heap w)) (cwd w) (dirs w) (trace w)).

Definition key_error {A} (k : string) (o : option A) : io_result A :=
  match o with
  | Some a => Done a
  | None => Fail (KeyError k)
  end.

Section Release.

(** The ROOT files on disk, by path; each holds directories by their path
    inside the file. *)
Variable root_files : gmap string (gmap string RootDir).

(** [uproot.open(file)[dqm_dir]] *)
Definition open_dir (file dqm_dir : string) : io_result RootDir :=
  match root_files !! file with
  | None => Fail (FileNotFoundError file)
  | Some f => key_error dqm_dir (f !! dqm_dir)
  end.

(** [for file, label in zip(files, labels)]: the two dictionaries. *)
Fixpoint open_files (dqm_dir : string) (pairs : list (string * string))
    (dqm_paths : list (string * string)) (dqm_files : list (string * RootDir))
  : io_result (list (string * string) * list (string * RootDir)) :=
  match pairs with
  | [] => Done (dqm_paths, dqm_files)
  | (file, label) :: rest =>
      match open_dir file dqm_dir with
      | Done d =>
          open_files dqm_dir rest (dict_set dqm_paths label file)
            (dict_set dqm_files label d)
      | Fail e => Fail e
      end
  end.

(** [dqm_paths.keys() == dqm_files.keys()], an equality of key sets *)
Definition same_keys (a b : list string) : bool :=
  forallb (fun k => existsb (String.eqb k) b) a
  && forallb (fun k => existsb (String.eqb k) a) b.

(** [histos_level0[label].update({name: dqm_files[label][name].to_hist()})]
    for every label and every name *)
Definition load_level0 (dqm_files : list (string * RootDir))
    (keys names_level0 : list string) : IO (gmap (string * string) loc) :=
  io_fold (fun histos label =>
    io_fold (fun histos name =>
      d <-- io_lift (key_error label (dict_get dqm_files label)) ;;
      h <-- io_lift (key_error name (dir_hists d !! name)) ;;
      l <-- run (to_hist h) ;;
      io_ret (<[(label, name) := l]> histos))
      names_level0 histos)
    keys ∅.

(** [histos_nested[label][coll].update({name: dqm_files[label][coll][name].to_hist()})]
    for every label, every collection and every name of the collection *)
Definition load_nested (dqm_files : list (string * RootDir))
    (keys collections : list string)
    (names_nested : string -> list (string * (string * string)))
  : IO (gmap (string * string * string) loc) :=
  io_fold (fun histos label =>
    io_fold (fun histos coll =>
      io_fold (fun histos name =>
        d <-- io_lift (key_error label (dict_get dqm_files label)) ;;
        sub <-- io_lift (key_error coll (dir_subdirs d !! coll)) ;;
        h <-- io_lift (key_error name (sub !! name)) ;;
        l <-- run (to_hist h) ;;
        io_ret (<[(label, coll, name) := l]> histos))
        (dict_keys (names_nested coll)) histos)
      collections histos)
    keys ∅.

(** [[histos[label][...][name] for label in dqm_paths.keys()]]; the outer
    levels are [defaultdict]s, so that only the look-up of [name] can fail. *)
Fixpoint gather {K} `{Countable K} (histos : gmap K loc) (key : string -> K)
    (name : string) (keys : list string) : io_result (list loc) :=
  match keys with
  | [] => Done []
  | label :: rest =>
      match histos !! key label with
      | None => Fail (KeyError name)
      | Some l =>
          match gather histos key name rest with
          | Done ls => Done (l :: ls)
          | Fail e => Fail e
          end
      end
  end.

(** The body that [trackReleaseValidation] and [hgcalReleaseValidation]
    share, each with its own directory, collections and names. *)
Definition releaseValidation (dqm_dir : string) (collections : list string)
    (names_level0 : list string)
    (names_nested : string -> list (string * (string * string)))
    (files labels : list string) (tag : string) (odir : option string)
  : IO unit :=
  opened <-- io_lift (open_files dqm_dir (zip files labels) [] []) ;;
  let dqm_paths := fst opened in
  let dqm_files := snd opened in
  if negb (same_keys (dict_keys dqm_paths) (dict_keys dqm_files))
  then io_lift (Fail (PyError (AssertionError "")))
  else
    histos_level0 <-- load_level0 dqm_files (dict_keys dqm_paths) names_level0 ;;
    plotter <-- run (ValidPlotter_init tag odir) ;;
    io_for names_level0 (fun name =>
      v_histos <-- io_lift (gather histos_level0 (fun label => (label, name))
                              name (dict_keys dqm_paths)) ;;
      run (plotHistos plotter v_histos name (dict_keys dqm_paths)
             (mkPlotOpts "" "" "" true (Float64.half, Float64.three_halves)))) ;;;;
    histos_nested <-- load_nested dqm_files (dict_keys dqm_paths) collections
                        names_nested ;;
    io_for collections (fun coll =>
      run (makedir (os_path_join (savedir plotter) coll)) ;;;;
      io_for (names_nested coll) (fun entry =>
        v_histos <-- io_lift (gather histos_nested
                                (fun label => (label, coll, fst entry))
                                (fst entry) (dict_keys dqm_paths)) ;;
        run (plotHistos plotter v_histos (coll ++ "/" ++ fst entry)
               (dict_keys dqm_paths)
               (mkPlotOpts (fst (snd entry)) (snd (snd entry)) coll false
                  (Float64.half, Float64.three_halves))))).

(** *** trackReleaseValidation *)

Definition track_dir : string :=
  "DQMData/Run 1/HLT/Run summary/Tracking/ValidationWRTtp".

(** [trackCollections.values()] *)
Definition track_collections : list string :=
  ["hltGeneral_hltAssociatorByHits"; "hltPhase2Pixel_hltAssociatorByHits"].

Definition track_names_level0 : list string :=
  ["globalEfficiencies"; "effic_vs_coll"; "fakerate_vs_coll"; "pileuprate_coll";
   "num_assoc(simToReco)_coll"; "num_assoc(recoToSim)_coll"].

Definition pt_str : string := "p$_{\text{T}}$".
Definition eta_str : string := "$\eta$".
Definition phi_str : string := "$\phi$".

Definition track_names_nested : list (string * (string * string)) :=
  [("effic_vs_dz", ("Efficiency", "dz"));
   ("effic_vs_dxy", ("Efficiency", "dR"));
   ("effic_vs_hit", ("Efficiency", "Hit"));
   ("effic_vs_phi", ("Efficiency", phi_str));
   ("effic", ("Efficiency", eta_str));
   ("efficPt", ("Efficiency", pt_str));
   ("fakerate_vs_dz", ("Fake Rate", "dz"));
   ("fakerate_vs_dxy", ("Fake Rate", "dxy"));
   ("fakerate_vs_dr", ("Fake Rate", "dR"));
   ("fakerate_vs_hit", ("Fake Rate", "Hit"));
   ("fakerate_vs_phi", ("Fake Rate", phi_str));
   ("fakeratePt", ("Fake Rate", pt_str));
   ("duplicatesRate_dz", ("Duplicate Rate", "dz"));
   ("duplicatesRate_dxy", ("Duplicate Rate", "dxy"));
   ("duplicatesRate_dr", ("Duplicate Rate", "dR"));
   ("duplicatesRate_hit", ("Duplicate Rate", "Hit"));
   ("duplicatesRate_phi", ("Duplicate Rate", phi_str));
   ("duplicatesRate_Pt", ("Duplicate Rate", pt_str))].

Definition trackReleaseValidation (files labels : list string) (tag : string)
    (odir : option string) : IO unit :=
  releaseValidation track_dir track_collections track_names_level0
    (fun _ => track_names_nested) files labels tag odir.

(** *** hgcalReleaseValidation *)

Definition hgcal_dir : string :=
  "DQMData/Run 1/HLT/Run summary/HGCAL/HGCalValidator/hltTiclCandidate".

(** [hgcalCollections.values()] *)
Definition hgcal_collections : list string :=
  ["electrons"; "photons"; "muons"; "neutral_pions"; "charged_hadrons";
   "neutral_hadrons"].

Definition hgcal_names_level0 : list string :=
  ["Candidates PDG Id"; "Candidates charge"; "Candidates pT";
   "Candidates raw energy"; "Candidates regressed energy"; "Candidates type";
   "N of tracksters in candidate"].

Definition hgcal_axes : list (string * string) :=
  [("energy", "E (GeV)"); ("pt", pt_str); ("eta", eta_str); ("phi", phi_str)].

Definition hgcal_metrics : list (string * string) :=
  [("eff", "Efficiency"); ("fake", "Fake Rate")].

Definition charged_collections : list string :=
  ["electrons"; "muons"; "charged_hadrons"].

(** [names_nested_coll], filled metric by metric: both steps over all axes,
    then the track variables when the collection is charged. *)
Definition hgcal_names_nested (coll : string) : list (string * (string * string)) :=
  fold_left (fun names (m : string * string) =>
    let (metric, ylabel) := m in
    let names :=
      fold_left (fun names (step : string) =>
        fold_left (fun names (a : string * string) =>
          let (axis, xlabel) := a in
          dict_set names (metric ++ "_" ++ coll ++ "_" ++ step ++ "_" ++ axis)
            (ylabel, xlabel))
          hgcal_axes names)
        ["energy"; "pid"] names in
    if existsb (String.eqb coll) charged_collections
    then fold_left (fun names (a : string * string) =>
           let (axis, xlabel) := a in
           dict_set names (metric ++ "_" ++ coll ++ "_track_" ++ axis)
             (ylabel, xlabel))
           hgcal_axes names
    else names)
    hgcal_metrics [].

Definition hgcalReleaseValidation (files labels : list string) (tag : string)
    (odir : option string) : IO unit :=
  releaseValidation hgcal_dir hgcal_collections hgcal_names_level0
    hgcal_names_nested files labels tag odir.

End Release.

(** Every run of an [IO] computation is related to its start by [R]. *)
Definition io_respects (R : world -> world -> Prop) {A} (m : IO A) : Prop :=
  forall w, R w (snd (m w)).

(** An example of input files: two files that hold the tracking directory
    with every histogram the script reads, and one that has the directory
    but no histogram. *)
Definition track_subdir : gmap string Hist :=
  list_to_map (map (fun e => (fst e, hist_four)) track_names_nested).

Definition track_full_dir : RootDir :=
  mkRootDir (list_to_map (map (fun n => (n, hist_four)) track_names_level0))
    (list_to_map (map (fun c => (c, track_subdir)) track_collections)).

Definition example_files : gmap string (gmap string RootDir) :=
  <["empty.root" := {[ track_dir := mkRootDir ∅ ∅ ]}]>
    (<["b.root" := {[ track_dir := track_full_dir ]}]>
       {[ "a.root" := {[ track_dir := track_full_dir ]} ]}).

Definition empty_world : world := mkWorld ∅ "/home/user" ∅ [].

(** The file that a label ends up with: the last one paired with it. *)
Definition last_file_for (label : string) (pairs : list (string * string))
  : option string :=
  fst <$> last (List.filter (fun p => String.eqb (snd p) label) pairs).

(** ** What a computation may raise *)

Definition is_assertion (e : exn) : bool :=
  match e with AssertionError _ => true | _ => false end.

(** Every exception that [m] raises satisfies [P]. *)
Definition raises_only (P : exn -> Prop) {A} (m : M A) : Prop :=
  forall w e, fst (m w) = Raise e -> P e.

Definition fails_only (P : io_exn -> Prop) {A} (m : IO A) : Prop :=
  forall w e, fst (m w) = Fail e -> P e.

(** Not an [AssertionError]. *)
Definition no_assertion (e : exn) : Prop := is_assertion e = false.

Definition io_no_assertion (e : io_exn) : Prop :=
  match e with
  | PyError e => is_assertion e = false
  | _ => True
  end.

(** An error of reading the input: a file that does not exist, or a key
    that a file or a directory does not have. *)
Definition is_input_error (e : io_exn) : bool :=
  match e with
  | FileNotFoundError _ | KeyError _ => true
  | PyError _ => false
  end.

(** [w'] has the working directory, the directories and the trace of [w]:
    at most histogram objects were added. *)
Definition quiet (w w' : world) : Prop :=
  cwd w' = cwd w /\ dirs w' = dirs w /\ trace w' = trace w.

(** More input files: one whose directories hold no histogram at all. *)
Definition hollow_files : gmap string (gmap string RootDir) :=
  <["hollow.root" := <[hgcal_dir := mkRootDir ∅ ∅]> {[ track_dir := mkRootDir ∅ ∅ ]}]>
    example_files.

(** ** What a computation draws and saves *)

(** The trace of [w'] is the trace of [w] followed by events that all
    satisfy [Q]. *)
Definition emits (Q : event -> Prop) (w w' : world) : Prop :=
  exists evs, trace w' = (trace w ++ evs)%list /\ Forall Q evs.

(** An event that, when it saves a figure, saves it to a path in [P]. *)
Definition saves_to (P : string -> Prop) (e : event) : Prop :=
  match e with
  | EvSaveFig path => P path
  | _ => True
  end.

(** The names under which a release validation saves its plots: the level-0
    names, and [coll/name] for the names of every collection. *)
Definition plot_names (collections names_level0 : list string)
    (names_nested : string -> list (string * (string * string)))
    (savename : string) : Prop :=
  savename ∈ names_level0
  \/ exists coll name,
       coll ∈ collections /\ name ∈ dict_keys (names_nested coll)
       /\ savename = coll ++ "/" ++ name.

(** The PNG files of the plots [names] below [savedir]. *)
Definition png_of (savedir : string) (names : string -> Prop) (path : string)
  : Prop :=
  exists savename, names savename /\ path = savedir ++ savename ++ ".png".

(** An example of input files that hold everything both validations read. *)
Definition hgcal_subdir (coll : string) : gmap string Hist :=
  list_to_map (map (fun e => (fst e, hist_four)) (hgcal_names_nested coll)).

Definition hgcal_full_dir : RootDir :=
  mkRootDir (list_to_map (map (fun n => (n, hist_four)) hgcal_names_level0))
    (list_to_map (map (fun c => (c, hgcal_subdir c)) hgcal_collections)).

Definition release_files : gmap string (gmap string RootDir) :=
  <["new.root" := <[hgcal_dir := hgcal_full_dir]> {[ track_dir := track_full_dir ]}]>
    {[ "old.root" := <[hgcal_dir := hgcal_full_dir]> {[ track_dir := track_full_dir ]} ]}.



(** * Properties *)

(** ** Running the monad *)

Lemma bind_ok {A B} (m : M A) (k : A -> M B) w a w' :
  m w = (Ok a, w') -> bind m k w = k a w'.
Proof. intros H. unfold bind. now rewrite H. Qed.

Lemma bind_raise {A B} (m : M A) (k : A -> M B) w e w' :
  m w = (Raise e, w') -> bind m k w = (Raise e, w').
Proof. intros H. unfold bind. now rewrite H. Qed.

Lemma deref_ok l h w : heap w !! l = Some h -> deref l w = (Ok h, w).
Proof. intros H. unfold deref. now rewrite H. Qed.

Lemma values_ok l h w :
  heap w !! l = Some h -> values l w = (Ok (mkView l Values), w).
Proof. intros H. unfold values. now rewrite (bind_ok _ _ _ _ _ (deref_ok _ _ _ H)). Qed.

Lemma variances_ok l h w :
  heap w !! l = Some h -> variances l w = (Ok (mkView l Variances), w).
Proof. intros H. unfold variances. now rewrite (bind_ok _ _ _ _ _ (deref_ok _ _ _ H)). Qed.

Lemma read_ok l f h w :
  heap w !! l = Some h -> read (mkView l f) w = (Ok (get_field f h), w).
Proof. intros H. unfold read. cbn. now rewrite (bind_ok _ _ _ _ _ (deref_ok _ _ _ H)). Qed.

(** ** Broadcasting on equal shapes *)

Lemma broadcast2_same_length f (a b : ndarray) :
  length a = length b -> broadcast2 f a b = Ok (zip_with f a b).
Proof.
  intros H. unfold broadcast2.
  destruct a as [|x [|x' a]], b as [|y [|y' b]]; try discriminate; try reflexivity.
  now rewrite H, Nat.eqb_refl.
Qed.

Lemma broadcast_to_same_length n (src : ndarray) :
  length src = n -> broadcast_to n src = Ok src.
Proof. intros H. unfold broadcast_to. now rewrite H, Nat.eqb_refl. Qed.

Lemma _div_ok ln fn hn ld fd hd w :
  heap w !! ln = Some hn -> heap w !! ld = Some hd ->
  length (get_field fn hn) = length (get_field fd hd) ->
  _div (mkView ln fn) (mkView ld fd) w
  = (Ok (zip_with Float64.div (get_field fn hn) (get_field fd hd)), w).
Proof.
  intros Hn Hd Hlen. unfold _div.
  rewrite (bind_ok _ _ _ _ _ (read_ok _ _ _ _ Hn)).
  rewrite (bind_ok _ _ _ _ _ (read_ok _ _ _ _ Hd)).
  unfold lift, np_true_divide. now rewrite broadcast2_same_length.
Qed.

(** ** Running ratioHist *)

Lemma heap_with_heap w hp : heap (with_heap w hp) = hp.
Proof. reflexivity. Qed.

Lemma with_heap_twice w hp hp' : with_heap (with_heap w hp) hp' = with_heap w hp'.
Proof. reflexivity. Qed.

Lemma fresh_loc_unused (w : world) : heap w !! fresh (dom (heap w)) = None.
Proof. apply not_elem_of_dom, is_fresh. Qed.

Lemma fresh_loc_ne (w : world) l h :
  heap w !! l = Some h -> fresh (dom (heap w)) <> l.
Proof. intros H E. rewrite <- E, fresh_loc_unused in H. discriminate. Qed.

Lemma hist_copy_ok l h w :
  heap w !! l = Some h ->
  hist_copy l w
  = (Ok (fresh (dom (heap w))),
     with_heap w (<[fresh (dom (heap w)) := h]> (heap w))).
Proof.
  intros H. unfold hist_copy.
  now rewrite (bind_ok _ _ _ _ _ (deref_ok _ _ _ H)).
Qed.

Lemma assign_all_ok l f h (src : ndarray) w :
  heap w !! l = Some h -> length src = length (get_field f h) ->
  assign_all (mkView l f) src w
  = (Ok tt, with_heap w (<[l := set_field f src h]> (heap w))).
Proof.
  intros H Hlen. unfold assign_all. cbn [view_obj view_field].
  rewrite (bind_ok _ _ _ _ _ (deref_ok _ _ _ H)).
  unfold bind, lift. now rewrite broadcast_to_same_length.
Qed.

Lemma imul_all_ok l f h (src : ndarray) w :
  heap w !! l = Some h -> length src = length (get_field f h) ->
  imul_all (mkView l f) src w
  = (Ok tt,
     with_heap w
       (<[l := set_field f (zip_with Float64.mul (get_field f h) src) h]> (heap w))).
Proof.
  intros H Hlen. unfold imul_all. cbn [view_obj view_field].
  rewrite (bind_ok _ _ _ _ _ (deref_ok _ _ _ H)).
  unfold bind, lift. now rewrite broadcast_to_same_length.
Qed.

Lemma lift_ok {A} (a : A) w : lift (Ok a) w = (Ok a, w).
Proof. reflexivity. Qed.

(** Reading and writing through the views of one object. *)
Lemma get_set_field f (a : ndarray) h : get_field f (set_field f a h) = a.
Proof. unfold get_field, set_field, bin_values, bin_variances. now destruct f, (storage h). Qed.

Lemma edges_set_field f (a : ndarray) h : edges (set_field f a h) = edges h.
Proof. reflexivity. Qed.

Lemma is_weighted_set_field f (a : ndarray) h :
  is_weighted (set_field f a h) = is_weighted h.
Proof. unfold is_weighted, set_field. now destruct f, (storage h). Qed.

Lemma length_get_set_field f g (a : ndarray) h :
  well_formed h -> length a = length (bin_values h) ->
  length (get_field f (set_field g a h)) = length (bin_values h).
Proof.
  unfold well_formed, get_field, set_field, bin_values, bin_variances.
  destruct f, g, (storage h); cbn; intros; congruence.
Qed.

Lemma well_formed_set_field f (a : ndarray) h :
  well_formed h -> length a = length (bin_values h) ->
  well_formed (set_field f a h)
  /\ length (bin_values (set_field f a h)) = length (bin_values h).
Proof.
  unfold well_formed, set_field, bin_values, bin_variances.
  destruct f, (storage h); cbn; intros; split; congruence.
Qed.

(** On weighted storage a write through one view leaves the other. *)
Lemma get_set_field_other f g (a : ndarray) h :
  is_weighted h = true -> f <> g -> get_field f (set_field g a h) = get_field f h.
Proof.
  unfold is_weighted, get_field, set_field, bin_values, bin_variances.
  destruct f, g, (storage h); cbn; congruence.
Qed.

(** On plain storage reading through either view gives the same. *)
Lemma get_field_plain f g h :
  is_weighted h = false -> get_field f h = get_field g h.
Proof.
  unfold is_weighted, get_field, bin_values, bin_variances.
  destruct f, g, (storage h); cbn; congruence.
Qed.

Lemma length_ratio_values hn hd :
  same_binning hn hd -> length (ratio_values hn hd) = length (bin_values hn).
Proof. unfold same_binning, ratio_values. rewrite length_zip_with. lia. Qed.

Lemma length_ratio_scale hn hd :
  well_formed hn -> well_formed hd -> same_binning hn hd ->
  length (ratio_scale hn hd) = length (bin_values hn).
Proof.
  unfold well_formed, same_binning, ratio_scale, np_sqrt, np_square.
  repeat (rewrite length_map || rewrite length_zip_with). lia.
Qed.

Lemma ratioHist_run self num den hn hd w :
  heap w !! num = Some hn -> heap w !! den = Some hd ->
  well_formed hn -> well_formed hd -> same_binning hn hd ->
  ratioHist self num den w
  = (Ok (fresh (dom (heap w))),
     with_heap w (<[fresh (dom (heap w)) := ratio_hist hn hd]> (heap w))).
Proof.
  intros Hn Hd Wn Wd Hb.
  pose proof (length_ratio_values hn hd Hb) as Hvals.
  pose proof (length_ratio_scale hn hd Wn Wd Hb) as Hscale.
  set (l' := fresh (dom (heap w))).
  assert (Hnl : l' <> num) by (apply (fresh_loc_ne w num hn Hn)).
  assert (Hdl : l' <> den) by (apply (fresh_loc_ne w den hd Hd)).
  unfold ratioHist.
  rewrite (bind_ok _ _ _ _ _ (hist_copy_ok _ _ _ Hn)). fold l'.
  set (w1 := with_heap w (<[l' := hn]> (heap w))).
  assert (H1n : heap w1 !! num = Some hn) by (cbn; now rewrite lookup_insert_ne).
  assert (H1d : heap w1 !! den = Some hd) by (cbn; now rewrite lookup_insert_ne).
  assert (H1l : heap w1 !! l' = Some hn) by (cbn; now rewrite lookup_insert_eq).
  rewrite (bind_ok _ _ _ _ _ (values_ok _ _ _ H1n)).
  rewrite (bind_ok _ _ _ _ _ (variances_ok _ _ _ H1n)).
  rewrite (bind_ok _ _ _ _ _ (values_ok _ _ _ H1d)).
  rewrite (bind_ok _ _ _ _ _ (variances_ok _ _ _ H1d)).
  (* hratio.values()[:] = ... *)
  rewrite (bind_ok _ _ _ _ _ (_div_ok _ Values _ _ Values _ _ H1n H1d Hb)).
  rewrite (bind_ok _ _ _ _ _ (values_ok _ _ _ H1l)).
  change (zip_with Float64.div (get_field Values hn) (get_field Values hd))
    with (ratio_values hn hd).
  rewrite (bind_ok _ _ _ _ _ (assign_all_ok _ Values _ (ratio_values hn hd) _ H1l Hvals)).
  unfold w1. rewrite heap_with_heap, with_heap_twice, insert_insert_eq.
  set (h2 := set_field Values (ratio_values hn hd) hn).
  destruct (well_formed_set_field Values (ratio_values hn hd) hn Wn Hvals) as [W2 L2].
  fold h2 in W2, L2.
  set (w2 := with_heap w (<[l' := h2]> (heap w))).
  assert (H2n : heap w2 !! num = Some hn) by (cbn; now rewrite lookup_insert_ne).
  assert (H2d : heap w2 !! den = Some hd) by (cbn; now rewrite lookup_insert_ne).
  assert (H2l : heap w2 !! l' = Some h2) by (cbn; now rewrite lookup_insert_eq).
  (* hratio.variances()[:] = np.abs(...) *)
  rewrite (bind_ok _ _ _ _ _ (_div_ok _ Values _ _ Values _ _ H2n H2d Hb)).
  rewrite (bind_ok _ _ _ _ _ (variances_ok _ _ _ H2l)).
  change (zip_with Float64.div (get_field Values hn) (get_field Values hd))
    with (ratio_values hn hd).
  assert (Habs : length (np_abs (ratio_values hn hd))
                 = length (get_field Variances h2)).
  { unfold np_abs. rewrite length_map, Hvals. symmetry.
    apply (length_get_set_field Variances Values _ hn Wn Hvals). }
  rewrite (bind_ok _ _ _ _ _ (assign_all_ok _ Variances _ _ _ H2l Habs)).
  unfold w2. rewrite heap_with_heap, with_heap_twice, insert_insert_eq.
  set (h3 := set_field Variances (np_abs (ratio_values hn hd)) h2).
  set (w3 := with_heap w (<[l' := h3]> (heap w))).
  assert (H3n : heap w3 !! num = Some hn) by (cbn; now rewrite lookup_insert_ne).
  assert (H3d : heap w3 !! den = Some hd) by (cbn; now rewrite lookup_insert_ne).
  assert (H3l : heap w3 !! l' = Some h3) by (cbn; now rewrite lookup_insert_eq).
  (* hratio.variances()[:] *= np.sqrt(...) *)
  rewrite (bind_ok _ _ _ _ _ (variances_ok _ _ _ H3l)).
  rewrite (bind_ok _ _ _ _ _ (_div_ok _ Variances _ _ Values _ _ H3n H3n Wn)).
  rewrite (bind_ok _ _ _ _ _ (_div_ok _ Variances _ _ Values _ _ H3d H3d Wd)).
  cbn [get_field]. unfold np_add.
  rewrite broadcast2_same_length
    by (unfold well_formed, same_binning, np_square in *;
        rewrite !length_map, !length_zip_with; lia).
  rewrite (bind_ok _ _ _ _ _ (lift_ok _ _)).
  change (np_sqrt _) with (ratio_scale hn hd).
  assert (Hsq : length (ratio_scale hn hd) = length (get_field Variances h3)).
  { unfold h3. rewrite get_set_field. unfold np_abs. now rewrite length_map, Hvals. }
  rewrite (bind_ok _ _ _ _ _ (imul_all_ok _ Variances _ _ _ H3l Hsq)).
  unfold ret, w3. rewrite heap_with_heap, with_heap_twice, insert_insert_eq.
  reflexivity.
Qed.

(** ** Facts of float64 division *)

Lemma div_eucl_shiftl_self (m : positive) :
  Z.div_eucl (Z.shiftl (Zpos m) 53) (Zpos m) = (9007199254740992, 0)%Z.
Proof.
  rewrite Z.shiftl_mul_pow2 by lia.
  assert (E : forall a b, Z.div_eucl a b = (a / b, a mod b)%Z).
  { intros a b. unfold Z.div, Z.modulo. now destruct (Z.div_eucl a b). }
  rewrite E, Z.mul_comm, Z.div_mul, Z.mod_mul by lia.
  reflexivity.
Qed.

Lemma SFdiv_core_self (m : positive) (e : Z) :
  SFdiv_core_binary Float64.prec Float64.emax (Zpos m) e (Zpos m) e
  = (9007199254740992, -53, loc_Exact)%Z.
Proof.
  unfold SFdiv_core_binary. rewrite !Z.sub_diag.
  change (Z.min (fexp Float64.prec Float64.emax 0) 0) with (-53)%Z.
  change (0 - -53)%Z with 53%Z. cbv beta iota zeta.
  rewrite div_eucl_shiftl_self.
  unfold new_location, new_location_even, new_location_odd.
  now destruct (Z.even (Zpos m)).
Qed.

(** A finite non-zero number divided by itself is exactly [1.0]. *)
Lemma div_self_finite s m e :
  Float64.div (S754_finite s m e) (S754_finite s m e) = Float64.one.
Proof.
  unfold Float64.div, SFdiv. rewrite SFdiv_core_self.
  replace (xorb s s) with false by (now destruct s).
  vm_compute. reflexivity.
Qed.

(** Division by a zero: NaN from a zero or a NaN, else an infinity. *)
Lemma div_by_zero n d :
  Float64.is_zero d = true ->
  Float64.div n d
  = if Float64.is_zero n || Float64.is_nan n then Float64.nan
    else S754_infinity (xorb (match n with
                              | S754_infinity s | S754_finite s _ _ => s
                              | _ => false
                              end)
                             (match d with S754_zero s => s | _ => false end)).
Proof. destruct d; try discriminate. now destruct n. Qed.

Lemma div_by_zero_not_zero n d :
  Float64.is_zero d = true -> Float64.eqb (Float64.div n d) Float64.zero = false.
Proof.
  destruct d as [sd | | |]; try discriminate. intros _.
  destruct n as [sn | sn | | sn mn en]; try destruct sn; destruct sd; reflexivity.
Qed.

(** With a zero variance over a finite non-zero value, the relative term
    and all that is built from it is [+0.0]. *)
Lemma ratio_variance_self_zero sv s m e :
  ratio_variance (S754_finite s m e) (S754_zero sv) (S754_finite s m e) (S754_zero sv)
  = Float64.zero.
Proof.
  unfold ratio_variance. rewrite div_self_finite.
  now destruct sv, s.
Qed.

(** ** Bins of the ratio histogram *)

Lemma lookup_map {A B} (f : A -> B) (l : list A) (i : nat) :
  map f l !! i = f <$> (l !! i).
Proof.
  revert i. induction l as [|x l IH]; intros [|i]; cbn; auto.
Qed.

Lemma ratio_hist_edges hn hd : edges (ratio_hist hn hd) = edges hn.
Proof. reflexivity. Qed.

Lemma ratio_hist_is_weighted hn hd : is_weighted (ratio_hist hn hd) = is_weighted hn.
Proof. unfold ratio_hist. cbv zeta. now rewrite !is_weighted_set_field. Qed.

(** What [variances()] shows of the result, on either storage. *)
Lemma ratio_hist_variances hn hd :
  bin_variances (ratio_hist hn hd)
  = zip_with Float64.mul (np_abs (ratio_values hn hd)) (ratio_scale hn hd).
Proof.
  change (bin_variances (ratio_hist hn hd))
    with (get_field Variances (ratio_hist hn hd)).
  unfold ratio_hist. cbv zeta. now rewrite !get_set_field.
Qed.

(** What [values()] shows of the result: the quotients on weighted storage;
    on plain storage the buffer that the stores through [variances()] have
    overwritten. *)
Lemma ratio_hist_values_weighted hn hd :
  is_weighted hn = true -> bin_values (ratio_hist hn hd) = ratio_values hn hd.
Proof.
  intros Hw.
  change (bin_values (ratio_hist hn hd)) with (get_field Values (ratio_hist hn hd)).
  unfold ratio_hist. cbv zeta.
  rewrite !get_set_field_other by (rewrite ?is_weighted_set_field; congruence).
  apply get_set_field.
Qed.

Lemma ratio_hist_values_plain hn hd :
  is_weighted hn = false ->
  bin_values (ratio_hist hn hd) = bin_variances (ratio_hist hn hd).
Proof.
  intros Hw. apply (get_field_plain Values Variances).
  now rewrite ratio_hist_is_weighted.
Qed.

Lemma ratio_hist_value hn hd i n d :
  is_weighted hn = true ->
  bin_values hn !! i = Some n -> bin_values hd !! i = Some d ->
  bin_values (ratio_hist hn hd) !! i = Some (ratio_value n d).
Proof.
  intros Hw Hn Hd. rewrite (ratio_hist_values_weighted _ _ Hw).
  unfold ratio_values. now rewrite lookup_zip_with, Hn, Hd.
Qed.

Lemma ratio_hist_variance hn hd i n vn d vd :
  bin_values hn !! i = Some n -> bin_variances hn !! i = Some vn ->
  bin_values hd !! i = Some d -> bin_variances hd !! i = Some vd ->
  bin_variances (ratio_hist hn hd) !! i = Some (ratio_variance n vn d vd).
Proof.
  intros Hn Hvn Hd Hvd. rewrite ratio_hist_variances.
  unfold ratio_values, ratio_scale, np_abs, np_sqrt, np_square.
  rewrite lookup_zip_with, !lookup_map, !lookup_zip_with, !lookup_map,
    !lookup_zip_with, Hn, Hvn, Hd, Hvd.
  reflexivity.
Qed.

(** ** What ratioHist may write *)

Lemma same_outside_refl l w : same_outside l w w.
Proof. now repeat split. Qed.

Lemma same_outside_trans l w1 w2 w3 :
  same_outside l w1 w2 -> same_outside l w2 w3 -> same_outside l w1 w3.
Proof.
  intros (Ha & ? & ? & ?) (Hb & ? & ? & ?). repeat split; try congruence.
  intros l0 Hl0. now rewrite Hb, Ha.
Qed.

Lemma same_outside_insert l h w :
  same_outside l w (with_heap w (<[l := h]> (heap w))).
Proof.
  repeat split. intros l0 Hl0. cbn. now rewrite lookup_insert_ne.
Qed.

Lemma writes_only_bind {A B} l (m : M A) (k : A -> M B) R R' :
  writes_only l m R -> (forall a, R a -> writes_only l (k a) R') ->
  writes_only l (bind m k) R'.
Proof.
  intros Hm Hk w. destruct (Hm w) as [Hs Hr]. unfold bind.
  destruct (m w) as [[a | e] w1]; cbn in *.
  - destruct (Hk a (Hr a eq_refl) w1) as [Hs' Hr'].
    split; [now apply (same_outside_trans l w w1) | exact Hr'].
  - split; [exact Hs | discriminate].
Qed.

Lemma writes_only_ret {A} l (a : A) : writes_only l (ret a) (fun x => x = a).
Proof. intros w. split; [apply same_outside_refl | now intros ? [= <-]]. Qed.

Lemma writes_only_lift {A} l (r : result A) : writes_only l (lift r) (fun _ => True).
Proof. intros w. split; [apply same_outside_refl | trivial]. Qed.

Lemma writes_only_deref l x : writes_only l (deref x) (fun _ => True).
Proof.
  intros w. unfold deref. destruct (heap w !! x); cbn;
    (split; [apply same_outside_refl | trivial]).
Qed.

Lemma writes_only_weaken {A} l (m : M A) (R R' : A -> Prop) :
  writes_only l m R -> (forall a, R a -> R' a) -> writes_only l m R'.
Proof. intros H HR w. destruct (H w). split; auto. Qed.

Lemma writes_only_values l x :
  writes_only l (values x) (fun v => view_obj v = x).
Proof.
  unfold values. eapply writes_only_bind; [apply writes_only_deref |].
  intros _ _. eapply writes_only_weaken; [apply writes_only_ret |].
  now intros ? ->.
Qed.

Lemma writes_only_variances l x :
  writes_only l (variances x) (fun v => view_obj v = x).
Proof.
  unfold variances. eapply writes_only_bind; [apply writes_only_deref |].
  intros _ _. eapply writes_only_weaken; [apply writes_only_ret |].
  now intros ? ->.
Qed.

Lemma writes_only_read l v : writes_only l (read v) (fun _ => True).
Proof.
  unfold read. eapply writes_only_bind; [apply writes_only_deref |].
  intros h _. eapply writes_only_weaken; [apply writes_only_ret | trivial].
Qed.

Lemma writes_only__div l a b : writes_only l (_div a b) (fun _ => True).
Proof.
  unfold _div. eapply writes_only_bind; [apply writes_only_read |].
  intros n _. eapply writes_only_bind; [apply writes_only_read |].
  intros d _. apply writes_only_lift.
Qed.

Lemma writes_only_store l h : writes_only l (store l h) (fun _ => True).
Proof. intros w. split; [apply same_outside_insert | trivial]. Qed.

Lemma writes_only_assign_all l v src :
  view_obj v = l -> writes_only l (assign_all v src) (fun _ => True).
Proof.
  intros <-. unfold assign_all.
  eapply writes_only_bind; [apply writes_only_deref |]. intros h _.
  eapply writes_only_bind; [apply writes_only_lift |]. intros a _.
  apply writes_only_store.
Qed.

Lemma writes_only_imul_all l v src :
  view_obj v = l -> writes_only l (imul_all v src) (fun _ => True).
Proof.
  intros <-. unfold imul_all.
  eapply writes_only_bind; [apply writes_only_deref |]. intros h _.
  eapply writes_only_bind; [apply writes_only_lift |]. intros a _.
  apply writes_only_store.
Qed.

Create HintDb writes discriminated.
#[local] Hint Resolve writes_only_lift writes_only_deref writes_only_values
  writes_only_variances writes_only_read writes_only__div
  writes_only_assign_all writes_only_imul_all : writes.

Ltac writes_step :=
  eapply writes_only_bind; [solve [eauto with writes] | intros ? ?].

Lemma hist_copy_cases l w :
  hist_copy l w = (Raise ReferenceError, w)
  \/ exists h, heap w !! l = Some h
               /\ hist_copy l w
                  = (Ok (fresh (dom (heap w))),
                     with_heap w (<[fresh (dom (heap w)) := h]> (heap w))).
Proof.
  destruct (heap w !! l) as [h|] eqn:E.
  - right. exists h. split; [reflexivity | now apply hist_copy_ok].
  - left. unfold hist_copy, bind, deref. now rewrite E.
Qed.

(** Every write of [ratioHist] goes to the copy it makes, which is what it
    returns. *)
Lemma ratioHist_writes_only_copy self num den w :
  same_outside (fresh (dom (heap w))) w (snd (ratioHist self num den w))
  /\ forall l, fst (ratioHist self num den w) = Ok l -> l = fresh (dom (heap w)).
Proof.
  unfold ratioHist.
  destruct (hist_copy_cases num w) as [E | (h & _ & E)].
  - rewrite (bind_raise _ _ _ _ _ E). split; [apply same_outside_refl | discriminate].
  - rewrite (bind_ok _ _ _ _ _ E).
    match goal with
    | |- same_outside ?l _ (snd (?m ?w1)) /\ _ =>
        assert (H : writes_only l m (fun a => a = l))
    end.
    { do 15 writes_step. apply writes_only_ret. }
    destruct (H (with_heap w (<[fresh (dom (heap w)) := h]> (heap w)))) as [Hs Hr].
    split; [| exact Hr].
    apply (same_outside_trans _ _
             (with_heap w (<[fresh (dom (heap w)) := h]> (heap w))));
      [apply same_outside_insert | exact Hs].
Qed.

(** ** Signs in float64 arithmetic *)

Lemma binary_round_aux_sign sx mx ex lx :
  sign_is sx (binary_round_aux Float64.prec Float64.emax sx mx ex lx) = true.
Proof.
  unfold binary_round_aux.
  destruct (shr_fexp _ _ mx ex lx) as [mrs e].
  destruct (shr_fexp _ _ _ e loc_Exact) as [mrs' e'].
  destruct (shr_m mrs') as [| m | m]; cbn; [| destruct (Z.leb _ _); cbn |];
    auto using Bool.eqb_reflx.
Qed.

Lemma square_sign x : nan_or_nonneg (Float64.square x) = true.
Proof.
  destruct x as [s | s | | s m e];
    [now destruct s | now destruct s | reflexivity |].
  unfold Float64.square, Float64.mul, SFmul.
  replace (xorb s s) with false by (now destruct s).
  apply binary_round_aux_sign.
Qed.

Lemma abs_sign x : nan_or_nonneg (Float64.abs x) = true.
Proof. now destruct x. Qed.

Lemma add_sign x y :
  nan_or_nonneg x = true -> nan_or_nonneg y = true ->
  nan_or_nonneg (Float64.add x y) = true.
Proof.
  destruct x as [[] | [] | | [] mx ex]; try discriminate;
    destruct y as [[] | [] | | [] my ey]; try discriminate; intros _ _;
    try reflexivity.
  unfold Float64.add, SFadd, cond_Zopp, binary_normalize.
  destruct (shl_align mx ex _) as [ma ea], (shl_align my ey _) as [mb eb].
  cbn [fst]. change (Z.pos ma + Z.pos mb)%Z with (Z.pos (ma + mb)).
  cbv iota. unfold binary_round.
  match goal with
  | |- context [shl_align ?a ?b ?c] => destruct (shl_align a b c) as [mz ez]
  end.
  apply binary_round_aux_sign.
Qed.

Lemma sqrt_sign x : nan_or_nonneg x = true -> nan_or_nonneg (Float64.sqrt x) = true.
Proof.
  destruct x as [[] | [] | | [] m e]; try discriminate; intros _; try reflexivity.
  unfold Float64.sqrt, SFsqrt.
  destruct (SFsqrt_core_binary _ _ _ _) as [[mz ez] lz].
  apply binary_round_aux_sign.
Qed.

Lemma mul_sign x y :
  nan_or_nonneg x = true -> nan_or_nonneg y = true ->
  nan_or_nonneg (Float64.mul x y) = true.
Proof.
  destruct x as [[] | [] | | [] mx ex]; try discriminate;
    destruct y as [[] | [] | | [] my ey]; try discriminate; intros _ _;
    try reflexivity.
  apply binary_round_aux_sign.
Qed.

Lemma ratio_variance_sign n vn d vd :
  nan_or_nonneg (ratio_variance n vn d vd) = true.
Proof.
  unfold ratio_variance.
  apply mul_sign; [apply abs_sign |].
  apply sqrt_sign, add_sign; apply square_sign.
Qed.

(** A sum of squares with an infinite term is [+inf] or NaN. *)
Lemma add_pinf_l y :
  nan_or_nonneg y = true -> nan_or_pinf (Float64.add (S754_infinity false) y) = true.
Proof. now destruct y as [[] | [] | | [] m e]. Qed.

Lemma add_pinf_r x :
  nan_or_nonneg x = true -> nan_or_pinf (Float64.add x (S754_infinity false)) = true.
Proof. now destruct x as [[] | [] | | [] m e]. Qed.

Lemma add_nan_or_pinf_l x y :
  nan_or_pinf x = true -> nan_or_nonneg y = true ->
  nan_or_pinf (Float64.add x y) = true.
Proof.
  destruct x as [| [] | |]; try discriminate; intros _ Hy;
    [now apply add_pinf_l | reflexivity].
Qed.

Lemma add_nan_or_pinf_r x y :
  nan_or_nonneg x = true -> nan_or_pinf y = true ->
  nan_or_pinf (Float64.add x y) = true.
Proof.
  destruct y as [| [] | |]; try discriminate; intros Hx _;
    [now apply add_pinf_r | now destruct x].
Qed.

Lemma square_div_zero a z :
  Float64.is_zero z = true -> nan_or_pinf (Float64.square (Float64.div a z)) = true.
Proof.
  destruct z as [sz | | |]; try discriminate. intros _.
  destruct a as [[] | [] | | [] m e]; destruct sz; reflexivity.
Qed.

Lemma sqrt_nan_or_pinf x : nan_or_pinf x = true -> nan_or_pinf (Float64.sqrt x) = true.
Proof. now destruct x as [| [] | |]. Qed.

(** An empty numerator bin: the variance of the ratio is NaN. *)
Lemma ratio_variance_zero_numerator n vn d vd :
  Float64.is_zero n = true -> ratio_variance n vn d vd = Float64.nan.
Proof.
  intros Hn. unfold ratio_variance.
  pose proof (sqrt_nan_or_pinf _
                (add_nan_or_pinf_l _ _ (square_div_zero vn n Hn)
                   (square_sign (Float64.div vd d)))) as Hs.
  destruct (Float64.sqrt _) as [| [] | |]; try discriminate.
  - destruct n as [sn | | |]; try discriminate.
    now destruct d as [[] | [] | | [] m e]; destruct sn.
  - now destruct (Float64.abs _).
Qed.

(** An empty denominator bin: the variance of the ratio is NaN or [+inf]. *)
Lemma ratio_variance_zero_denominator n vn d vd :
  Float64.is_zero d = true -> nan_or_pinf (ratio_variance n vn d vd) = true.
Proof.
  intros Hd. unfold ratio_variance.
  pose proof (sqrt_nan_or_pinf _
                (add_nan_or_pinf_r _ _ (square_sign (Float64.div vn n))
                   (square_div_zero vd d Hd))) as Hs.
  destruct (Float64.sqrt _) as [| [] | |]; try discriminate.
  - destruct d as [sd | | |]; try discriminate.
    now destruct n as [[] | [] | | [] m e]; destruct sd.
  - now destruct (Float64.abs _).
Qed.

Lemma nan_or_pinf_not_finite x : nan_or_pinf x = true -> not_finite x = true.
Proof. now destruct x as [| [] | |]. Qed.

Lemma not_finite_not_zero x :
  not_finite x = true -> Float64.eqb x Float64.zero = false.
Proof. now destruct x as [| [] | |]. Qed.

(** ** ratioHist: results *)

(** C2, as the code has it: on histograms with the same bins [ratioHist]
    returns without raising; at a bin whose denominator value is zero the
    value of the result is NaN or an infinity, and in no case compares
    equal to 0. Where the numerator keeps its variances apart from its
    values, it is NaN when the numerator is a zero or a NaN and an infinity
    otherwise. *)
Theorem ratioHist_zero_denominator self w num den hn hd :
  heap w !! num = Some hn -> heap w !! den = Some hd ->
  well_formed hn -> well_formed hd -> same_binning hn hd ->
  exists l hr,
    ratioHist self num den w = (Ok l, with_heap w (<[l := hr]> (heap w)))
    /\ forall i n d,
        bin_values hn !! i = Some n -> bin_values hd !! i = Some d ->
        Float64.is_zero d = true ->
        exists r,
          bin_values hr !! i = Some r
          /\ not_finite r = true
          /\ Float64.eqb r Float64.zero = false
          /\ (is_weighted hn = true ->
              Float64.is_nan r = (Float64.is_zero n || Float64.is_nan n)
              /\ Float64.is_inf r = negb (Float64.is_zero n || Float64.is_nan n)).
Proof.
  intros Hn Hd Wn Wd Hb. eexists _, _. split.
  - apply (ratioHist_run self num den hn hd w Hn Hd Wn Wd Hb).
  - intros i n d Hi Hj Hz.
    destruct (is_weighted hn) eqn:Hw.
    + exists (Float64.div n d). split; [apply (ratio_hist_value _ _ _ _ _ Hw Hi Hj) |].
      assert (Hnf : not_finite (Float64.div n d) = true)
        by (rewrite (div_by_zero n d Hz); now destruct n).
      split; [exact Hnf |]. split; [now apply not_finite_not_zero |].
      intros _. rewrite (div_by_zero n d Hz). now destruct n.
    + destruct (lookup_lt_is_Some_2 (bin_variances hn) i) as [vn Hvn].
      { rewrite Wn. apply (lookup_lt_Some _ _ _ Hi). }
      destruct (lookup_lt_is_Some_2 (bin_variances hd) i) as [vd Hvd].
      { rewrite Wd. apply (lookup_lt_Some _ _ _ Hj). }
      exists (ratio_variance n vn d vd).
      rewrite (ratio_hist_values_plain _ _ Hw).
      split; [apply (ratio_hist_variance _ _ _ _ _ _ _ Hi Hvn Hj Hvd) |].
      pose proof (nan_or_pinf_not_finite _
                    (ratio_variance_zero_denominator n vn d vd Hz)) as Hnf.
      split; [exact Hnf |]. split; [now apply not_finite_not_zero | discriminate].
Qed.

Lemma ratioHist_zero_denominator_witness :
  exists l hr,
    ratioHist example_plotter 2%positive 1%positive example_world
    = (Ok l, with_heap example_world (<[l := hr]> (heap example_world)))
    /\ forall i n d,
        bin_values hist_four !! i = Some n -> bin_values hist_empty !! i = Some d ->
        Float64.is_zero d = true ->
        exists r,
          bin_values hr !! i = Some r
          /\ not_finite r = true
          /\ Float64.eqb r Float64.zero = false
          /\ (is_weighted hist_four = true ->
              Float64.is_nan r = (Float64.is_zero n || Float64.is_nan n)
              /\ Float64.is_inf r = negb (Float64.is_zero n || Float64.is_nan n)).
Proof.
  apply (ratioHist_zero_denominator example_plotter example_world 2%positive 1%positive
           hist_four hist_empty);
    reflexivity.
Defined.

(** C2, against the claim: the ratio of the empty histogram to itself is
    computed without raising and its bin holds NaN, which is not 0. *)
Lemma ratioHist_zero_over_zero_is_nan :
  fst (ratioHist example_plotter 1%positive 1%positive example_world) = Ok 4%positive
  /\ bin_values <$> (heap (snd (ratioHist example_plotter 1%positive 1%positive example_world)) !! 4%positive)
     = Some [Float64.nan]
  /\ bin_values hist_empty = [Float64.zero]
  /\ Float64.eqb Float64.nan Float64.zero = false.
Proof. vm_compute. auto. Qed.

(** C3, as the code has it: for a histogram that keeps its variances apart
    from its values, the ratio to itself has value 1 at every bin whose
    value is finite and not zero; the variance there is the one that
    [ratioHist] gives any ratio, the two relative terms being equal, and it
    is 0 when the bin's variance is zero. *)
Theorem ratioHist_self self w l h :
  heap w !! l = Some h -> well_formed h -> is_weighted h = true ->
  exists l' hr,
    ratioHist self l l w = (Ok l', with_heap w (<[l' := hr]> (heap w)))
    /\ forall i v var,
        bin_values h !! i = Some v -> bin_variances h !! i = Some var ->
        Float64.is_finite_nonzero v = true ->
        bin_values hr !! i = Some Float64.one
        /\ bin_variances hr !! i = Some (ratio_variance v var v var)
        /\ (Float64.is_zero var = true ->
            bin_variances hr !! i = Some Float64.zero).
Proof.
  intros Hl Wf Hw. eexists _, _. split.
  - apply (ratioHist_run self l l h h w Hl Hl Wf Wf eq_refl).
  - intros i v var Hv Hvar Hfin.
    destruct v as [| | | s m e]; try discriminate.
    pose proof (ratio_hist_value h h i _ _ Hw Hv Hv) as Hval.
    pose proof (ratio_hist_variance h h i _ _ _ _ Hv Hvar Hv Hvar) as Hvr.
    unfold ratio_value in Hval. rewrite div_self_finite in Hval.
    split; [exact Hval | split; [exact Hvr |]].
    intros Hz. destruct var as [sv | | |]; try discriminate.
    rewrite Hvr. now rewrite ratio_variance_self_zero.
Qed.

Lemma ratioHist_self_witness :
  exists l' hr,
    ratioHist example_plotter 3%positive 3%positive example_world
    = (Ok l', with_heap example_world (<[l' := hr]> (heap example_world)))
    /\ forall i v var,
        bin_values hist_two !! i = Some v -> bin_variances hist_two !! i = Some var ->
        Float64.is_finite_nonzero v = true ->
        bin_values hr !! i = Some Float64.one
        /\ bin_variances hr !! i = Some (ratio_variance v var v var)
        /\ (Float64.is_zero var = true ->
            bin_variances hr !! i = Some Float64.zero).
Proof.
  apply (ratioHist_self example_plotter example_world 3%positive hist_two); reflexivity.
Defined.

(** C3, against the claim: the histogram with value 4 and variance 4 has a
    non-zero value, and its ratio to itself has value 1 but variance
    [sqrt(2)], not 0. *)
Lemma ratioHist_self_variance_not_zero :
  fst (ratioHist example_plotter 2%positive 2%positive example_world) = Ok 4%positive
  /\ heap (snd (ratioHist example_plotter 2%positive 2%positive example_world)) !! 4%positive
     = Some (weighted [Float64.zero; Float64.one] [Float64.one] [sqrt_two])
  /\ Float64.is_finite_nonzero (Float64.of_pos 4) = true
  /\ Float64.eqb sqrt_two Float64.zero = false.
Proof. vm_compute. auto. Qed.

(** On plain storage the stores through [variances()] land in the buffer
    that holds the values: the ratio of the histogram with 4 counts to
    itself ends with [sqrt(2)] where the quotient 1 was stored first. *)
Example ratioHist_self_plain_storage :
  fst (ratioHist example_plotter 1%positive 1%positive example_world3) = Ok 2%positive
  /\ heap (snd (ratioHist example_plotter 1%positive 1%positive example_world3)) !! 2%positive
     = Some (plain [Float64.zero; Float64.one] [sqrt_two])
  /\ Float64.div (Float64.of_pos 4) (Float64.of_pos 4) = Float64.one.
Proof. vm_compute. auto. Qed.

(** C4, as the code has it: on histograms with the same bins, the variance
    of every bin of the result is the absolute value of the quotient of the
    bin's values times the square root of a sum of two squares, one term
    for the numerator and one for the denominator, each a quotient by the
    bin's value, in float64 arithmetic. A division by zero in it is not
    counted as zero: with a zero numerator value the variance is NaN, with a
    zero denominator value NaN or [+inf]. *)
Theorem ratioHist_variances self w num den hn hd :
  heap w !! num = Some hn -> heap w !! den = Some hd ->
  well_formed hn -> well_formed hd -> same_binning hn hd ->
  exists l hr,
    ratioHist self num den w = (Ok l, with_heap w (<[l := hr]> (heap w)))
    /\ forall i n vn d vd,
        bin_values hn !! i = Some n -> bin_variances hn !! i = Some vn ->
        bin_values hd !! i = Some d -> bin_variances hd !! i = Some vd ->
        exists v,
          bin_variances hr !! i = Some v
          /\ v = Float64.mul (Float64.abs (Float64.div n d))
                   (Float64.sqrt
                      (Float64.add (Float64.square (Float64.div vn n))
                                   (Float64.square (Float64.div vd d))))
          /\ (Float64.is_zero n = true -> v = Float64.nan)
          /\ (Float64.is_zero d = true -> nan_or_pinf v = true).
Proof.
  intros Hn Hd Wn Wd Hb. eexists _, _. split.
  - apply (ratioHist_run self num den hn hd w Hn Hd Wn Wd Hb).
  - intros i n vn d vd Hi Hvi Hj Hvj.
    exists (ratio_variance n vn d vd). split; [| split; [reflexivity | split]].
    + apply (ratio_hist_variance hn hd i _ _ _ _ Hi Hvi Hj Hvj).
    + apply ratio_variance_zero_numerator.
    + apply ratio_variance_zero_denominator.
Qed.

Lemma ratioHist_variances_witness :
  exists l hr,
    ratioHist example_plotter 2%positive 3%positive example_world
    = (Ok l, with_heap example_world (<[l := hr]> (heap example_world)))
    /\ forall i n vn d vd,
        bin_values hist_four !! i = Some n -> bin_variances hist_four !! i = Some vn ->
        bin_values hist_two !! i = Some d -> bin_variances hist_two !! i = Some vd ->
        exists v,
          bin_variances hr !! i = Some v
          /\ v = Float64.mul (Float64.abs (Float64.div n d))
                   (Float64.sqrt
                      (Float64.add (Float64.square (Float64.div vn n))
                                   (Float64.square (Float64.div vd d))))
          /\ (Float64.is_zero n = true -> v = Float64.nan)
          /\ (Float64.is_zero d = true -> nan_or_pinf v = true).
Proof.
  apply (ratioHist_variances example_plotter example_world 2%positive 3%positive
           hist_four hist_two);
    reflexivity.
Defined.

(** C4, against the claim: for value 4 and variance 4 over the empty bin,
    counting the divisions by zero as zero gives the variance
    [|0| * sqrt(0.25 + 0) = 0]; the code stores NaN. *)
Lemma ratioHist_variance_zero_division_is_nan :
  fst (ratioHist example_plotter 2%positive 1%positive example_world) = Ok 4%positive
  /\ bin_variances
       <$> (heap (snd (ratioHist example_plotter 2%positive 1%positive example_world))
              !! 4%positive)
     = Some [Float64.nan]
  /\ claimed_ratio_variance (Float64.of_pos 4) (Float64.of_pos 4)
       Float64.zero Float64.zero = Float64.zero
  /\ Float64.nan <> Float64.zero.
Proof. vm_compute. repeat split; discriminate. Qed.

(** The two terms under the root are the quotients of variance by value,
    not of uncertainty by value: for 100 counts over 400 (variances 100 and
    400) the code stores [0.25 * sqrt(1 + 1)], above 0.35, where the
    relative uncertainties 0.1 and 0.05 give less than 0.03. *)
Example ratioHist_relative_terms :
  ratio_variance (Float64.of_pos 100) (Float64.of_pos 100)
    (Float64.of_pos 400) (Float64.of_pos 400)
  = Float64.mul (Float64.div (Float64.of_pos 1) (Float64.of_pos 4)) sqrt_two
  /\ Float64.ltb (Float64.div (Float64.of_pos 35) (Float64.of_pos 100))
       (ratio_variance (Float64.of_pos 100) (Float64.of_pos 100)
          (Float64.of_pos 400) (Float64.of_pos 400)) = true
  /\ Float64.ltb
       (claimed_ratio_variance (Float64.of_pos 100) (Float64.of_pos 100)
          (Float64.of_pos 400) (Float64.of_pos 400))
       (Float64.div (Float64.of_pos 3) (Float64.of_pos 100)) = true.
Proof. vm_compute. auto. Qed.

(** C10: [ratioHist] leaves both arguments as they were, whatever their
    shapes and whether or not it raises; the histogram it returns is a new
    object, neither of the two. *)
Theorem ratioHist_preserves_arguments self w num den hn hd :
  heap w !! num = Some hn -> heap w !! den = Some hd ->
  heap (snd (ratioHist self num den w)) !! num = Some hn
  /\ heap (snd (ratioHist self num den w)) !! den = Some hd
  /\ forall l, fst (ratioHist self num den w) = Ok l -> l <> num /\ l <> den.
Proof.
  intros Hn Hd.
  destruct (ratioHist_writes_only_copy self num den w) as [(Hs & _) Hr].
  pose proof (fresh_loc_ne w num hn Hn) as Nn.
  pose proof (fresh_loc_ne w den hd Hd) as Nd.
  repeat split.
  - rewrite Hs by congruence. exact Hn.
  - rewrite Hs by congruence. exact Hd.
  - rewrite (Hr l H). exact Nn.
  - rewrite (Hr l H). exact Nd.
Qed.

Lemma ratioHist_preserves_arguments_witness :
  heap (snd (ratioHist example_plotter 2%positive 1%positive example_world)) !! 2%positive
  = Some hist_four
  /\ heap (snd (ratioHist example_plotter 2%positive 1%positive example_world)) !! 1%positive
     = Some hist_empty
  /\ forall l,
      fst (ratioHist example_plotter 2%positive 1%positive example_world) = Ok l ->
      l <> 2%positive /\ l <> 1%positive.
Proof.
  apply (ratioHist_preserves_arguments example_plotter example_world
           2%positive 1%positive hist_four hist_empty);
    reflexivity.
Defined.

(** ** Running plotHistos *)

Lemma emit_ok e w : emit e w = (Ok tt, add_events w [e]).
Proof. reflexivity. Qed.

Lemma add_events_app w a b : add_events (add_events w a) b = add_events w (a ++ b).
Proof. unfold add_events. cbn. now rewrite <- app_assoc. Qed.

Lemma add_events_nil w : add_events w [] = w.
Proof. unfold add_events. rewrite app_nil_r. now destruct w. Qed.

Lemma new_events_add w evs : new_events w (add_events w evs) = evs.
Proof. unfold new_events, add_events. cbn. now rewrite drop_app_length. Qed.

Lemma all_empty_ok v_h hists w :
  Forall2 (fun l h => heap w !! l = Some h) v_h hists ->
  all_empty v_h w
  = (Ok (forallb (fun h => sums_to_zero (bin_values h)) hists), w).
Proof.
  induction 1 as [| l h v_h hists Hl _ IH]; [reflexivity |].
  cbn [all_empty forallb].
  rewrite (bind_ok _ _ _ _ _ (values_ok _ _ _ Hl)).
  rewrite (bind_ok _ _ _ _ _ (read_ok _ _ _ _ Hl)).
  cbn [get_field]. destruct (sums_to_zero (bin_values h)); [exact IH | reflexivity].
Qed.

Lemma plot_main_ok v_h hists (v_label : list string) idx w :
  Forall2 (fun l h => heap w !! l = Some h) v_h hists ->
  plot_main idx (zip v_h v_label) w
  = (Ok tt, add_events w (main_events idx (zip hists v_label))).
Proof.
  intros H. revert hists v_label idx w H.
  induction v_h as [| l v_h IH]; intros hists v_label idx w H.
  - inversion H; subst. cbn. now rewrite add_events_nil.
  - inversion H as [| ? h ? hists' Hl Hrest]; subst.
    destruct v_label as [| label v_label]; [cbn; now rewrite add_events_nil |].
    cbn [zip zip_with plot_main main_events].
    rewrite (bind_ok _ _ _ _ _ (deref_ok _ _ _ Hl)).
    rewrite (bind_ok _ _ _ _ _ (emit_ok _ _)).
    rewrite (IH hists' v_label (S idx) (add_events w _)) by exact Hrest.
    now rewrite add_events_app.
Qed.

Lemma index_ok {A} (l : list A) i x : l !! i = Some x -> index l i = Ok x.
Proof. intros H. unfold index. now rewrite H. Qed.

Lemma plot_ratios_ok self ref href (v_label : list string) (l0 : string) ax2 hs :
  forall hhs idx hratio w,
    heap w !! ref = Some href -> well_formed href ->
    Forall2 (fun l h => heap w !! l = Some h) hs hhs ->
    Forall well_formed hhs -> Forall (same_binning href) hhs ->
    v_label !! 0 = Some l0 -> idx + length hs <= length v_label ->
    exists hr w',
      plot_ratios self ref v_label ax2 idx hs hratio w = (Ok hr, w')
      /\ (forall l h, heap w !! l = Some h -> heap w' !! l = Some h)
      /\ cwd w' = cwd w /\ dirs w' = dirs w
      /\ trace w'
         = (trace w ++ ratio_events ax2 href l0 idx (zip hhs (drop idx v_label)))%list
      /\ (hs = [] -> hr = hratio)
      /\ (hs <> [] ->
          exists l h, hr = Some l /\ heap w' !! l = Some h
                      /\ edges h = edges href).
Proof.
  induction hs as [| x hs IH]; intros hhs idx hratio w Href Wref Hobj Hwf Hbin Hl0 Hlen.
  - inversion Hobj; subst. exists hratio, w. cbn.
    rewrite app_nil_r. repeat split; auto. congruence.
  - inversion Hobj as [| ? hx ? hhs' Hx Hrest]; subst.
    inversion Hwf as [| ? ? Wx Hwf']; subst.
    inversion Hbin as [| ? ? Bx Hbin']; subst.
    cbn [length] in Hlen.
    destruct (lookup_lt_is_Some_2 v_label idx ltac:(lia)) as [li Hli].
    set (l' := fresh (dom (heap w))).
    set (w1 := with_heap w (<[l' := ratio_hist href hx]> (heap w))).
    set (ev := EvRatioPlot ax2 (ratio_hist href hx) (li ++ "/" ++ l0) (idx mod n_colors)).
    assert (Hkeep : forall l h, heap w !! l = Some h ->
                                heap (add_events w1 [ev]) !! l = Some h).
    { intros l h Hl. cbn. rewrite lookup_insert_ne; [exact Hl |].
      apply (fresh_loc_ne w l h Hl). }
    destruct (IH hhs' (S idx) (Some l') (add_events w1 [ev])) as
      (hr & w' & Hrun & Hheap & Hcwd & Hdirs & Htrace & Hnil & Hcons);
      auto; try lia.
    { eapply Forall2_impl; [exact Hrest |]. cbn beta. intros; now apply Hkeep. }
    exists hr, w'. split.
    { cbn [plot_ratios].
      rewrite (bind_ok _ _ _ _ _ (ratioHist_run self ref x href hx w Href Hx Wref Wx Bx)).
      fold l' w1.
      rewrite (index_ok _ _ _ Hli), (index_ok _ _ _ Hl0).
      rewrite (bind_ok _ _ _ _ _ (lift_ok li w1)).
      rewrite (bind_ok _ _ _ _ _ (lift_ok l0 w1)).
      assert (Hd : heap w1 !! l' = Some (ratio_hist href hx))
        by (cbn; now rewrite lookup_insert_eq).
      rewrite (bind_ok _ _ _ _ _ (deref_ok _ _ _ Hd)).
      rewrite (bind_ok _ _ _ _ _ (emit_ok _ _)).
      exact Hrun. }
    repeat split.
    + intros l h Hl. apply Hheap, Hkeep, Hl.
    + now rewrite Hcwd.
    + now rewrite Hdirs.
    + rewrite Htrace. cbn [trace add_events w1 with_heap].
      rewrite (drop_S _ _ _ Hli). cbn [zip zip_with ratio_events].
      now rewrite <- app_assoc.
    + discriminate.
    + intros _. destruct hs as [| y hs'].
      * rewrite (Hnil eq_refl). exists l', (ratio_hist href hx).
        split; [reflexivity |]. split; [| reflexivity].
        inversion Hrest; subst. cbn in Hrun. injection Hrun as _ <-.
        cbn. now rewrite lookup_insert_eq.
      * apply Hcons. discriminate.
Qed.

Lemma ret_ok {A} (a : A) w : ret a w = (Ok a, w).
Proof. reflexivity. Qed.

Lemma bind_assoc {A B C} (m : M A) (k : A -> M B) (k' : B -> M C) w :
  bind (bind m k) k' w = bind m (fun a => bind (k a) k') w.
Proof. unfold bind. now destruct (m w) as [[a | e] w1]. Qed.

Ltac emit_step :=
  rewrite ?bind_assoc, (bind_ok _ _ _ _ _ (emit_ok _ _)), ?add_events_app.

(** A call that is not skipped draws the whole figure and then saves it,
    twice. *)
Lemma plotHistos_drawn self v_h hists savename v_label opts w :
  plot_call w v_h hists v_label -> not_all_empty hists ->
  exists w',
    plotHistos self v_h savename v_label opts w
    = (savefig (savedir self ++ savename ++ ".png") ;;;
       savefig (savedir self ++ savename ++ ".png") ;;; ret tt) w'
    /\ (forall l h, heap w !! l = Some h -> heap w' !! l = Some h)
    /\ cwd w' = cwd w /\ dirs w' = dirs w
    /\ trace w' = (trace w ++ draw_events hists v_label opts)%list.
Proof.
  intros [Hobj Hwf Hbin Hedges Hlab] Hne. unfold not_all_empty in Hne.
  unfold plotHistos. rewrite (bind_ok _ _ _ _ _ (all_empty_ok _ _ _ Hobj)), Hne.
  destruct Hobj as [| x h0 v_h hrest Hx Hrest]; [discriminate |].
  destruct v_label as [| l0 lrest]; [discriminate |].
  specialize (Hbin h0 eq_refl). specialize (Hedges h0 eq_refl).
  inversion Hwf as [| ? ? W0 Wrest]; subst.
  inversion Hbin as [| ? ? _ Brest]; subst.
  cbn [length] in Hlab. injection Hlab as Hlab.
  pose proof (Forall2_length _ _ _ Hrest) as Hlen.
  destruct (edges h0) as [| e0 es] eqn:Eedges; [congruence |].
  destruct (last (e0 :: es)) as [elast |] eqn:Elast;
    [| apply last_None in Elast; discriminate].
  emit_step.
  assert (Hobj' : forall evs,
             Forall2 (fun l h => heap (add_events w evs) !! l = Some h)
               (x :: v_h) (h0 :: hrest)) by (intros; now constructor).
  replace (Nat.ltb 1 (length (x :: v_h))) with (Nat.ltb 1 (length (h0 :: hrest)))
    by (cbn [length]; now rewrite Hlen).
  unfold draw_events. cbv zeta. rewrite Eedges, Elast.
  destruct (Nat.ltb 1 (length (h0 :: hrest))) eqn:Etwo.
  - (* several histograms: two panels *)
    rewrite (bind_ok _ _ _ (Some Ax2) (add_events w [EvClose; EvSubplots 2; EvSubplotsAdjust]))
      by (now do 2 emit_step).
    rewrite (bind_ok _ _ _ _ _ (plot_main_ok _ _ _ 0 _ (Hobj' _))), add_events_app.
    cbn [index lookup list_lookup]. rewrite (bind_ok _ _ _ _ _ (lift_ok x _)).
    match goal with
    | |- context [bind (plot_ratios _ _ _ _ _ _ _) _ ?wa] =>
        destruct (plot_ratios_ok self x h0 (l0 :: lrest) l0 (Some Ax2) v_h
                    hrest 1 None wa)
          as (hr & w' & Hrun & Hheap & Hcwd & Hdirs & Htrace & _ & Hcons);
        auto; [cbn; lia |]
    end.
    destruct Hcons as (lr & hlast & -> & Hlr & Hed).
    { destruct v_h; [cbn in Etwo; destruct hrest; discriminate | discriminate]. }
    cbn [tail]. rewrite (bind_ok _ _ _ _ _ Hrun).
    do 2 emit_step. cbn [on_ax2].
    do 3 emit_step. rewrite ?bind_assoc.
    rewrite (bind_ok _ _ _ hlast (add_events w' _)) by (now apply deref_ok).
    rewrite Hed, Eedges. cbn [index lookup list_lookup]. unfold index_last.
    rewrite Elast. rewrite ?bind_assoc, (bind_ok _ _ _ _ _ (lift_ok _ _)).
    rewrite ?bind_assoc, (bind_ok _ _ _ _ _ (lift_ok _ _)).
    emit_step. rewrite ?bind_assoc.
    destruct (modify_ticks opts); cbn [fold_right];
      [do 5 emit_step | rewrite (bind_ok _ _ _ _ _ (ret_ok _ _)); do 4 emit_step];
      (eexists; split; [reflexivity |]);
      cbn [heap cwd dirs trace add_events]; repeat split; auto;
      rewrite Htrace; cbn [trace add_events drop zip zip_with default head];
      rewrite <- !app_assoc; reflexivity.
  - (* a single histogram: one panel *)
    assert (v_h = []) as ->.
    { destruct v_h as [| y v_h]; [reflexivity |].
      destruct hrest; [discriminate | cbn in Etwo; discriminate]. }
    inversion Hrest; subst.
    rewrite (bind_ok _ _ _ None (add_events w [EvClose; EvSubplots 1]))
      by (now emit_step).
    rewrite (bind_ok _ _ _ _ _ (plot_main_ok _ _ _ 0 _ (Hobj' _))), add_events_app.
    cbn [index lookup list_lookup tail plot_ratios].
    rewrite (bind_ok _ _ _ _ _ (lift_ok x _)).
    rewrite (bind_ok _ _ _ _ _ (ret_ok _ _)).
    do 2 emit_step.
    rewrite (bind_ok _ _ _ _ _ (ret_ok _ _)).
    cbn [fold_right]. do 4 emit_step.
    eexists. split; [reflexivity |].
    cbn [heap cwd dirs trace add_events]. repeat split; auto.
Qed.

(** Whether a file can be written depends on the directories only. *)
Lemma save_error_same_fs w w' path :
  cwd w' = cwd w -> dirs w' = dirs w -> save_error w' path = save_error w path.
Proof. intros Hc Hd. unfold save_error. now rewrite Hc, Hd. Qed.

Lemma savefig_ok path w :
  writable w path = true -> savefig path w = (Ok tt, add_events w [EvSaveFig path]).
Proof.
  unfold writable, savefig. rewrite (bind_ok _ _ _ _ _ (emit_ok _ _)).
  rewrite (save_error_same_fs w (add_events w _)) by reflexivity.
  now destruct (save_error w path).
Qed.

Lemma savefig_fails path w e :
  save_error w path = Some e ->
  savefig path w = (Raise e, add_events w [EvSaveFig path]).
Proof.
  intros H. unfold savefig. rewrite (bind_ok _ _ _ _ _ (emit_ok _ _)).
  now rewrite (save_error_same_fs w (add_events w _)), H.
Qed.

Lemma writable_add_events w evs path :
  writable (add_events w evs) path = writable w path.
Proof. unfold writable. now rewrite (save_error_same_fs w (add_events w evs)). Qed.

(** The outcome of a call that is not skipped: the figure is drawn; then
    it is saved, twice at the one path, or saving fails and the call
    raises. *)
Lemma plotHistos_outcome self v_h hists savename v_label opts w :
  plot_call w v_h hists v_label -> not_all_empty hists ->
  exists w',
    plotHistos self v_h savename v_label opts w
    = (match save_error w (png_path self savename) with
       | None => Ok tt
       | Some e => Raise e
       end, w')
    /\ (forall l h, heap w !! l = Some h -> heap w' !! l = Some h)
    /\ cwd w' = cwd w /\ dirs w' = dirs w
    /\ trace w'
       = (trace w
          ++ (if writable w (png_path self savename)
              then plot_events self hists savename v_label opts
              else draw_events hists v_label opts
                   ++ [EvSaveFig (png_path self savename)]))%list.
Proof.
  intros Hcall Hne.
  destruct (plotHistos_drawn self v_h hists savename v_label opts w Hcall Hne)
    as (wd & Hrun & Hheap & Hcwd & Hdirs & Htrace).
  rewrite Hrun. fold (png_path self savename).
  pose proof (save_error_same_fs w wd (png_path self savename) Hcwd Hdirs) as Hsame.
  unfold writable. destruct (save_error w (png_path self savename)) as [e |] eqn:Hs.
  - exists (add_events wd [EvSaveFig (png_path self savename)]).
    rewrite (bind_raise _ _ _ _ _ (savefig_fails _ _ _ Hsame)).
    cbn [heap cwd dirs trace add_events]. repeat split; auto.
    now rewrite Htrace, <- app_assoc.
  - assert (Hw : writable wd (png_path self savename) = true)
      by (unfold writable; now rewrite Hsame).
    rewrite (bind_ok _ _ _ _ _ (savefig_ok _ _ Hw)).
    rewrite (bind_ok _ _ _ tt (add_events wd [EvSaveFig (png_path self savename);
                                              EvSaveFig (png_path self savename)])).
    2:{ rewrite savefig_ok by (now rewrite writable_add_events).
        now rewrite add_events_app. }
    eexists. split; [reflexivity |].
    cbn [heap cwd dirs trace add_events]. repeat split; auto.
    rewrite Htrace. unfold plot_events. now rewrite <- app_assoc.
Qed.


(** ** Reading the trace of a call *)

Lemma new_events_trace w w' evs :
  trace w' = (trace w ++ evs)%list -> new_events w w' = evs.
Proof. intros H. unfold new_events. rewrite H. apply drop_app_length. Qed.

Lemma ratio_curves_app a b :
  ratio_curves (a ++ b) = (ratio_curves a ++ ratio_curves b)%list.
Proof.
  induction a as [| e a IH]; [reflexivity |].
  destruct e; cbn; now rewrite ?IH.
Qed.

Lemma reference_lines_app a b :
  reference_lines (a ++ b) = (reference_lines a ++ reference_lines b)%list.
Proof.
  induction a as [| e a IH]; [reflexivity |].
  destruct e as [| | | | | | | | | [] | | | | | |]; cbn; now rewrite ?IH.
Qed.

Lemma saved_files_app a b :
  saved_files (a ++ b) = (saved_files a ++ saved_files b)%list.
Proof.
  induction a as [| e a IH]; [reflexivity |].
  destruct e; cbn; now rewrite ?IH.
Qed.

Lemma main_events_quiet idx hl :
  ratio_curves (main_events idx hl) = []
  /\ reference_lines (main_events idx hl) = []
  /\ saved_files (main_events idx hl) = []
  /\ forallb (fun e => negb (on_secondary e)) (main_events idx hl) = true.
Proof.
  revert idx. induction hl as [| [h label] hl IH]; intros idx; [now cbn |].
  cbn. apply IH.
Qed.

Lemma ratio_events_curves ax2 href l0 idx hhs (labels : list string) :
  length labels = length hhs ->
  ratio_curves (ratio_events ax2 href l0 idx (zip hhs labels))
  = map (fun li => (ax2, li ++ "/" ++ l0)) labels
  /\ reference_lines (ratio_events ax2 href l0 idx (zip hhs labels)) = []
  /\ saved_files (ratio_events ax2 href l0 idx (zip hhs labels)) = [].
Proof.
  revert idx labels. induction hhs as [| h hhs IH]; intros idx [| li labels] Hlen;
    try discriminate; [now cbn |].
  cbn. destruct (IH (S idx) labels) as (-> & -> & ->); [now injection Hlen |].
  auto.
Qed.

(** ** plotHistos: the claims *)

(** C7: when the values of every histogram sum to zero, the call prints the
    skip message and returns at once; nothing else reaches the outside, and
    no figure is saved. *)
Theorem plotHistos_skips_empty self v_h hists savename v_label opts w :
  Forall2 (fun l h => heap w !! l = Some h) v_h hists ->
  forallb (fun h => sums_to_zero (bin_values h)) hists = true ->
  plotHistos self v_h savename v_label opts w
  = (Ok tt, add_events w [EvPrint (skip_message savename)])
  /\ saved_files
       (new_events w (snd (plotHistos self v_h savename v_label opts w))) = [].
Proof.
  intros Hobj Hall.
  assert (E : plotHistos self v_h savename v_label opts w
              = (Ok tt, add_events w [EvPrint (skip_message savename)])).
  { unfold plotHistos.
    now rewrite (bind_ok _ _ _ _ _ (all_empty_ok _ _ _ Hobj)), Hall. }
  split; [exact E |]. rewrite E. cbn [snd]. now rewrite new_events_add.
Qed.

Lemma plotHistos_skips_empty_witness :
  plotHistos example_plotter [1%positive; 1%positive] "effic" ["A"; "B"]
    default_opts example_world
  = (Ok tt, add_events example_world [EvPrint (skip_message "effic")])
  /\ saved_files
       (new_events example_world
          (snd (plotHistos example_plotter [1%positive; 1%positive] "effic"
                  ["A"; "B"] default_opts example_world))) = [].
Proof.
  apply (plotHistos_skips_empty example_plotter [1%positive; 1%positive]
           [hist_empty; hist_empty]).
  - repeat constructor.
  - reflexivity.
Defined.

Lemma plotHistos_events self v_h hists savename v_label opts w :
  plot_call w v_h hists v_label -> not_all_empty hists ->
  new_events w (snd (plotHistos self v_h savename v_label opts w))
  = (draw_events hists v_label opts
     ++ (if writable w (png_path self savename)
         then [EvSaveFig (png_path self savename); EvSaveFig (png_path self savename)]
         else [EvSaveFig (png_path self savename)]))%list.
Proof.
  intros Hcall Hne.
  destruct (plotHistos_outcome self v_h hists savename v_label opts w Hcall Hne)
    as (w' & Hrun & _ & _ & _ & Htrace).
  rewrite Hrun. cbn [snd]. rewrite (new_events_trace _ _ _ Htrace).
  unfold plot_events. now destruct (writable w _).
Qed.

(** The secondary panel of a call that is not skipped, on histograms with
    the same bins and one label each: with more than one histogram two
    panels are opened and the secondary one gets a ratio curve per
    histogram after the first, labelled [label/first label], and one
    reference line at 1.0; with exactly one histogram nothing creates or
    touches a secondary panel; with three there are two ratio curves. *)
Lemma plotHistos_ratio_panel self v_h hists savename v_label opts w :
  plot_call w v_h hists v_label -> not_all_empty hists ->
  (1 < length v_h ->
   In (EvSubplots 2) (new_events w (snd (plotHistos self v_h savename v_label opts w)))
   /\ ratio_curves (new_events w (snd (plotHistos self v_h savename v_label opts w)))
      = ratio_labels v_label
   /\ length (ratio_curves
                (new_events w (snd (plotHistos self v_h savename v_label opts w))))
      = length v_h - 1
   /\ reference_lines
        (new_events w (snd (plotHistos self v_h savename v_label opts w)))
      = [Float64.one])
  /\ (length v_h = 1 ->
      forallb (fun e => negb (on_secondary e))
        (new_events w (snd (plotHistos self v_h savename v_label opts w))) = true
      /\ ratio_curves
           (new_events w (snd (plotHistos self v_h savename v_label opts w))) = [])
  /\ (length v_h = 3 ->
      length (ratio_curves
                (new_events w (snd (plotHistos self v_h savename v_label opts w))))
      = 2).
Proof.
  intros Hcall Hne.
  rewrite (plotHistos_events self v_h hists savename v_label opts w Hcall Hne).
  set (saves := if writable w (png_path self savename)
                then [EvSaveFig (png_path self savename);
                      EvSaveFig (png_path self savename)]
                else [EvSaveFig (png_path self savename)]).
  assert (Hsaves : ratio_curves saves = [] /\ reference_lines saves = []
                   /\ forallb (fun e => negb (on_secondary e)) saves = true)
    by (unfold saves; now destruct (writable w _)).
  destruct Hsaves as (Sc & Sr & Ss).
  destruct Hcall as [Hobj _ _ _ Hlab].
  pose proof (Forall2_length _ _ _ Hobj) as Hlen.
  destruct hists as [| h0 hrest]; [discriminate |].
  destruct v_label as [| l0 lrest]; [destruct v_h; discriminate |].
  destruct v_h as [| x v_h]; [discriminate |].
  cbn [length] in *. injection Hlab as Hlab. injection Hlen as Hlen.
  assert (Hl : length lrest = length hrest) by congruence.
  rewrite ratio_curves_app, reference_lines_app, forallb_app, Sc, Sr, Ss, !app_nil_r.
  assert (Hcurves :
             1 <= length hrest ->
             ratio_curves (draw_events (h0 :: hrest) (l0 :: lrest) opts)
             = map (fun li => (Some Ax2, li ++ "/" ++ l0)) lrest).
  { intros Hpos. unfold draw_events. cbv zeta.
    replace (Nat.ltb 1 (length (h0 :: hrest))) with true
      by (symmetry; apply Nat.ltb_lt; cbn; lia).
    rewrite !ratio_curves_app.
    rewrite (proj1 (main_events_quiet _ _)).
    rewrite (proj1 (ratio_events_curves _ _ _ _ _ _ Hl)).
    destruct (modify_ticks opts); cbn; now rewrite app_nil_r. }
  repeat split.
  - apply in_or_app. left. unfold draw_events. cbv zeta.
    replace (Nat.ltb 1 (length (h0 :: hrest))) with true
      by (symmetry; apply Nat.ltb_lt; cbn; lia).
    cbn. auto.
  - rewrite Hcurves by lia. reflexivity.
  - rewrite Hcurves by lia. rewrite length_map. lia.
  - unfold draw_events. cbv zeta.
    replace (Nat.ltb 1 (length (h0 :: hrest))) with true
      by (symmetry; apply Nat.ltb_lt; cbn; lia).
    rewrite !reference_lines_app.
    rewrite (proj1 (proj2 (main_events_quiet _ _))).
    rewrite (proj1 (proj2 (ratio_events_curves _ _ _ _ _ _ Hl))).
    destruct (modify_ticks opts); reflexivity.
  - destruct v_h; [| discriminate]. destruct hrest; [| discriminate].
    destruct lrest; [| discriminate]. reflexivity.
  - destruct v_h; [| discriminate]. destruct hrest; [| discriminate].
    destruct lrest; [| discriminate]. reflexivity.
  - intros H3. rewrite Hcurves by lia. rewrite length_map. lia.
Qed.

Lemma plot_call_example :
  plot_call example_world [2%positive; 3%positive; 2%positive]
    [hist_four; hist_two; hist_four] ["A"; "B"; "C"].
Proof.
  constructor.
  - repeat constructor.
  - repeat constructor.
  - intros h0 [= <-]. repeat constructor.
  - intros h0 [= <-]. discriminate.
  - reflexivity.
Defined.

(** C6, against the code: the call with the histograms A (value 4) and B
    (value 2) returns and draws one ratio curve on the secondary panel,
    which the legend calls [B/A]; the curve holds the first histogram over
    the other one, 4/2 = 2.0, where the ratio of B to the first, B/A, is
    0.5. *)
Theorem plotHistos_ratio_curve_direction :
  fst (plotHistos example_plotter [2%positive; 3%positive] "effic"
         ["A"; "B"] default_opts example_world) = Ok tt
  /\ List.filter (fun e => match e with EvRatioPlot _ _ _ _ => true | _ => false end)
       (trace (snd (plotHistos example_plotter [2%positive; 3%positive] "effic"
                      ["A"; "B"] default_opts example_world)))
     = [EvRatioPlot (Some Ax2)
          (weighted [Float64.zero; Float64.one] [Float64.of_pos 2] [Float64.of_pos 2])
          "B/A" 1]
  /\ bin_values hist_four = [Float64.of_pos 4]
  /\ bin_values hist_two = [Float64.of_pos 2]
  /\ Float64.div (Float64.of_pos 4) (Float64.of_pos 2) = Float64.of_pos 2
  /\ Float64.div (Float64.of_pos 2) (Float64.of_pos 4) = Float64.half
  /\ Float64.of_pos 2 <> Float64.half.
Proof. vm_compute. repeat split; discriminate. Qed.

(** ** The file system *)

Lemma leads_to_refl d : leads_to d d = true.
Proof. induction d as [| x d IH]; cbn; [reflexivity | now rewrite String.eqb_refl]. Qed.

Lemma fs_dir_exists_spec c made d :
  fs_dir_exists c made d = true
  <-> exists q, In q (known_dirs c made) /\ leads_to d q = true.
Proof. unfold fs_dir_exists. apply existsb_exists. Qed.

Lemma known_dirs_mono c (made made' : gset string) q :
  made ⊆ made' -> In q (known_dirs c made) -> In q (known_dirs c made').
Proof.
  unfold known_dirs. rewrite !in_app_iff, !in_flat_map.
  intros Hsub [H | (p & Hp & Hq)]; [now left |].
  right. exists p. split; [| exact Hq].
  apply list_elem_of_In, elem_of_elements, Hsub.
  now apply elem_of_elements, list_elem_of_In.
Qed.

Lemma fs_dir_exists_mono c (made made' : gset string) d :
  made ⊆ made' -> fs_dir_exists c made d = true -> fs_dir_exists c made' d = true.
Proof.
  intros Hsub H. apply fs_dir_exists_spec in H as (q & Hq & Hl).
  apply fs_dir_exists_spec. exists q. split; [| exact Hl].
  now apply (known_dirs_mono c made).
Qed.

(** What exists stays when directories are added. *)
Lemma fs_walk_mono c (made made' : gset string) steps :
  made ⊆ made' ->
  forall cur r, fs_walk c made cur steps = Some r -> fs_walk c made' cur steps = Some r.
Proof.
  intros Hsub. induction steps as [| s rest IH]; intros cur r H; [exact H |].
  cbn [fs_walk] in *. destruct (is_name s); cbn [andb] in *; [| now apply IH].
  destruct (fs_dir_exists c made (step cur s)) eqn:E; [| discriminate].
  rewrite (fs_dir_exists_mono c made made' _ Hsub E). now apply IH.
Qed.

Lemma os_path_exists_mono w w' path :
  cwd w' = cwd w -> dirs w ⊆ dirs w' ->
  os_path_exists w path = true -> os_path_exists w' path = true.
Proof.
  intros Hc Hsub. unfold os_path_exists, fs_resolve. rewrite Hc.
  destruct (String.eqb path ""); [discriminate |].
  destruct (fs_walk (cwd w) (dirs w) _ _) as [r |] eqn:E; [| discriminate].
  now rewrite (fs_walk_mono _ _ _ _ Hsub _ _ E).
Qed.

Lemma parent_exists_mono w w' path :
  cwd w' = cwd w -> dirs w ⊆ dirs w' ->
  parent_exists w path = true -> parent_exists w' path = true.
Proof.
  intros Hc Hsub. unfold parent_exists. rewrite Hc.
  destruct (fs_walk (cwd w) (dirs w) _ _) as [r |] eqn:E; [| discriminate].
  now rewrite (fs_walk_mono _ _ _ _ Hsub _ _ E).
Qed.

Lemma passed_head cur steps : In cur (passed cur steps).
Proof. destruct steps; now left. Qed.

(** Along a way whose directories all exist the walk arrives. *)
Lemma fs_walk_passed c made steps :
  forall cur,
    (forall q, In q (passed cur steps) -> fs_dir_exists c made q = true) ->
    fs_walk c made cur steps = Some (fold_left step steps cur).
Proof.
  induction steps as [| s rest IH]; intros cur H; [reflexivity |].
  cbn [fs_walk fold_left].
  rewrite (H (step cur s)) by (right; apply passed_head).
  rewrite andb_false_r. apply IH. intros q Hq. apply H. now right.
Qed.

(** A path that was made names a directory. *)
Lemma made_path_exists c (made : gset string) p :
  p ∈ made -> p <> "" ->
  fs_resolve c made p = Some (fold_left step (path_steps p) (start c p)).
Proof.
  intros Hin Hne. unfold fs_resolve.
  rewrite (proj2 (String.eqb_neq _ _) Hne).
  apply fs_walk_passed. intros q Hq.
  apply fs_dir_exists_spec. exists q. split; [| apply leads_to_refl].
  unfold known_dirs. apply in_app_iff. right. apply in_flat_map.
  exists p. split; [| exact Hq].
  now apply list_elem_of_In, elem_of_elements.
Qed.

(** ** makedir *)

(** The three ways a call of [makedir] can go. *)
Lemma makedir_cases path w :
  (os_path_exists w path = true /\ makedir path w = (Ok tt, w))
  \/ (os_path_exists w path = false /\ path = ""
      /\ makedir path w = (Raise (OSError ENOENT path), w))
  \/ (os_path_exists w path = false /\ path <> ""
      /\ makedir path w
         = (if String.eqb (last_name path) ".."
            then Raise (OSError EEXIST path) else Ok tt,
            mkWorld (heap w) (cwd w) ({[path]} ∪ dirs w) (trace w))).
Proof.
  unfold makedir, os_makedirs.
  destruct (os_path_exists w path) eqn:E; [now left | right].
  destruct (String.eqb path "") eqn:Ep.
  - left. apply String.eqb_eq in Ep. auto.
  - right. apply String.eqb_neq in Ep. repeat split; auto.
    now destruct (String.eqb (last_name path) "..").
Qed.

(** Whatever way it goes, [makedir] touches the directories only, and
    adds to them. *)
Lemma makedir_frame path w :
  heap (snd (makedir path w)) = heap w /\ cwd (snd (makedir path w)) = cwd w
  /\ trace (snd (makedir path w)) = trace w
  /\ dirs w ⊆ dirs (snd (makedir path w)).
Proof.
  destruct (makedir_cases path w) as [(_ & ->) | [(_ & _ & ->) | (_ & _ & ->)]];
    cbn; repeat split; auto; set_solver.
Qed.


(** When [makedir] returns, the path names a directory, and what existed
    still does. *)
Lemma makedir_ok path w w' :
  makedir path w = (Ok tt, w') ->
  os_path_exists w' path = true
  /\ heap w' = heap w /\ cwd w' = cwd w /\ trace w' = trace w
  /\ dirs w ⊆ dirs w'
  /\ (os_path_exists w path = true -> w' = w).
Proof.
  intros H. pose proof (makedir_frame path w) as (Hh & Hc & Ht & Hd).
  rewrite H in Hh, Hc, Ht, Hd. cbn [snd] in *.
  repeat split; auto.
  - destruct (makedir_cases path w) as [(E & R) | [(_ & _ & R) | (_ & Hne & R)]];
      rewrite R in H.
    + now injection H as <-.
    + discriminate.
    + destruct (String.eqb (last_name path) ".."); [discriminate |].
      injection H as <-. unfold os_path_exists. cbn [cwd dirs].
      rewrite (made_path_exists _ _ path); [reflexivity | set_solver | exact Hne].
  - intros E. unfold makedir in H. rewrite E in H. now injection H.
Qed.

Lemma ValidPlotter_init_eq tag odir w :
  ValidPlotter_init tag odir w
  = match makedir (init_savedir tag odir w) w with
    | (Ok _, w') => (Ok (mkValidPlotter (init_savedir tag odir w)), w')
    | (Raise e, w') => (Raise e, w')
    end.
Proof.
  unfold ValidPlotter_init, init_savedir, bind, ret.
  destruct (truthy odir); now destruct (makedir _ w) as [[[] | e] w'].
Qed.

Lemma ValidPlotter_init_frame tag odir w :
  heap (snd (ValidPlotter_init tag odir w)) = heap w
  /\ cwd (snd (ValidPlotter_init tag odir w)) = cwd w
  /\ trace (snd (ValidPlotter_init tag odir w)) = trace w
  /\ dirs w ⊆ dirs (snd (ValidPlotter_init tag odir w)).
Proof.
  rewrite ValidPlotter_init_eq.
  pose proof (makedir_frame (init_savedir tag odir w) w) as H.
  now destruct (makedir _ w) as [[[] | e] w'].
Qed.

(** When the plotter is constructed, its directory is the one of
    [init_savedir] and exists. *)
Lemma ValidPlotter_init_ok tag odir w self w' :
  ValidPlotter_init tag odir w = (Ok self, w') ->
  self = mkValidPlotter (init_savedir tag odir w)
  /\ makedir (init_savedir tag odir w) w = (Ok tt, w').
Proof.
  rewrite ValidPlotter_init_eq.
  destruct (makedir _ w) as [[[] | e] w1]; [| discriminate].
  now intros [= <- <-].
Qed.

Lemma init_savedir_not_empty tag odir w : init_savedir tag odir w <> "".
Proof.
  unfold init_savedir. destruct odir as [[| c o] |]; cbn; try discriminate;
    destruct (cwd w); discriminate.
Qed.

(** ** Paths *)












(** ** The output directory and the saved files *)






(** ** getEfficiency *)

Lemma binomtest_unbound : name_is_bound "binomtest" = false.
Proof. reflexivity. Qed.

Lemma load_binomtest_raises impl :
  load_binomtest impl = Raise (NameError "binomtest").
Proof. unfold load_binomtest. now rewrite binomtest_unbound. Qed.

(** The loop raises as soon as it meets a bin whose total is positive. *)
Lemma getEfficiency_loop_positive impl bins :
  forall yEff yEffErrUp yEffErrLow,
    existsb (fun b => gt_zero (snd b)) bins = true ->
    getEfficiency_loop impl bins yEff yEffErrUp yEffErrLow
    = Raise (NameError "binomtest").
Proof.
  induction bins as [| [yPass yTot] bins IH]; intros a b c H; [discriminate |].
  cbn [getEfficiency_loop]. cbn [existsb snd] in H.
  destruct (gt_zero yTot).
  - now rewrite load_binomtest_raises.
  - apply IH. exact H.
Qed.

(** Without a positive total the loop appends a zero to each list per bin. *)
Lemma getEfficiency_loop_zero impl bins :
  forall yEff yEffErrUp yEffErrLow,
    forallb (fun b => negb (gt_zero (snd b))) bins = true ->
    getEfficiency_loop impl bins yEff yEffErrUp yEffErrLow
    = Ok (yEff ++ repeat (PyInt 0) (length bins),
          yEffErrLow ++ repeat (PyInt 0) (length bins),
          yEffErrUp ++ repeat (PyInt 0) (length bins))%list.
Proof.
  induction bins as [| [yPass yTot] bins IH]; intros a b c H.
  - cbn. now rewrite !app_nil_r.
  - cbn [getEfficiency_loop]. cbn [forallb snd] in H.
    apply andb_prop in H as [Hz Hrest].
    destruct (gt_zero yTot); [discriminate |].
    rewrite IH by exact Hrest. cbn [length repeat].
    now rewrite <- !app_assoc.
Qed.

Lemma np_array_zeros n : np_array (repeat (PyInt 0) n) = repeat (PyInt 0) n.
Proof.
  unfold np_array.
  replace (forallb is_int (repeat (PyInt 0) n)) with true; [reflexivity |].
  induction n; cbn; auto.
Qed.

(** The branch for the other bins does what the specification describes:
    where no total is positive, all three arrays are zero throughout. *)
Lemma getEfficiency_no_positive_total impl passing total :
  forallb (fun b => negb (gt_zero (snd b))) (zip passing total) = true ->
  getEfficiency impl passing total
  = Ok (repeat (PyInt 0) (length (zip passing total)),
        repeat (PyInt 0) (length (zip passing total)),
        repeat (PyInt 0) (length (zip passing total))).
Proof.
  intros H. unfold getEfficiency.
  rewrite (getEfficiency_loop_zero impl _ [] [] [] H). cbn.
  now rewrite np_array_zeros.
Qed.

Lemma existsb_zip_snd (passing total : list pynum) i t :
  length passing = length total -> total !! i = Some t -> gt_zero t = true ->
  existsb (fun b => gt_zero (snd b)) (zip passing total) = true.
Proof.
  revert total i. induction passing as [| p passing IH];
    intros [| t0 total] i Hlen Hi Ht; try discriminate.
  cbn. destruct i as [| i].
  - injection Hi as ->. now rewrite Ht.
  - rewrite (IH total i); [apply orb_true_r | now injection Hlen | exact Hi | exact Ht].
Qed.

(** C1, on the code: the name [binomtest] is bound nowhere in the module, so
    for sequences of equal length with a positive total in some bin
    [getEfficiency] raises [NameError]; it returns no estimate and no
    interval. *)
Theorem getEfficiency_positive_total_raises impl passing total i t :
  length passing = length total ->
  total !! i = Some t -> gt_zero t = true ->
  getEfficiency impl passing total = Raise (NameError "binomtest").
Proof.
  intros Hlen Hi Ht. unfold getEfficiency.
  now rewrite (getEfficiency_loop_positive impl _ [] [] []
                 (existsb_zip_snd _ _ _ _ Hlen Hi Ht)).
Qed.

Lemma getEfficiency_positive_total_raises_witness :
  getEfficiency (fun _ _ => Raise (ValueError "unused")) [PyInt 1] [PyInt 2]
  = Raise (NameError "binomtest").
Proof.
  apply (getEfficiency_positive_total_raises _ [PyInt 1] [PyInt 2] 0 (PyInt 2));
    reflexivity.
Defined.

(** C5, on the code: with passing [1, 0] and total [2, 0] the second bin has
    total 0, but the call raises [NameError] at the first bin and returns
    nothing for the second. *)
Theorem getEfficiency_zero_bin_after_positive_raises impl :
  getEfficiency impl [PyInt 1; PyInt 0] [PyInt 2; PyInt 0]
  = Raise (NameError "binomtest")
  /\ eq_zero (PyInt 0) = true.
Proof.
  split; [| reflexivity].
  unfold getEfficiency. cbn [zip zip_with getEfficiency_loop gt_zero Z.ltb Z.compare].
  now rewrite load_binomtest_raises.
Qed.

(** ** The command line *)

Lemma default_labels_length files : length (default_labels files) = length files.
Proof. unfold default_labels. now rewrite length_map, length_seq. Qed.

(** C9: when the numbers of parsed files and labels differ, [main] raises
    the [AssertionError] and calls nothing; when [--labels] is omitted the
    labels are [File_0], [File_1], ..., one per file, and [main] goes on to
    the two validations. *)
Theorem main_files_labels_assertion track hgcal args w :
  (length (parse_files args) <> length (parse_labels args) ->
   main track hgcal args w = (Raise (AssertionError assert_message), w))
  /\ (args_labels args = None ->
      parse_labels args
      = map (fun i => "File_" ++ str_of_nat i) (seq 0 (length (parse_files args)))
      /\ length (parse_files args) = length (parse_labels args)
      /\ main track hgcal args w
         = bind (track (parse_files args) (parse_labels args)
                   (args_tag args) (args_odir args))
             (fun _ => hgcal (parse_files args) (parse_labels args)
                         (args_tag args) (args_odir args)) w).
Proof.
  split.
  - intros Hne. unfold main.
    apply Nat.eqb_neq in Hne. now rewrite Hne.
  - intros Hnone.
    assert (E : parse_labels args = default_labels (parse_files args))
      by (unfold parse_labels; now rewrite Hnone).
    split; [exact E |]. split; [now rewrite E, default_labels_length |].
    unfold main. rewrite E, default_labels_length, Nat.eqb_refl. reflexivity.
Qed.

Lemma main_files_labels_assertion_witness :
  main (fun _ _ _ _ => ret tt) (fun _ _ _ _ => ret tt)
    (mkArgs "a.root,b.root" (Some "new") "v1" None) example_world
  = (Raise (AssertionError assert_message), example_world)
  /\ parse_labels (mkArgs "a.root,b.root" None "v1" None) = ["File_0"; "File_1"].
Proof.
  split.
  - apply (proj1 (main_files_labels_assertion _ _
                    (mkArgs "a.root,b.root" (Some "new") "v1" None) example_world)).
    vm_compute. discriminate.
  - apply (proj1 (proj2 (main_files_labels_assertion
                           (fun _ _ _ _ => ret tt) (fun _ _ _ _ => ret tt)
                           (mkArgs "a.root,b.root" None "v1" None) example_world)
                    eq_refl)).
Defined.

(** * Further properties *)

(** ** ratioHist: shapes, signs and empty bins *)

Lemma ratio_hist_variances_sign hn hd i v :
  bin_variances (ratio_hist hn hd) !! i = Some v -> nan_or_nonneg v = true.
Proof.
  rewrite ratio_hist_variances.
  unfold ratio_values, ratio_scale, np_abs, np_sqrt, np_square.
  intros H. apply lookup_zip_with_Some in H as (a & b & -> & Ha & Hb).
  rewrite lookup_map in Ha, Hb.
  apply fmap_Some in Ha as (q & _ & ->).
  apply fmap_Some in Hb as (s & Hs & ->).
  apply lookup_zip_with_Some in Hs as (x & y & -> & Hx & Hy).
  rewrite lookup_map in Hx, Hy.
  apply fmap_Some in Hx as (x' & _ & ->).
  apply fmap_Some in Hy as (y' & _ & ->).
  apply mul_sign; [apply abs_sign |].
  apply sqrt_sign, add_sign; apply square_sign.
Qed.

(** X1: on histograms with the same bins, no bin of the result of
    [ratioHist] has a negative variance: each is NaN, or zero or positive
    (an infinity included). *)
Theorem ratioHist_variance_never_negative self w num den hn hd :
  heap w !! num = Some hn -> heap w !! den = Some hd ->
  well_formed hn -> well_formed hd -> same_binning hn hd ->
  exists l hr,
    ratioHist self num den w = (Ok l, with_heap w (<[l := hr]> (heap w)))
    /\ length (bin_variances hr) = length (bin_values hn)
    /\ forall i v, bin_variances hr !! i = Some v -> nan_or_nonneg v = true.
Proof.
  intros Hn Hd Wn Wd Hb. eexists _, _. split; [| split].
  - apply (ratioHist_run self num den hn hd w Hn Hd Wn Wd Hb).
  - rewrite ratio_hist_variances, length_zip_with. unfold np_abs.
    rewrite length_map, (length_ratio_values _ _ Hb),
      (length_ratio_scale _ _ Wn Wd Hb). lia.
  - apply ratio_hist_variances_sign.
Qed.

Lemma ratioHist_variance_never_negative_witness :
  exists l hr,
    ratioHist example_plotter 2%positive 1%positive example_world
    = (Ok l, with_heap example_world (<[l := hr]> (heap example_world)))
    /\ length (bin_variances hr) = length (bin_values hist_four)
    /\ forall i v, bin_variances hr !! i = Some v -> nan_or_nonneg v = true.
Proof.
  apply (ratioHist_variance_never_negative example_plotter example_world
           2%positive 1%positive hist_four hist_empty);
    reflexivity.
Defined.

(** X2: on histograms with the same bins, a bin whose numerator value is
    zero gets a NaN variance, and a bin whose denominator value is zero gets
    a variance that is NaN or [+inf]: an empty bin on either side never has
    a finite error. *)
Theorem ratioHist_empty_bin_variance self w num den hn hd :
  heap w !! num = Some hn -> heap w !! den = Some hd ->
  well_formed hn -> well_formed hd -> same_binning hn hd ->
  exists l hr,
    ratioHist self num den w = (Ok l, with_heap w (<[l := hr]> (heap w)))
    /\ forall i n d,
        bin_values hn !! i = Some n -> bin_values hd !! i = Some d ->
        exists v,
          bin_variances hr !! i = Some v
          /\ (Float64.is_zero n = true -> v = Float64.nan)
          /\ (Float64.is_zero d = true -> nan_or_pinf v = true).
Proof.
  intros Hn Hd Wn Wd Hb. eexists _, _. split.
  - apply (ratioHist_run self num den hn hd w Hn Hd Wn Wd Hb).
  - intros i n d Hi Hj.
    destruct (lookup_lt_is_Some_2 (bin_variances hn) i) as [vn Hvn].
    { rewrite Wn. apply (lookup_lt_Some _ _ _ Hi). }
    destruct (lookup_lt_is_Some_2 (bin_variances hd) i) as [vd Hvd].
    { rewrite Wd. apply (lookup_lt_Some _ _ _ Hj). }
    exists (ratio_variance n vn d vd). split; [| split].
    + apply (ratio_hist_variance _ _ _ _ _ _ _ Hi Hvn Hj Hvd).
    + apply ratio_variance_zero_numerator.
    + apply ratio_variance_zero_denominator.
Qed.

Lemma ratioHist_empty_bin_variance_witness :
  exists l hr,
    ratioHist example_plotter 1%positive 2%positive example_world
    = (Ok l, with_heap example_world (<[l := hr]> (heap example_world)))
    /\ forall i n d,
        bin_values hist_empty !! i = Some n -> bin_values hist_four !! i = Some d ->
        exists v,
          bin_variances hr !! i = Some v
          /\ (Float64.is_zero n = true -> v = Float64.nan)
          /\ (Float64.is_zero d = true -> nan_or_pinf v = true).
Proof.
  apply (ratioHist_empty_bin_variance example_plotter example_world
           1%positive 2%positive hist_empty hist_four);
    reflexivity.
Defined.

(** X3: on histograms with the same bins, the result of [ratioHist] has the
    axis edges of the numerator and one value and one variance per bin, so
    it is again a well-formed histogram with the binning of its inputs. *)
Theorem ratioHist_keeps_binning self w num den hn hd :
  heap w !! num = Some hn -> heap w !! den = Some hd ->
  well_formed hn -> well_formed hd -> same_binning hn hd ->
  exists l hr,
    ratioHist self num den w = (Ok l, with_heap w (<[l := hr]> (heap w)))
    /\ edges hr = edges hn
    /\ well_formed hr /\ same_binning hn hr /\ same_binning hr hd.
Proof.
  intros Hn Hd Wn Wd Hb. eexists _, _. split.
  - apply (ratioHist_run self num den hn hd w Hn Hd Wn Wd Hb).
  - assert (Hvar : length (bin_variances (ratio_hist hn hd)) = length (bin_values hn)).
    { rewrite ratio_hist_variances, length_zip_with. unfold np_abs.
      rewrite length_map, (length_ratio_values _ _ Hb),
        (length_ratio_scale _ _ Wn Wd Hb). lia. }
    assert (Hval : length (bin_values (ratio_hist hn hd)) = length (bin_values hn)).
    { destruct (is_weighted hn) eqn:Hw.
      - rewrite (ratio_hist_values_weighted _ _ Hw). now apply length_ratio_values.
      - now rewrite (ratio_hist_values_plain _ _ Hw). }
    unfold well_formed, same_binning in *.
    repeat split; try reflexivity; congruence.
Qed.

Lemma ratioHist_keeps_binning_witness :
  exists l hr,
    ratioHist example_plotter 2%positive 3%positive example_world
    = (Ok l, with_heap example_world (<[l := hr]> (heap example_world)))
    /\ edges hr = edges hist_four
    /\ well_formed hr /\ same_binning hist_four hr /\ same_binning hr hist_two.
Proof.
  apply (ratioHist_keeps_binning example_plotter example_world
           2%positive 3%positive hist_four hist_two);
    reflexivity.
Defined.

Lemma broadcast2_mismatch f (a b : list spec_float) :
  length a <> length b -> length a <> 1 -> length b <> 1 ->
  broadcast2 f a b = Raise broadcast_error.
Proof.
  intros Hab Ha Hb. unfold broadcast2.
  destruct a as [| x [| x' a]], b as [| y [| y' b]]; cbn in *; try congruence.
  apply Nat.eqb_neq in Hab. cbn in Hab. now rewrite Hab.
Qed.

Lemma broadcast_to_mismatch n (src : list spec_float) :
  length src <> n -> length src <> 1 ->
  exists msg, broadcast_to n src = Raise (ValueError msg).
Proof.
  intros Hn H1. unfold broadcast_to.
  apply Nat.eqb_neq in Hn. rewrite Hn.
  destruct src as [| y [| y' src]]; cbn in *; try congruence; eauto.
Qed.

(** X4: when the two histograms have different numbers of bins and the
    denominator does not have exactly one, [ratioHist] raises a
    [ValueError]: numpy cannot broadcast the two value arrays, or cannot
    store the quotient in the copy of the numerator. *)
Theorem ratioHist_different_bins_raises self w num den hn hd :
  heap w !! num = Some hn -> heap w !! den = Some hd ->
  length (bin_values hn) <> length (bin_values hd) ->
  length (bin_values hd) <> 1 ->
  exists msg, fst (ratioHist self num den w) = Raise (ValueError msg).
Proof.
  intros Hn Hd Hne Hd1.
  set (l' := fresh (dom (heap w))).
  assert (Hnl : l' <> num) by (apply (fresh_loc_ne w num hn Hn)).
  assert (Hdl : l' <> den) by (apply (fresh_loc_ne w den hd Hd)).
  unfold ratioHist.
  rewrite (bind_ok _ _ _ _ _ (hist_copy_ok _ _ _ Hn)). fold l'.
  set (w1 := with_heap w (<[l' := hn]> (heap w))).
  assert (H1n : heap w1 !! num = Some hn) by (cbn; now rewrite lookup_insert_ne).
  assert (H1d : heap w1 !! den = Some hd) by (cbn; now rewrite lookup_insert_ne).
  assert (H1l : heap w1 !! l' = Some hn) by (cbn; now rewrite lookup_insert_eq).
  rewrite (bind_ok _ _ _ _ _ (values_ok _ _ _ H1n)).
  rewrite (bind_ok _ _ _ _ _ (variances_ok _ _ _ H1n)).
  rewrite (bind_ok _ _ _ _ _ (values_ok _ _ _ H1d)).
  rewrite (bind_ok _ _ _ _ _ (variances_ok _ _ _ H1d)).
  unfold _div at 1.
  rewrite bind_assoc, (bind_ok _ _ _ _ _ (read_ok _ _ _ _ H1n)).
  rewrite bind_assoc, (bind_ok _ _ _ _ _ (read_ok _ _ _ _ H1d)).
  cbn [get_field]. unfold np_true_divide.
  destruct (Nat.eq_dec (length (bin_values hn)) 1) as [Hn1 | Hn1].
  - (* a single numerator bin: the quotient does not fit the copy *)
    destruct (bin_values hn) as [| x [| x' vn]] eqn:En; try discriminate.
    cbn [broadcast2]. rewrite (bind_ok _ _ _ _ _ (lift_ok _ _)).
    rewrite (bind_ok _ _ _ _ _ (values_ok _ _ _ H1l)).
    unfold assign_all. cbn [view_obj view_field].
    rewrite bind_assoc, (bind_ok _ _ _ _ _ (deref_ok _ _ _ H1l)).
    cbn [get_field]. rewrite En. cbn [length].
    destruct (broadcast_to_mismatch 1 (map (Float64.div x) (bin_values hd)))
      as [msg Hmsg]; [rewrite length_map; cbn in Hne; lia
                     | rewrite length_map; exact Hd1 |].
    exists msg. unfold bind, lift. now rewrite Hmsg.
  - exists "operands could not be broadcast together".
    rewrite (broadcast2_mismatch _ _ _ Hne Hn1 Hd1). reflexivity.
Qed.

Lemma ratioHist_different_bins_raises_witness :
  exists msg,
    fst (ratioHist example_plotter 1%positive 2%positive example_world2)
    = Raise (ValueError msg).
Proof.
  apply (ratioHist_different_bins_raises example_plotter example_world2
           1%positive 2%positive hist_two_bins hist_three_bins);
    [reflexivity | reflexivity | cbn; lia | cbn; lia].
Defined.

(** ** Frames of the plotting code *)

Lemma keeps_refl w : keeps w w.
Proof. repeat split; auto. exists []. now rewrite app_nil_r. Qed.

Lemma keeps_trans w1 w2 w3 : keeps w1 w2 -> keeps w2 w3 -> keeps w1 w3.
Proof.
  intros (Ha & Hc & Hd & e1 & He1) (Hb & Hc' & Hd' & e2 & He2).
  repeat split; try congruence; auto.
  exists (e1 ++ e2)%list. now rewrite He2, He1, app_assoc.
Qed.

Lemma grows_refl w : grows w w.
Proof. repeat split; auto. exists []. now rewrite app_nil_r. Qed.

Lemma grows_trans w1 w2 w3 : grows w1 w2 -> grows w2 w3 -> grows w1 w3.
Proof.
  intros (Ha & Hc & Hd & e1 & He1) (Hb & Hc' & Hd' & e2 & He2).
  repeat split; try congruence; auto; [set_solver |].
  exists (e1 ++ e2)%list. now rewrite He2, He1, app_assoc.
Qed.

Lemma keeps_grows w w' : keeps w w' -> grows w w'.
Proof. intros (? & ? & Hd & ?). repeat split; auto. now rewrite Hd. Qed.

Lemma respects_bind R {A B} (m : M A) (k : A -> M B) :
  (forall x y z, R x y -> R y z -> R x z) ->
  respects R m -> (forall a, respects R (k a)) -> respects R (bind m k).
Proof.
  intros Htrans Hm Hk w. specialize (Hm w). unfold bind.
  destruct (m w) as [[a | e] w1]; cbn in *; [| exact Hm].
  apply (Htrans _ w1); [exact Hm | apply Hk].
Qed.

Lemma respects_keeps_grows {A} (m : M A) : respects keeps m -> respects grows m.
Proof. intros H w. apply keeps_grows, H. Qed.

Lemma keeps_ret {A} (a : A) : respects keeps (ret a).
Proof. intros w. apply keeps_refl. Qed.

Lemma keeps_lift {A} (r : result A) : respects keeps (lift r).
Proof. intros w. apply keeps_refl. Qed.

Lemma keeps_raise {A} e : respects keeps (raise (A := A) e).
Proof. intros w. apply keeps_refl. Qed.

Lemma keeps_deref l : respects keeps (deref l).
Proof. intros w. unfold deref. destruct (heap w !! l); apply keeps_refl. Qed.

Lemma keeps_emit e : respects keeps (emit e).
Proof. intros w. repeat split; auto. now exists [e]. Qed.

Lemma keeps_savefig path : respects keeps (savefig path).
Proof.
  unfold savefig. apply respects_bind; [exact keeps_trans | apply keeps_emit |].
  intros _ w. destruct (save_error w path); apply keeps_refl.
Qed.

Lemma keeps_ratioHist self num den : respects keeps (ratioHist self num den).
Proof.
  intros w.
  destruct (ratioHist_writes_only_copy self num den w) as [(Hs & Hc & Hd & Ht) _].
  repeat split; auto.
  - intros l h Hl. rewrite Hs; [exact Hl |].
    intros ->. now rewrite fresh_loc_unused in Hl.
  - exists []. now rewrite app_nil_r.
Qed.

Ltac keeps_bind := apply respects_bind; [exact keeps_trans | | intros ?].

Lemma keeps_all_empty v_h : respects keeps (all_empty v_h).
Proof.
  induction v_h as [| h v_h IH]; [apply keeps_ret |].
  cbn [all_empty]. keeps_bind.
  { unfold values. keeps_bind; [apply keeps_deref | apply keeps_ret]. }
  keeps_bind.
  { unfold read. keeps_bind; [apply keeps_deref | apply keeps_ret]. }
  destruct (sums_to_zero _); [exact IH | apply keeps_ret].
Qed.

Lemma keeps_plot_main hl : forall idx, respects keeps (plot_main idx hl).
Proof.
  induction hl as [| [h label] hl IH]; intros idx; [apply keeps_ret |].
  cbn [plot_main]. keeps_bind; [apply keeps_deref |].
  keeps_bind; [apply keeps_emit | apply IH].
Qed.

Lemma keeps_plot_ratios self ref v_label ax2 hs :
  forall idx hratio,
    respects keeps (plot_ratios self ref v_label ax2 idx hs hratio).
Proof.
  induction hs as [| h hs IH]; intros idx hratio; [apply keeps_ret |].
  cbn [plot_ratios]. keeps_bind; [apply keeps_ratioHist |].
  keeps_bind; [apply keeps_lift |]. keeps_bind; [apply keeps_lift |].
  keeps_bind; [apply keeps_deref |].
  keeps_bind; [apply keeps_emit | apply IH].
Qed.

Lemma keeps_on_ax2 ax2 k :
  (forall ax, respects keeps (k ax)) -> respects keeps (on_ax2 ax2 k).
Proof. intros H. destruct ax2; [apply H | apply keeps_raise]. Qed.

Lemma keeps_plotHistos self v_h savename v_label opts :
  respects keeps (plotHistos self v_h savename v_label opts).
Proof.
  unfold plotHistos. keeps_bind; [apply keeps_all_empty |].
  destruct a; [apply keeps_emit |].
  keeps_bind; [apply keeps_emit |].
  keeps_bind.
  { destruct (Nat.ltb 1 (length v_h)).
    - keeps_bind; [apply keeps_emit |]. keeps_bind; [apply keeps_emit | apply keeps_ret].
    - keeps_bind; [apply keeps_emit | apply keeps_ret]. }
  keeps_bind; [apply keeps_plot_main |].
  keeps_bind; [apply keeps_lift |].
  keeps_bind; [apply keeps_plot_ratios |].
  keeps_bind; [apply keeps_emit |].
  keeps_bind; [apply keeps_emit |].
  keeps_bind.
  { destruct (Nat.ltb 1 (length v_h)); [| apply keeps_ret].
    keeps_bind; [apply keeps_on_ax2; intros; apply keeps_emit |].
    keeps_bind; [apply keeps_on_ax2; intros; apply keeps_emit |].
    keeps_bind; [apply keeps_on_ax2; intros; apply keeps_emit |].
    keeps_bind; [destruct a3; [apply keeps_deref | apply keeps_raise] |].
    keeps_bind; [apply keeps_lift |]. keeps_bind; [apply keeps_lift |].
    keeps_bind; [apply keeps_on_ax2; intros; apply keeps_emit |].
    destruct (modify_ticks opts);
      [apply keeps_on_ax2; intros; apply keeps_emit | apply keeps_ret]. }
  keeps_bind; [apply keeps_emit |]. keeps_bind; [apply keeps_emit |].
  keeps_bind; [apply keeps_emit |]. keeps_bind; [apply keeps_emit |].
  cbn [fold_right].
  keeps_bind; [apply keeps_savefig |].
  keeps_bind; [apply keeps_savefig | apply keeps_ret].
Qed.

(** X5: whatever its arguments, and whether it returns or raises,
    [plotHistos] leaves every histogram that existed before the call as it
    was, creates no directory, and only adds events at the end of the
    trace. *)
Theorem plotHistos_keeps_histograms self v_h savename v_label opts w :
  (forall l h,
      heap w !! l = Some h ->
      heap (snd (plotHistos self v_h savename v_label opts w)) !! l = Some h)
  /\ dirs (snd (plotHistos self v_h savename v_label opts w)) = dirs w
  /\ exists evs,
      trace (snd (plotHistos self v_h savename v_label opts w))
      = (trace w ++ evs)%list.
Proof.
  destruct (keeps_plotHistos self v_h savename v_label opts w) as (H & _ & Hd & Ht).
  auto.
Qed.

Lemma plotHistos_keeps_histograms_witness :
  (forall l h,
      heap example_world !! l = Some h ->
      heap (snd (plotHistos example_plotter [2%positive; 3%positive] "effic"
                   ["A"] default_opts example_world)) !! l = Some h)
  /\ dirs (snd (plotHistos example_plotter [2%positive; 3%positive] "effic"
                  ["A"] default_opts example_world)) = dirs example_world
  /\ exists evs,
      trace (snd (plotHistos example_plotter [2%positive; 3%positive] "effic"
                    ["A"] default_opts example_world))
      = (trace example_world ++ evs)%list.
Proof.
  apply (plotHistos_keeps_histograms example_plotter [2%positive; 3%positive]
           "effic" ["A"] default_opts example_world).
Defined.

(** ** plotHistos: files, curves and labels *)




(** X6: a call that is not skipped, when the place of its figure can be
    written, saves the figure twice under one and the same name, the
    directory string followed by [savename] and [.png]: no other file is
    written, and none with another extension. When the place cannot be
    written (the directory that is to hold the file does not exist, or a
    directory has the file's name), [plt.savefig] is called once with that
    name, after drawing, and the call raises its error. *)
Theorem plotHistos_saves_same_png_twice self v_h hists savename v_label opts w :
  plot_call w v_h hists v_label -> not_all_empty hists ->
  (writable w (png_path self savename) = true ->
   exists w',
     plotHistos self v_h savename v_label opts w = (Ok tt, w')
     /\ saved_files (new_events w w')
        = [savedir self ++ savename ++ ".png"; savedir self ++ savename ++ ".png"])
  /\ (forall e,
        save_error w (png_path self savename) = Some e ->
        exists w',
          plotHistos self v_h savename v_label opts w = (Raise e, w')
          /\ saved_files (new_events w w') = [savedir self ++ savename ++ ".png"]
          /\ (exists errno, e = OSError errno (png_path self savename))).
Proof.
  intros Hcall Hne.
  destruct (plotHistos_outcome self v_h hists savename v_label opts w Hcall Hne)
    as (w' & Hrun & _ & _ & _ & Htrace).
  destruct Hcall as [Hobj _ _ _ Hlab].
  pose proof (Forall2_length _ _ _ Hobj) as Hlen.
  assert (Hdraw : saved_files (draw_events hists v_label opts) = []).
  { destruct hists as [| h0 hrest]; [reflexivity |].
    destruct v_label as [| l0 lrest]; [reflexivity |].
    assert (Hl : length lrest = length hrest) by (cbn in *; lia).
    unfold draw_events. cbv zeta.
    rewrite !saved_files_app.
    rewrite (proj1 (proj2 (proj2 (main_events_quiet _ _)))).
    rewrite (proj2 (proj2 (ratio_events_curves _ _ _ _ _ _ Hl))).
    destruct (Nat.ltb 1 (length (h0 :: hrest))), (modify_ticks opts); reflexivity. }
  split.
  - intros Hw. rewrite Hw in Htrace. unfold writable in Hw.
    destruct (save_error w (png_path self savename)); [discriminate |].
    exists w'. split; [exact Hrun |].
    rewrite (new_events_trace _ _ _ Htrace).
    unfold plot_events. now rewrite saved_files_app, Hdraw.
  - intros e He. unfold writable in Htrace. rewrite He in Hrun, Htrace.
    exists w'. split; [exact Hrun |].
    rewrite (new_events_trace _ _ _ Htrace).
    split; [now rewrite saved_files_app, Hdraw |].
    unfold save_error in He.
    destruct (fs_walk _ _ _ _); [| injection He as <-; eauto].
    destruct (_ || _); [injection He as <-; eauto | discriminate].
Qed.

Lemma plotHistos_saves_same_png_twice_witness :
  (exists w',
      plotHistos example_plotter [2%positive; 3%positive; 2%positive] "effic"
        ["A"; "B"; "C"] default_opts example_world = (Ok tt, w')
      /\ saved_files (new_events example_world w')
         = ["/plots/effic.png"; "/plots/effic.png"])
  /\ (exists w',
        plotHistos example_plotter [2%positive; 3%positive; 2%positive]
          "nodir/effic" ["A"; "B"; "C"] default_opts example_world
        = (Raise (OSError ENOENT "/plots/nodir/effic.png"), w')
        /\ saved_files (new_events example_world w') = ["/plots/nodir/effic.png"]
        /\ (exists errno,
              OSError ENOENT "/plots/nodir/effic.png"
              = OSError errno (png_path example_plotter "nodir/effic"))).
Proof.
  split.
  - apply (proj1 (plotHistos_saves_same_png_twice example_plotter
                    [2%positive; 3%positive; 2%positive]
                    [hist_four; hist_two; hist_four] "effic" ["A"; "B"; "C"]
                    default_opts example_world plot_call_example eq_refl)).
    reflexivity.
  - apply (proj2 (plotHistos_saves_same_png_twice example_plotter
                    [2%positive; 3%positive; 2%positive]
                    [hist_four; hist_two; hist_four] "nodir/effic" ["A"; "B"; "C"]
                    default_opts example_world plot_call_example eq_refl)).
    reflexivity.
Defined.






(** ** The emptiness test *)

Lemma add_not_finite_l x y :
  not_finite x = true -> not_finite (Float64.add x y) = true.
Proof. destruct x as [| [] | |]; try discriminate; now destruct y as [| [] | |]. Qed.

Lemma add_not_finite_r x y :
  not_finite y = true -> not_finite (Float64.add x y) = true.
Proof. destruct y as [| [] | |]; try discriminate; now destruct x as [| [] | |]. Qed.

Lemma fold_add_not_finite (a : list spec_float) acc :
  not_finite acc = true \/ Exists (fun x => not_finite x = true) a ->
  not_finite (fold_left Float64.add a acc) = true.
Proof.
  revert acc. induction a as [| x a IH]; intros acc [H | H]; cbn.
  - exact H.
  - inversion H.
  - apply IH. left. now apply add_not_finite_l.
  - apply IH. inversion H; subst; [left; now apply add_not_finite_r | now right].
Qed.

(** X9: a histogram with a NaN or an infinite bin value never counts as
    empty, so a call that has one among its histograms is not skipped. *)
Theorem all_empty_false_on_non_finite v_h hists w :
  Forall2 (fun l h => heap w !! l = Some h) v_h hists ->
  Exists (fun h => Exists (fun x => not_finite x = true) (bin_values h)) hists ->
  not_all_empty hists /\ all_empty v_h w = (Ok false, w).
Proof.
  intros Hobj Hex.
  assert (Hne : not_all_empty hists).
  { unfold not_all_empty. clear Hobj.
    induction Hex as [h hists Hh | h hists _ IH]; cbn.
    - unfold sums_to_zero, py_sum.
      now rewrite (not_finite_not_zero _ (fold_add_not_finite _ _ (or_intror Hh))).
    - rewrite IH. apply andb_false_r. }
  split; [exact Hne |].
  now rewrite (all_empty_ok _ _ _ Hobj), Hne.
Qed.

Lemma all_empty_false_on_non_finite_witness :
  not_all_empty [hist_empty; weighted [Float64.zero; Float64.one] [Float64.nan] [Float64.zero]]
  /\ all_empty [1%positive; 9%positive]
       (with_heap example_world
          (<[9%positive := weighted [Float64.zero; Float64.one] [Float64.nan] [Float64.zero]]>
             example_heap))
     = (Ok false,
        with_heap example_world
          (<[9%positive := weighted [Float64.zero; Float64.one] [Float64.nan] [Float64.zero]]>
             example_heap)).
Proof.
  apply all_empty_false_on_non_finite.
  - repeat constructor.
  - right. left. left. reflexivity.
Defined.

(** ** makedir *)



(** ** getEfficiency without a positive total *)

Lemma forallb_zip_snd (passing total : list pynum) :
  Forall (fun t => gt_zero t = false) total ->
  forallb (fun b => negb (gt_zero (snd b))) (zip passing total) = true.
Proof.
  intros H. revert passing. induction H as [| t total Ht _ IH]; intros [| p passing];
    try reflexivity.
  cbn. now rewrite Ht, IH.
Qed.

(** X11: when no total is positive (zero, negative or NaN), [getEfficiency]
    returns without evaluating [binomtest]: three arrays of integer zeros,
    as long as the shorter of the two inputs, whatever the passing counts
    are. *)
Theorem getEfficiency_zeros_without_positive_total impl passing total :
  Forall (fun t => gt_zero t = false) total ->
  getEfficiency impl passing total
  = Ok (repeat (PyInt 0) (min (length passing) (length total)),
        repeat (PyInt 0) (min (length passing) (length total)),
        repeat (PyInt 0) (min (length passing) (length total))).
Proof.
  intros H.
  rewrite (getEfficiency_no_positive_total impl passing total
             (forallb_zip_snd passing total H)).
  now rewrite length_zip_with.
Qed.

Lemma getEfficiency_zeros_without_positive_total_witness :
  getEfficiency (fun _ _ => Raise (ValueError "unused"))
    [PyInt 3; PyInt 1; PyInt 7] [PyInt 0; PyFloat Float64.nan]
  = Ok ([PyInt 0; PyInt 0], [PyInt 0; PyInt 0], [PyInt 0; PyInt 0]).
Proof.
  apply (getEfficiency_zeros_without_positive_total _
           [PyInt 3; PyInt 1; PyInt 7] [PyInt 0; PyFloat Float64.nan]).
  repeat constructor.
Defined.

(** ** Parsing the comma-separated arguments *)

Lemma ascii_eqb_comma c : Ascii.eqb c comma = true -> c = comma.
Proof. apply Ascii.eqb_eq. Qed.

Lemma split_comma_cons s : exists piece pieces, split_comma s = piece :: pieces.
Proof.
  destruct s as [| c rest]; cbn; [eauto |].
  destruct (Ascii.eqb c comma); [eauto |].
  destruct (split_comma rest); eauto.
Qed.

Lemma split_comma_no_comma s : has_comma s = false -> split_comma s = [s].
Proof.
  induction s as [| c rest IH]; [reflexivity |].
  cbn. destruct (Ascii.eqb c comma); [discriminate |].
  cbn. intros H. now rewrite (IH H).
Qed.

Lemma split_list_split_comma s : split_list s = split_comma s.
Proof.
  unfold split_list. destruct (has_comma s) eqn:E; [reflexivity |].
  now rewrite split_comma_no_comma.
Qed.

Lemma concat_cons2 sep x y (l : list string) :
  String.concat sep (x :: y :: l) = x ++ sep ++ String.concat sep (y :: l).
Proof. reflexivity. Qed.

Lemma join_split_comma s : join_commas (split_comma s) = s.
Proof.
  unfold join_commas. induction s as [| c rest IH]; [reflexivity |].
  cbn [split_comma]. destruct (Ascii.eqb c comma) eqn:E.
  - apply ascii_eqb_comma in E as ->.
    destruct (split_comma_cons rest) as (p & ps & Hp). rewrite Hp in *.
    rewrite concat_cons2, IH. reflexivity.
  - destruct (split_comma_cons rest) as (p & ps & Hp). rewrite Hp in *.
    destruct ps as [| p' ps].
    + cbn in *. now rewrite IH.
    + rewrite concat_cons2. rewrite concat_cons2 in IH. now rewrite <- IH.
Qed.

Lemma length_split_comma s : length (split_comma s) = S (count_commas s).
Proof.
  induction s as [| c rest IH]; [reflexivity |].
  cbn [split_comma count_commas]. destruct (Ascii.eqb c comma).
  - cbn. now rewrite IH.
  - destruct (split_comma_cons rest) as (p & ps & Hp). rewrite Hp in *.
    cbn in *. lia.
Qed.

Lemma split_comma_pieces s : Forall (fun p => has_comma p = false) (split_comma s).
Proof.
  induction s as [| c rest IH]; [repeat constructor |].
  cbn [split_comma]. destruct (Ascii.eqb c comma) eqn:E.
  - constructor; [reflexivity | exact IH].
  - destruct (split_comma_cons rest) as (p & ps & Hp). rewrite Hp in *.
    inversion IH; subst. constructor; [| assumption].
    cbn. now rewrite E.
Qed.

(** X12: the list parsed from [--files] (and from [--labels]) has one more
    entry than the argument has commas, so it is never empty; no entry
    contains a comma; and joining the entries with commas gives the argument
    back. *)
Theorem split_list_round_trip s :
  join_commas (split_list s) = s
  /\ length (split_list s) = S (count_commas s)
  /\ Forall (fun p => has_comma p = false) (split_list s).
Proof.
  rewrite split_list_split_comma.
  auto using join_split_comma, length_split_comma, split_comma_pieces.
Qed.

(** X13: with a non-empty [--labels], the assertion of the entry point
    passes exactly when [--files] and [--labels] hold the same number of
    commas: then the two validations are called with the parsed lists, else
    [AssertionError] is raised and nothing is called. *)
Theorem main_assertion_counts_commas track hgcal args w c l :
  args_labels args = Some (String c l) ->
  (count_commas (args_files args) = count_commas (String c l) ->
   main track hgcal args w
   = bind (track (split_comma (args_files args)) (split_comma (String c l))
             (args_tag args) (args_odir args))
       (fun _ => hgcal (split_comma (args_files args)) (split_comma (String c l))
                   (args_tag args) (args_odir args)) w)
  /\ (count_commas (args_files args) <> count_commas (String c l) ->
      main track hgcal args w = (Raise (AssertionError assert_message), w)).
Proof.
  intros Hl.
  assert (Ef : parse_files args = split_comma (args_files args))
    by apply split_list_split_comma.
  assert (El : parse_labels args = split_comma (String c l)).
  { unfold parse_labels. rewrite Hl. cbn [truthy default].
    apply split_list_split_comma. }
  unfold main. rewrite Ef, El, !length_split_comma. split; intros H.
  - rewrite H, Nat.eqb_refl. reflexivity.
  - replace (Nat.eqb _ _) with false; [reflexivity |].
    symmetry. apply Nat.eqb_neq. lia.
Qed.

Lemma main_assertion_counts_commas_witness :
  main (fun _ _ _ _ => ret tt) (fun _ _ _ _ => ret tt)
    (mkArgs "a.root,b.root" (Some "old,new") "v1" None) example_world
  = (Ok tt, example_world)
  /\ main (fun _ _ _ _ => ret tt) (fun _ _ _ _ => ret tt)
       (mkArgs "a.root,b.root" (Some "old,new,newer") "v1" None) example_world
     = (Raise (AssertionError assert_message), example_world).
Proof.
  split.
  - apply (proj1 (main_assertion_counts_commas (fun _ _ _ _ => ret tt)
                    (fun _ _ _ _ => ret tt)
                    (mkArgs "a.root,b.root" (Some "old,new") "v1" None)
                    example_world "o" "ld,new" eq_refl)).
    reflexivity.
  - apply (proj2 (main_assertion_counts_commas (fun _ _ _ _ => ret tt)
                    (fun _ _ _ _ => ret tt)
                    (mkArgs "a.root,b.root" (Some "old,new,newer") "v1" None)
                    example_world "o" "ld,new,newer" eq_refl)).
    cbn. lia.
Defined.

(** X14: the default labels are pairwise distinct and as many as the files,
    so used as dictionary keys they keep every file apart. *)
Theorem default_labels_distinct files :
  NoDup (default_labels files)
  /\ length (default_labels files) = length files.
Proof.
  split; [| apply default_labels_length].
  unfold default_labels.
  change (NoDup ((fun i => "File_" ++ str_of_nat i) <$> seq 0 (length files))).
  apply NoDup_fmap_2; [| apply NoDup_seq].
  intros i j H. cbn [String.append] in H. injection H as H.
  cbn [String.append] in H. unfold str_of_nat in H. exact (inj pretty i j H).
Qed.

(** ** The release validations: what they leave in place *)

Lemma io_bind_done {A B} (m : IO A) (k : A -> IO B) w a w1 :
  m w = (Done a, w1) -> io_bind m k w = k a w1.
Proof. intros H. unfold io_bind. now rewrite H. Qed.

Lemma io_bind_fail {A B} (m : IO A) (k : A -> IO B) w e w1 :
  m w = (Fail e, w1) -> io_bind m k w = (Fail e, w1).
Proof. intros H. unfold io_bind. now rewrite H. Qed.

Lemma io_bind_inv_done {A B} (m : IO A) (k : A -> IO B) w b w' :
  io_bind m k w = (Done b, w') ->
  exists a w1, m w = (Done a, w1) /\ k a w1 = (Done b, w').
Proof.
  unfold io_bind. destruct (m w) as [[a | e] w1]; [eauto | discriminate].
Qed.

Lemma io_respects_bind R {A B} (m : IO A) (k : A -> IO B) :
  (forall x y z, R x y -> R y z -> R x z) ->
  io_respects R m -> (forall a, io_respects R (k a)) -> io_respects R (io_bind m k).
Proof.
  intros Htrans Hm Hk w. specialize (Hm w). unfold io_bind.
  destruct (m w) as [[a | e] w1]; cbn in *; [| exact Hm].
  apply (Htrans _ w1); [exact Hm | apply Hk].
Qed.

Lemma io_respects_run R {A} (m : M A) : respects R m -> io_respects R (run m).
Proof.
  intros H w. specialize (H w). unfold run. now destruct (m w) as [[a | e] w1].
Qed.

Lemma io_respects_lift R {A} (r : io_result A) :
  (forall w, R w w) -> io_respects R (io_lift r).
Proof. intros Hrefl w. apply Hrefl. Qed.

Lemma io_respects_ret R {A} (a : A) : (forall w, R w w) -> io_respects R (io_ret a).
Proof. intros Hrefl w. apply Hrefl. Qed.

Lemma io_respects_fold R {A S} (body : S -> A -> IO S) (l : list A) :
  (forall w, R w w) -> (forall x y z, R x y -> R y z -> R x z) ->
  (forall s x, io_respects R (body s x)) ->
  forall s, io_respects R (io_fold body l s).
Proof.
  intros Hrefl Htrans Hbody. induction l as [| x l IH]; intros s.
  - now apply io_respects_ret.
  - cbn [io_fold]. apply io_respects_bind; auto.
Qed.

Lemma grows_to_hist h : respects grows (to_hist h).
Proof.
  intros w. unfold to_hist. cbn. repeat split; auto.
  - intros l h' Hl. cbn. rewrite lookup_insert_ne; [exact Hl |].
    apply (fresh_loc_ne w l h' Hl).
  - exists []. now rewrite app_nil_r.
Qed.

Lemma grows_makedir path : respects grows (makedir path).
Proof.
  intros w. destruct (makedir_frame path w) as (Hh & Hc & Ht & Hsub).
  repeat split; auto.
  - intros l h. now rewrite Hh.
  - exists []. now rewrite app_nil_r.
Qed.

Lemma grows_ValidPlotter_init tag odir : respects grows (ValidPlotter_init tag odir).
Proof.
  intros w. destruct (ValidPlotter_init_frame tag odir w) as (Hh & Hc & Ht & Hsub).
  repeat split; auto.
  - intros l h. now rewrite Hh.
  - exists []. now rewrite app_nil_r.
Qed.

Ltac grows_bind :=
  apply io_respects_bind; [exact grows_trans | | intros ?].

Lemma grows_load_level0 dqm_files keys names :
  io_respects grows (load_level0 dqm_files keys names).
Proof.
  unfold load_level0.
  apply io_respects_fold; [exact grows_refl | exact grows_trans |]. intros s label.
  apply io_respects_fold; [exact grows_refl | exact grows_trans |]. intros s' name.
  grows_bind; [apply io_respects_lift, grows_refl |].
  grows_bind; [apply io_respects_lift, grows_refl |].
  grows_bind; [apply io_respects_run, grows_to_hist |].
  apply io_respects_ret, grows_refl.
Qed.

Lemma grows_load_nested dqm_files keys collections names_nested :
  io_respects grows (load_nested dqm_files keys collections names_nested).
Proof.
  unfold load_nested.
  apply io_respects_fold; [exact grows_refl | exact grows_trans |]. intros s label.
  apply io_respects_fold; [exact grows_refl | exact grows_trans |]. intros s' coll.
  apply io_respects_fold; [exact grows_refl | exact grows_trans |]. intros s'' name.
  grows_bind; [apply io_respects_lift, grows_refl |].
  grows_bind; [apply io_respects_lift, grows_refl |].
  grows_bind; [apply io_respects_lift, grows_refl |].
  grows_bind; [apply io_respects_run, grows_to_hist |].
  apply io_respects_ret, grows_refl.
Qed.

Lemma grows_plotHistos self v_h savename v_label opts :
  io_respects grows (run (plotHistos self v_h savename v_label opts)).
Proof. apply io_respects_run, respects_keeps_grows, keeps_plotHistos. Qed.

Lemma grows_releaseValidation root_files dqm_dir collections names_level0
    names_nested files labels tag odir :
  io_respects grows
    (releaseValidation root_files dqm_dir collections names_level0 names_nested
       files labels tag odir).
Proof.
  unfold releaseValidation.
  grows_bind; [apply io_respects_lift, grows_refl |].
  destruct (negb _); [apply io_respects_lift, grows_refl |].
  grows_bind; [apply grows_load_level0 |].
  grows_bind; [apply io_respects_run, grows_ValidPlotter_init |].
  grows_bind.
  { apply io_respects_fold; [exact grows_refl | exact grows_trans |]. intros _ name.
    grows_bind; [apply io_respects_lift, grows_refl | apply grows_plotHistos]. }
  grows_bind; [apply grows_load_nested |].
  apply io_respects_fold; [exact grows_refl | exact grows_trans |]. intros _ coll.
  grows_bind; [apply io_respects_run, grows_makedir |].
  apply io_respects_fold; [exact grows_refl | exact grows_trans |]. intros _ entry.
  grows_bind; [apply io_respects_lift, grows_refl | apply grows_plotHistos].
Qed.

(** X15: whatever the input files and arguments, and whether they finish or
    fail, [trackReleaseValidation] and [hgcalReleaseValidation] leave every
    histogram object that existed before unchanged, remove no directory and
    only add to the end of the sequence of outside calls. *)
Theorem releaseValidations_only_add root_files files labels tag odir w :
  grows w (snd (trackReleaseValidation root_files files labels tag odir w))
  /\ grows w (snd (hgcalReleaseValidation root_files files labels tag odir w)).
Proof. split; apply grows_releaseValidation. Qed.

(** ** The dictionaries of files by label *)

Lemma dict_keys_dict_set {V V'} (a : list (string * V)) (b : list (string * V'))
    k v v' :
  dict_keys a = dict_keys b ->
  dict_keys (dict_set a k v) = dict_keys (dict_set b k v').
Proof.
  unfold dict_keys. revert b.
  induction a as [| [ka va] a IH]; intros [| [kb vb] b] H;
    try discriminate; [reflexivity |].
  cbn in H. injection H as -> H. cbn [dict_set].
  destruct (String.eqb kb k); cbn; f_equal; auto.
Qed.

Lemma dict_set_keys_elem {V} (d : list (string * V)) k v k' :
  k' ∈ dict_keys (dict_set d k v) <-> k' = k \/ k' ∈ dict_keys d.
Proof.
  unfold dict_keys. induction d as [| [kd vd] d IH]; cbn [dict_set map fst].
  - rewrite list_elem_of_singleton, elem_of_nil. tauto.
  - destruct (String.eqb kd k) eqn:E; cbn [map fst].
    + apply String.eqb_eq in E as ->. rewrite elem_of_cons. tauto.
    + rewrite !elem_of_cons, IH. tauto.
Qed.

Lemma dict_set_NoDup {V} (d : list (string * V)) k v :
  NoDup (dict_keys d) -> NoDup (dict_keys (dict_set d k v)).
Proof.
  induction d as [| [kd vd] d IH]; intros H; cbn [dict_set].
  - cbn. apply NoDup_singleton.
  - change (NoDup (kd :: dict_keys d)) in H.
    apply NoDup_cons in H as [Hnin Hnd].
    destruct (String.eqb kd k) eqn:E.
    + change (NoDup (kd :: dict_keys d)). now apply NoDup_cons.
    + change (NoDup (kd :: dict_keys (dict_set d k v))).
      apply NoDup_cons. split; [| now apply IH].
      rewrite dict_set_keys_elem.
      intros [-> | Hin]; [now rewrite String.eqb_refl in E | contradiction].
Qed.

Lemma dict_get_dict_set {V} (d : list (string * V)) k v k' :
  dict_get (dict_set d k v) k' = if String.eqb k k' then Some v else dict_get d k'.
Proof.
  induction d as [| [kd vd] d IH]; cbn [dict_set dict_get].
  - reflexivity.
  - destruct (String.eqb kd k) eqn:E; cbn [dict_get].
    + apply String.eqb_eq in E. subst kd. now destruct (String.eqb k k').
    + rewrite IH. destruct (String.eqb kd k') eqn:E'; [| reflexivity].
      apply String.eqb_eq in E'. subst k'. now rewrite String.eqb_sym, E.
Qed.

Lemma dict_get_is_Some {V} (d : list (string * V)) k :
  is_Some (dict_get d k) <-> k ∈ dict_keys d.
Proof.
  unfold dict_keys. induction d as [| [kd vd] d IH]; cbn [dict_get map fst].
  - split; [intros [? [=]] | intros H; inversion H].
  - rewrite elem_of_cons. destruct (String.eqb kd k) eqn:E.
    + apply String.eqb_eq in E as ->. split; [auto | eauto].
    + rewrite IH. apply String.eqb_neq in E.
      split; [tauto | intros [-> | H]; tauto].
Qed.

Lemma last_file_for_cons label file l pairs :
  last_file_for label ((file, l) :: pairs)
  = match last_file_for label pairs with
    | Some f => Some f
    | None => if String.eqb l label then Some file else None
    end.
Proof.
  unfold last_file_for. cbn [List.filter snd].
  destruct (String.eqb l label).
  - destruct (List.filter _ pairs) as [| p ps] eqn:E; [reflexivity |].
    rewrite last_cons_cons.
    destruct (last (p :: ps)) eqn:El; [reflexivity |].
    apply last_None in El. discriminate.
  - now destruct (last _).
Qed.

Lemma open_files_invariant root_files dqm_dir pairs :
  forall p f p' f',
    open_files root_files dqm_dir pairs p f = Done (p', f') ->
    dict_keys p = dict_keys f -> NoDup (dict_keys p) ->
    dict_keys p' = dict_keys f'
    /\ NoDup (dict_keys p')
    /\ (forall k, k ∈ dict_keys p' <-> k ∈ dict_keys p \/ k ∈ pairs.*2)
    /\ (forall k, dict_get p' k
                  = match last_file_for k pairs with
                    | Some file => Some file
                    | None => dict_get p k
                    end)
    /\ (forall k file,
          last_file_for k pairs = Some file ->
          Done <$> dict_get f' k = Some (open_dir root_files file dqm_dir)).
Proof.
  induction pairs as [| [file label] pairs IH]; intros p f p' f' Hrun Hk Hnd.
  - cbn in Hrun. injection Hrun as <- <-.
    split; [exact Hk |]. split; [exact Hnd |].
    split; [intros k; cbn; rewrite elem_of_nil; tauto |].
    split; [reflexivity | discriminate].
  - cbn [open_files] in Hrun.
    destruct (open_dir root_files file dqm_dir) as [d | e] eqn:Hopen; [| discriminate].
    destruct (IH _ _ _ _ Hrun (dict_keys_dict_set p f label file d Hk)
                (dict_set_NoDup p label file Hnd))
      as (Hk' & Hnd' & Hin & Hget & Hdir).
    split; [exact Hk' |]. split; [exact Hnd' |]. split; [| split].
    + intros k. rewrite Hin, dict_set_keys_elem.
      change (((file, label) :: pairs).*2) with (label :: pairs.*2).
      rewrite elem_of_cons. tauto.
    + intros k. rewrite Hget, last_file_for_cons, dict_get_dict_set.
      destruct (last_file_for k pairs); [reflexivity |].
      now destruct (String.eqb label k).
    + intros k file' Hlast. rewrite last_file_for_cons in Hlast.
      destruct (last_file_for k pairs) as [f0 |] eqn:E.
      * injection Hlast as ->. now apply Hdir.
      * destruct (String.eqb label k) eqn:El; [| discriminate].
        injection Hlast as <-. rewrite Hopen.
        (* no later pair sets this label: the entry is the one set here *)
        clear - Hrun E El.
        assert (Hgen : forall pairs a b a' b',
                   open_files root_files dqm_dir pairs a b = Done (a', b') ->
                   last_file_for k pairs = None ->
                   dict_get b' k = dict_get b k).
        { clear. induction pairs as [| [file l] pairs IH]; intros a b a' b' Hrun Hnone.
          - cbn in Hrun. now injection Hrun as <- <-.
          - cbn [open_files] in Hrun. rewrite last_file_for_cons in Hnone.
            destruct (open_dir _ _ _) as [d |]; [| discriminate].
            destruct (last_file_for k pairs) eqn:E; [discriminate |].
            destruct (String.eqb l k) eqn:El; [discriminate |].
            rewrite (IH _ _ _ _ Hrun eq_refl), dict_get_dict_set. now rewrite El. }
        rewrite (Hgen _ _ _ _ _ Hrun E), dict_get_dict_set. now rewrite El.
Qed.

(** X16: in both release validations the labels are dictionary keys. When
    all files open, the two dictionaries have the same keys in the same
    order, each label once; the keys are exactly the labels that were paired
    with a file; and a label given several times keeps only the last of its
    files (path and directory), the earlier ones being dropped. *)
Theorem open_files_labels_are_keys root_files dqm_dir files labels dqm_paths dqm_files :
  open_files root_files dqm_dir (zip files labels) [] [] = Done (dqm_paths, dqm_files) ->
  dict_keys dqm_paths = dict_keys dqm_files
  /\ NoDup (dict_keys dqm_paths)
  /\ (forall k, k ∈ dict_keys dqm_paths <-> k ∈ (zip files labels).*2)
  /\ (forall k, dict_get dqm_paths k = last_file_for k (zip files labels))
  /\ (forall k file,
        last_file_for k (zip files labels) = Some file ->
        Done <$> dict_get dqm_files k = Some (open_dir root_files file dqm_dir)).
Proof.
  intros Hrun.
  destruct (open_files_invariant root_files dqm_dir _ _ _ _ _ Hrun eq_refl)
    as (Hk & Hnd & Hin & Hget & Hdir); [constructor |].
  repeat split; auto.
  - intros H. apply Hin in H as [H | H]; [inversion H | exact H].
  - intros H. apply Hin. now right.
  - intros k. rewrite Hget. now destruct (last_file_for k _).
Qed.

Lemma open_files_labels_are_keys_witness :
  dict_keys [("A", "b.root")] = dict_keys [("A", track_full_dir)]
  /\ NoDup (dict_keys [("A", "b.root")])
  /\ (forall k, k ∈ dict_keys [("A", "b.root")]
                <-> k ∈ (zip ["a.root"; "b.root"] ["A"; "A"]).*2)
  /\ (forall k, dict_get [("A", "b.root")] k
                = last_file_for k (zip ["a.root"; "b.root"] ["A"; "A"]))
  /\ (forall k file,
        last_file_for k (zip ["a.root"; "b.root"] ["A"; "A"]) = Some file ->
        Done <$> dict_get [("A", track_full_dir)] k
        = Some (open_dir example_files file track_dir)).
Proof.
  apply (open_files_labels_are_keys example_files track_dir
           ["a.root"; "b.root"] ["A"; "A"]).
  reflexivity.
Defined.

(** ** The assertions of the release validations *)

Lemma raises_only_bind P {A B} (m : M A) (k : A -> M B) :
  raises_only P m -> (forall a, raises_only P (k a)) -> raises_only P (bind m k).
Proof.
  intros Hm Hk w e. specialize (Hm w). unfold bind.
  destruct (m w) as [[a | e'] w1]; cbn in *; [apply Hk |].
  intros [= <-]. now apply Hm.
Qed.

Lemma raises_only_ret P {A} (a : A) : raises_only P (ret a).
Proof. intros w e. discriminate. Qed.

Lemma no_assertion_savefig path : raises_only no_assertion (savefig path).
Proof.
  intros w e. unfold savefig. rewrite (bind_ok _ _ _ _ _ (emit_ok _ _)).
  unfold save_error. destruct (fs_walk _ _ _ _); [| now intros [= <-]].
  destruct (_ || _); [now intros [= <-] | discriminate].
Qed.

Lemma raises_only_emit P ev : raises_only P (emit ev).
Proof. intros w e. discriminate. Qed.

Lemma raises_only_raise (P : exn -> Prop) {A} e :
  P e -> raises_only P (raise (A := A) e).
Proof. intros H w e' [= <-]. exact H. Qed.

Lemma raises_only_lift (P : exn -> Prop) {A} (r : result A) :
  (forall e, r = Raise e -> P e) -> raises_only P (lift r).
Proof. intros H w e. apply H. Qed.

Lemma no_assertion_deref l : raises_only no_assertion (deref l).
Proof.
  intros w e. unfold deref. destruct (heap w !! l); cbn; [discriminate |].
  now intros [= <-].
Qed.

Lemma no_assertion_broadcast2 f (a b : list spec_float) e :
  broadcast2 f a b = Raise e -> no_assertion e.
Proof.
  unfold broadcast2.
  destruct a as [| x [| x' a]], b as [| y [| y' b]]; try discriminate;
    destruct (Nat.eqb _ _); try discriminate; now intros [= <-].
Qed.

Lemma no_assertion_broadcast_to n (src : list spec_float) e :
  broadcast_to n src = Raise e -> no_assertion e.
Proof.
  unfold broadcast_to. destruct (Nat.eqb _ _); [discriminate |].
  destruct src as [| y [| y' src]]; try discriminate; now intros [= <-].
Qed.

Lemma no_assertion_index {A} (l : list A) i e : index l i = Raise e -> no_assertion e.
Proof. unfold index. destruct (l !! i); [discriminate | now intros [= <-]]. Qed.

Lemma no_assertion_index_last {A} (l : list A) e :
  index_last l = Raise e -> no_assertion e.
Proof. unfold index_last. destruct (last l); [discriminate | now intros [= <-]]. Qed.

Ltac na_bind := apply raises_only_bind; [| intros ?].

Lemma no_assertion_values l : raises_only no_assertion (values l).
Proof. unfold values. na_bind; [apply no_assertion_deref | apply raises_only_ret]. Qed.

Lemma no_assertion_variances l : raises_only no_assertion (variances l).
Proof. unfold variances. na_bind; [apply no_assertion_deref | apply raises_only_ret]. Qed.

Lemma no_assertion_read v : raises_only no_assertion (read v).
Proof. unfold read. na_bind; [apply no_assertion_deref | apply raises_only_ret]. Qed.

Lemma no_assertion__div a b : raises_only no_assertion (_div a b).
Proof.
  unfold _div. na_bind; [apply no_assertion_read |].
  na_bind; [apply no_assertion_read |].
  apply raises_only_lift, no_assertion_broadcast2.
Qed.

Lemma no_assertion_store l h : raises_only no_assertion (store l h).
Proof. intros w e. discriminate. Qed.

Lemma no_assertion_assign_all v src : raises_only no_assertion (assign_all v src).
Proof.
  unfold assign_all. na_bind; [apply no_assertion_deref |].
  na_bind; [apply raises_only_lift, no_assertion_broadcast_to |].
  apply no_assertion_store.
Qed.

Lemma no_assertion_imul_all v src : raises_only no_assertion (imul_all v src).
Proof.
  unfold imul_all. na_bind; [apply no_assertion_deref |].
  na_bind; [apply raises_only_lift, no_assertion_broadcast_to |].
  apply no_assertion_store.
Qed.

Lemma no_assertion_hist_copy l : raises_only no_assertion (hist_copy l).
Proof.
  unfold hist_copy. na_bind; [apply no_assertion_deref |].
  intros w e. discriminate.
Qed.

Lemma no_assertion_ratioHist self num den :
  raises_only no_assertion (ratioHist self num den).
Proof.
  unfold ratioHist.
  na_bind; [apply no_assertion_hist_copy |].
  na_bind; [apply no_assertion_values |].
  na_bind; [apply no_assertion_variances |].
  na_bind; [apply no_assertion_values |].
  na_bind; [apply no_assertion_variances |].
  na_bind; [apply no_assertion__div |].
  na_bind; [apply no_assertion_values |].
  na_bind; [apply no_assertion_assign_all |].
  na_bind; [apply no_assertion__div |].
  na_bind; [apply no_assertion_variances |].
  na_bind; [apply no_assertion_assign_all |].
  na_bind; [apply no_assertion_variances |].
  na_bind; [apply no_assertion__div |].
  na_bind; [apply no_assertion__div |].
  na_bind; [apply raises_only_lift, no_assertion_broadcast2 |].
  na_bind; [apply no_assertion_imul_all | apply raises_only_ret].
Qed.

Lemma no_assertion_all_empty v_h : raises_only no_assertion (all_empty v_h).
Proof.
  induction v_h as [| h v_h IH]; [apply raises_only_ret |].
  cbn [all_empty]. na_bind; [apply no_assertion_values |].
  na_bind; [apply no_assertion_read |].
  destruct (sums_to_zero _); [exact IH | apply raises_only_ret].
Qed.

Lemma no_assertion_plot_main hl :
  forall idx, raises_only no_assertion (plot_main idx hl).
Proof.
  induction hl as [| [h label] hl IH]; intros idx; [apply raises_only_ret |].
  cbn [plot_main]. na_bind; [apply no_assertion_deref |].
  na_bind; [apply raises_only_emit | apply IH].
Qed.

Lemma no_assertion_plot_ratios self ref v_label ax2 hs :
  forall idx hratio,
    raises_only no_assertion (plot_ratios self ref v_label ax2 idx hs hratio).
Proof.
  induction hs as [| h hs IH]; intros idx hratio; [apply raises_only_ret |].
  cbn [plot_ratios]. na_bind; [apply no_assertion_ratioHist |].
  na_bind; [apply raises_only_lift, no_assertion_index |].
  na_bind; [apply raises_only_lift, no_assertion_index |].
  na_bind; [apply no_assertion_deref |].
  na_bind; [apply raises_only_emit | apply IH].
Qed.

Lemma no_assertion_on_ax2 ax2 k :
  (forall ax, raises_only no_assertion (k ax)) ->
  raises_only no_assertion (on_ax2 ax2 k).
Proof. intros H. destruct ax2; [apply H | now apply raises_only_raise]. Qed.

Lemma no_assertion_plotHistos self v_h savename v_label opts :
  raises_only no_assertion (plotHistos self v_h savename v_label opts).
Proof.
  unfold plotHistos. na_bind; [apply no_assertion_all_empty |].
  destruct a; [apply raises_only_emit |].
  na_bind; [apply raises_only_emit |].
  na_bind.
  { destruct (Nat.ltb 1 (length v_h)).
    - na_bind; [apply raises_only_emit |].
      na_bind; [apply raises_only_emit | apply raises_only_ret].
    - na_bind; [apply raises_only_emit | apply raises_only_ret]. }
  na_bind; [apply no_assertion_plot_main |].
  na_bind; [apply raises_only_lift, no_assertion_index |].
  na_bind; [apply no_assertion_plot_ratios |].
  na_bind; [apply raises_only_emit |].
  na_bind; [apply raises_only_emit |].
  na_bind.
  { destruct (Nat.ltb 1 (length v_h)); [| apply raises_only_ret].
    na_bind; [apply no_assertion_on_ax2; intros; apply raises_only_emit |].
    na_bind; [apply no_assertion_on_ax2; intros; apply raises_only_emit |].
    na_bind; [apply no_assertion_on_ax2; intros; apply raises_only_emit |].
    na_bind; [destruct a3; [apply no_assertion_deref | now apply raises_only_raise] |].
    na_bind; [apply raises_only_lift, no_assertion_index |].
    na_bind; [apply raises_only_lift, no_assertion_index_last |].
    na_bind; [apply no_assertion_on_ax2; intros; apply raises_only_emit |].
    destruct (modify_ticks opts);
      [apply no_assertion_on_ax2; intros; apply raises_only_emit
      | apply raises_only_ret]. }
  na_bind; [apply raises_only_emit |]. na_bind; [apply raises_only_emit |].
  na_bind; [apply raises_only_emit |]. na_bind; [apply raises_only_emit |].
  cbn [fold_right].
  na_bind; [apply no_assertion_savefig |].
  na_bind; [apply no_assertion_savefig | apply raises_only_ret].
Qed.

Lemma no_assertion_makedir path : raises_only no_assertion (makedir path).
Proof.
  intros w e.
  destruct (makedir_cases path w) as [(_ & ->) | [(_ & _ & ->) | (_ & _ & ->)]];
    cbn [fst]; [discriminate | now intros [= <-] |].
  destruct (String.eqb (last_name path) ".."); [now intros [= <-] | discriminate].
Qed.

Lemma no_assertion_ValidPlotter_init tag odir :
  raises_only no_assertion (ValidPlotter_init tag odir).
Proof.
  unfold ValidPlotter_init. na_bind.
  { destruct (truthy odir); [apply raises_only_ret | intros w e; discriminate]. }
  na_bind; [apply no_assertion_makedir | apply raises_only_ret].
Qed.

Lemma fails_only_bind P {A B} (m : IO A) (k : A -> IO B) :
  fails_only P m -> (forall a, fails_only P (k a)) -> fails_only P (io_bind m k).
Proof.
  intros Hm Hk w e. specialize (Hm w). unfold io_bind.
  destruct (m w) as [[a | e'] w1]; cbn in *; [apply Hk |].
  intros [= <-]. now apply Hm.
Qed.

Lemma fails_only_ret P {A} (a : A) : fails_only P (io_ret a).
Proof. intros w e. discriminate. Qed.

Lemma fails_only_lift (P : io_exn -> Prop) {A} (r : io_result A) :
  (forall e, r = Fail e -> P e) -> fails_only P (io_lift r).
Proof. intros H w e. apply H. Qed.

Lemma fails_only_run {A} (m : M A) :
  raises_only no_assertion m -> fails_only io_no_assertion (run m).
Proof.
  intros H w e. specialize (H w). unfold run.
  destruct (m w) as [[a | e'] w1]; cbn in *; [discriminate |].
  intros [= <-]. exact (H e' eq_refl).
Qed.

Lemma fails_only_fold P {A S} (body : S -> A -> IO S) (l : list A) :
  (forall s x, fails_only P (body s x)) ->
  forall s, fails_only P (io_fold body l s).
Proof.
  intros Hbody. induction l as [| x l IH]; intros s.
  - apply fails_only_ret.
  - cbn [io_fold]. apply fails_only_bind; auto.
Qed.

Lemma key_error_input {A} k (o : option A) e :
  key_error k o = Fail e -> e = KeyError k.
Proof. destruct o; [discriminate | now intros [= <-]]. Qed.

Lemma open_dir_input root_files file dqm_dir e :
  open_dir root_files file dqm_dir = Fail e ->
  (e = FileNotFoundError file /\ root_files !! file = None) \/ e = KeyError dqm_dir.
Proof.
  unfold open_dir. destruct (root_files !! file) as [f |].
  - intros H. right. now apply key_error_input in H.
  - intros [= <-]. now left.
Qed.

Lemma open_files_input root_files dqm_dir pairs :
  forall p f e,
    open_files root_files dqm_dir pairs p f = Fail e ->
    (exists file, e = FileNotFoundError file /\ root_files !! file = None)
    \/ e = KeyError dqm_dir.
Proof.
  induction pairs as [| [file label] pairs IH]; intros p f e H; [discriminate |].
  cbn [open_files] in H.
  destruct (open_dir root_files file dqm_dir) as [d | e'] eqn:E.
  - exact (IH _ _ _ H).
  - injection H as <-. apply open_dir_input in E as [[-> Hnone] | ->]; eauto.
Qed.

Lemma gather_input {K} `{Countable K} (histos : gmap K loc) key name keys e :
  gather histos key name keys = Fail e -> is_input_error e = true.
Proof.
  induction keys as [| label keys IH]; [discriminate |].
  cbn [gather]. destruct (histos !! key label); [| now intros [= <-]].
  destruct (gather histos key name keys); [discriminate |].
  intros [= <-]. now apply IH.
Qed.

Lemma input_error_no_assertion e : is_input_error e = true -> io_no_assertion e.
Proof. now destruct e. Qed.

Lemma same_keys_refl l : same_keys l l = true.
Proof.
  unfold same_keys.
  assert (H : forallb (fun k => existsb (String.eqb k) l) l = true).
  { apply forallb_forall. intros k Hk. apply existsb_exists.
    exists k. split; [exact Hk | apply String.eqb_refl]. }
  now rewrite H.
Qed.

Ltac fo_bind := apply fails_only_bind; [| intros ?].

Lemma fails_only_key_error {A} k (o : option A) :
  fails_only io_no_assertion (io_lift (key_error k o)).
Proof. apply fails_only_lift. intros e H. now apply key_error_input in H as ->. Qed.

Lemma no_assertion_to_hist h : raises_only no_assertion (to_hist h).
Proof. intros w e. discriminate. Qed.

Lemma no_assertion_releaseValidation root_files dqm_dir collections names_level0
    names_nested files labels tag odir :
  fails_only io_no_assertion
    (releaseValidation root_files dqm_dir collections names_level0 names_nested
       files labels tag odir).
Proof.
  intros w e. unfold releaseValidation. unfold io_bind at 1, io_lift at 1.
  destruct (open_files root_files dqm_dir (zip files labels) [] [])
    as [[p f] | e0] eqn:Hopen.
  - destruct (open_files_invariant root_files dqm_dir _ _ _ _ _ Hopen eq_refl)
      as (Hk & _); [constructor |].
    cbn [fst snd]. rewrite Hk, same_keys_refl. cbn [negb]. revert w e.
    fo_bind.
    { unfold load_level0. apply fails_only_fold. intros s label.
      apply fails_only_fold. intros s' name.
      fo_bind; [apply fails_only_key_error |].
      fo_bind; [apply fails_only_key_error |].
      fo_bind; [apply fails_only_run, no_assertion_to_hist | apply fails_only_ret]. }
    fo_bind; [apply fails_only_run, no_assertion_ValidPlotter_init |].
    fo_bind.
    { apply fails_only_fold. intros _ name.
      fo_bind; [| apply fails_only_run, no_assertion_plotHistos].
      apply fails_only_lift. intros e H.
      apply input_error_no_assertion. now apply gather_input in H. }
    fo_bind.
    { unfold load_nested. apply fails_only_fold. intros s label.
      apply fails_only_fold. intros s' coll.
      apply fails_only_fold. intros s'' name.
      fo_bind; [apply fails_only_key_error |].
      fo_bind; [apply fails_only_key_error |].
      fo_bind; [apply fails_only_key_error |].
      fo_bind; [apply fails_only_run, no_assertion_to_hist | apply fails_only_ret]. }
    apply fails_only_fold. intros _ coll.
    fo_bind; [apply fails_only_run, no_assertion_makedir |].
    apply fails_only_fold. intros _ entry.
    fo_bind; [| apply fails_only_run, no_assertion_plotHistos].
    apply fails_only_lift. intros e H.
    apply input_error_no_assertion. now apply gather_input in H.
  - cbn. intros [= <-].
    destruct (open_files_input _ _ _ _ _ _ Hopen) as [(file & -> & _) | ->];
      exact I.
Qed.

(** X17: the assertion [dqm_paths.keys() == dqm_files.keys()] of the two
    release validations can never fail: whatever the files, labels and
    arguments, neither function ends in an [AssertionError]. *)
Theorem releaseValidations_never_assert root_files files labels tag odir w msg :
  fst (trackReleaseValidation root_files files labels tag odir w)
  <> Fail (PyError (AssertionError msg))
  /\ fst (hgcalReleaseValidation root_files files labels tag odir w)
     <> Fail (PyError (AssertionError msg)).
Proof.
  split; intros H;
    pose proof (no_assertion_releaseValidation _ _ _ _ _ _ _ _ _ _ _ H) as Hno;
    discriminate Hno.
Qed.

(** ** The release validations: missing input *)

Lemma open_files_fails root_files dqm_dir pairs :
  forall p f,
    Exists (fun pr => forall d, open_dir root_files (fst pr) dqm_dir <> Done d) pairs ->
    exists e, open_files root_files dqm_dir pairs p f = Fail e
              /\ is_input_error e = true.
Proof.
  induction pairs as [| [file label] pairs IH]; intros p f Hex; [inversion Hex |].
  cbn [open_files].
  destruct (open_dir root_files file dqm_dir) as [d | e] eqn:E.
  - apply IH. inversion Hex as [? ? Hhead | ? ? Htail]; subst; [| exact Htail].
    cbn in Hhead. now destruct (Hhead d).
  - exists e. split; [reflexivity |].
    now apply open_dir_input in E as [[-> _] | ->].
Qed.

Lemma releaseValidation_missing_file root_files dqm_dir collections names_level0
    names_nested files labels tag odir w file label :
  (file, label) ∈ zip files labels -> root_files !! file = None ->
  exists e,
    releaseValidation root_files dqm_dir collections names_level0 names_nested
      files labels tag odir w = (Fail e, w)
    /\ is_input_error e = true.
Proof.
  intros Hin Hnone.
  destruct (open_files_fails root_files dqm_dir (zip files labels) [] [])
    as (e & He & Hinput).
  { apply Exists_exists. exists (file, label). split; [exact Hin |].
    intros d. cbn. unfold open_dir. now rewrite Hnone. }
  exists e. split; [| exact Hinput].
  unfold releaseValidation. apply io_bind_fail. unfold io_lift. now rewrite He.
Qed.

(** X18: if one of the files that is paired with a label does not exist,
    both release validations fail with an error of the file-access library
    ([FileNotFoundError], or [KeyError] for an earlier file without the
    validation directory) before they read a histogram, create a directory
    or draw anything. *)
Theorem releaseValidations_missing_file root_files files labels tag odir w file label :
  (file, label) ∈ zip files labels -> root_files !! file = None ->
  exists e1 e2,
    trackReleaseValidation root_files files labels tag odir w = (Fail e1, w)
    /\ hgcalReleaseValidation root_files files labels tag odir w = (Fail e2, w)
    /\ is_input_error e1 = true /\ is_input_error e2 = true.
Proof.
  intros Hin Hnone.
  destruct (releaseValidation_missing_file root_files track_dir track_collections
              track_names_level0 (fun _ => track_names_nested)
              files labels tag odir w file label Hin Hnone) as (e1 & H1 & I1).
  destruct (releaseValidation_missing_file root_files hgcal_dir hgcal_collections
              hgcal_names_level0 hgcal_names_nested
              files labels tag odir w file label Hin Hnone) as (e2 & H2 & I2).
  exists e1, e2. auto.
Qed.

Lemma releaseValidations_missing_file_witness :
  exists e1 e2,
    trackReleaseValidation example_files ["a.root"; "c.root"] ["A"; "C"] "v1" None
      empty_world = (Fail e1, empty_world)
    /\ hgcalReleaseValidation example_files ["a.root"; "c.root"] ["A"; "C"] "v1" None
         empty_world = (Fail e2, empty_world)
    /\ is_input_error e1 = true /\ is_input_error e2 = true.
Proof.
  apply (releaseValidations_missing_file example_files ["a.root"; "c.root"]
           ["A"; "C"] "v1" None empty_world "c.root" "C").
  - apply elem_of_cons. right. apply elem_of_cons. now left.
  - reflexivity.
Defined.

Lemma quiet_refl w : quiet w w.
Proof. now repeat split. Qed.

Lemma quiet_trans w1 w2 w3 : quiet w1 w2 -> quiet w2 w3 -> quiet w1 w3.
Proof. intros (? & ? & ?) (? & ? & ?). repeat split; congruence. Qed.

Lemma quiet_to_hist h : respects quiet (to_hist h).
Proof. intros w. now repeat split. Qed.

Lemma quiet_load_level0 dqm_files keys names :
  io_respects quiet (load_level0 dqm_files keys names).
Proof.
  unfold load_level0.
  apply io_respects_fold; [exact quiet_refl | exact quiet_trans |]. intros s label.
  apply io_respects_fold; [exact quiet_refl | exact quiet_trans |]. intros s' name.
  apply io_respects_bind; [exact quiet_trans | apply io_respects_lift, quiet_refl |].
  intros d.
  apply io_respects_bind; [exact quiet_trans | apply io_respects_lift, quiet_refl |].
  intros h.
  apply io_respects_bind; [exact quiet_trans | apply io_respects_run, quiet_to_hist |].
  intros l. apply io_respects_ret, quiet_refl.
Qed.

Lemma load_one_step (dqm_files : list (string * RootDir)) (label : string)
    (d : RootDir) (name : string) (histos : gmap (string * string) loc)
    (w : world) :
  dict_get dqm_files label = Some d ->
  (d <-- io_lift (key_error label (dict_get dqm_files label)) ;;
   h <-- io_lift (key_error name (dir_hists d !! name)) ;;
   l <-- run (to_hist h) ;;
   io_ret (<[(label, name) := l]> histos)) w
  = match dir_hists d !! name with
    | Some h => (Done (<[(label, name) := fresh (dom (heap w))]> histos),
                 mkWorld (<[fresh (dom (heap w)) := h]> (heap w)) (cwd w) (dirs w)
                   (trace w))
    | None => (Fail (KeyError name), w)
    end.
Proof.
  intros Hd. unfold io_bind, io_lift. rewrite Hd. cbn [key_error].
  now destruct (dir_hists d !! name).
Qed.

(** The histograms of one label: all read, or [KeyError] at the first name
    that its directory lacks. *)
Lemma load_names_outcome (dqm_files : list (string * RootDir)) label d names :
  dict_get dqm_files label = Some d ->
  forall (histos : gmap (string * string) loc) w,
    (exists histos' w',
        io_fold (fun histos name =>
                   d <-- io_lift (key_error label (dict_get dqm_files label)) ;;
                   h <-- io_lift (key_error name (dir_hists d !! name)) ;;
                   l <-- run (to_hist h) ;;
                   io_ret (<[(label, name) := l]> histos)) names histos w
        = (Done histos', w')
        /\ Forall (fun n => is_Some (dir_hists d !! n)) names)
    \/ (exists n w',
          io_fold (fun histos name =>
                     d <-- io_lift (key_error label (dict_get dqm_files label)) ;;
                     h <-- io_lift (key_error name (dir_hists d !! name)) ;;
                     l <-- run (to_hist h) ;;
                     io_ret (<[(label, name) := l]> histos)) names histos w
          = (Fail (KeyError n), w')
          /\ n ∈ names /\ dir_hists d !! n = None).
Proof.
  intros Hd. induction names as [| name names IH]; intros histos w.
  - left. exists histos, w. split; [reflexivity | constructor].
  - cbn [io_fold].
    pose proof (load_one_step dqm_files label d name histos w Hd) as Hstep.
    destruct (dir_hists d !! name) as [h |] eqn:Hh.
    + rewrite (io_bind_done _ _ _ _ _ Hstep).
      match goal with
      | |- context [io_fold _ names ?s ?w1] => destruct (IH s w1)
          as [(histos' & w' & Hrun & Hall) | (n & w' & Hrun & Hin & Hnone)]
      end.
      * left. exists histos', w'. split; [exact Hrun |]. constructor; eauto.
      * right. exists n, w'. split; [exact Hrun |]. split; [| exact Hnone].
        apply elem_of_cons. now right.
    + right. exists name, w. split; [now apply io_bind_fail |].
      split; [| exact Hh]. apply elem_of_cons. now left.
Qed.

Lemma load_level0_outcome (dqm_files : list (string * RootDir)) names keys :
  (forall label, label ∈ keys -> is_Some (dict_get dqm_files label)) ->
  forall (histos : gmap (string * string) loc) w,
    (exists histos' w',
        io_fold (fun histos label =>
          io_fold (fun histos name =>
                     d <-- io_lift (key_error label (dict_get dqm_files label)) ;;
                     h <-- io_lift (key_error name (dir_hists d !! name)) ;;
                     l <-- run (to_hist h) ;;
                     io_ret (<[(label, name) := l]> histos)) names histos)
          keys histos w = (Done histos', w')
        /\ forall label d,
            label ∈ keys -> dict_get dqm_files label = Some d ->
            Forall (fun n => is_Some (dir_hists d !! n)) names)
    \/ (exists n w',
          io_fold (fun histos label =>
            io_fold (fun histos name =>
                       d <-- io_lift (key_error label (dict_get dqm_files label)) ;;
                       h <-- io_lift (key_error name (dir_hists d !! name)) ;;
                       l <-- run (to_hist h) ;;
                       io_ret (<[(label, name) := l]> histos)) names histos)
            keys histos w = (Fail (KeyError n), w')
          /\ n ∈ names).
Proof.
  induction keys as [| label keys IH]; intros Hkeys histos w.
  - left. exists histos, w. split; [reflexivity |]. intros ? ? H. inversion H.
  - destruct (Hkeys label) as [d Hd]; [apply elem_of_cons; now left |].
    cbn [io_fold].
    destruct (load_names_outcome dqm_files label d names Hd histos w)
      as [(h1 & w1 & Hrun & Hall) | (n & w1 & Hrun & Hin & _)].
    + rewrite (io_bind_done _ _ _ _ _ Hrun).
      destruct (IH (fun l Hl => Hkeys l ltac:(apply elem_of_cons; now right)) h1 w1)
        as [(h2 & w2 & Hrun2 & Hall2) | (n & w2 & Hrun2 & Hin)].
      * left. exists h2, w2. split; [exact Hrun2 |].
        intros l d' Hl Hd'. apply elem_of_cons in Hl as [-> | Hl].
        -- rewrite Hd in Hd'. now injection Hd' as <-.
        -- eapply Hall2; eassumption.
      * right. eauto.
    + right. exists n, w1. split; [now apply io_bind_fail | exact Hin].
Qed.

Lemma releaseValidation_missing_level0 root_files dqm_dir collections names_level0
    names_nested files labels tag odir w p f label d name :
  open_files root_files dqm_dir (zip files labels) [] [] = Done (p, f) ->
  dict_get f label = Some d -> name ∈ names_level0 -> dir_hists d !! name = None ->
  exists name' w',
    releaseValidation root_files dqm_dir collections names_level0 names_nested
      files labels tag odir w = (Fail (KeyError name'), w')
    /\ name' ∈ names_level0 /\ dirs w' = dirs w /\ trace w' = trace w.
Proof.
  intros Hopen Hd Hname Hnone.
  destruct (open_files_invariant root_files dqm_dir _ _ _ _ _ Hopen eq_refl)
    as (Hk & _); [constructor |].
  assert (Hlabel : label ∈ dict_keys p).
  { rewrite Hk. apply dict_get_is_Some. eauto. }
  destruct (quiet_load_level0 f (dict_keys p) names_level0 w) as (_ & Hdirs & Htrace).
  unfold releaseValidation.
  rewrite (io_bind_done _ _ w (p, f) w) by (unfold io_lift; now rewrite Hopen).
  cbn [fst snd].
  replace (same_keys (dict_keys p) (dict_keys f)) with true
    by (rewrite Hk; symmetry; apply same_keys_refl).
  cbn [negb].
  unfold load_level0 in *.
  destruct (load_level0_outcome f names_level0 (dict_keys p)) with (histos := (∅ : gmap (string * string) loc)) (w := w)
    as [(h1 & w1 & Hrun & Hall) | (n & w1 & Hrun & Hin)].
  { intros l Hl. apply dict_get_is_Some. now rewrite <- Hk. }
  - exfalso. pose proof (Hall label d Hlabel Hd) as Hforall.
    rewrite Forall_forall in Hforall.
    destruct (Hforall name Hname) as [h Hh]. congruence.
  - exists n, w1. rewrite Hrun in Hdirs, Htrace. cbn [snd] in Hdirs, Htrace.
    split; [now apply io_bind_fail | auto].
Qed.

(** X19: if every paired file opens but the directory kept for some label
    lacks one of the level-0 histograms, the validation fails with a
    [KeyError] for a level-0 name while it is still reading: no directory
    has been created and nothing has been drawn. This holds for
    [trackReleaseValidation] and for [hgcalReleaseValidation], each with its
    directory and names. *)
Theorem releaseValidations_missing_level0 root_files files labels tag odir w :
  (forall p f label d name,
      open_files root_files track_dir (zip files labels) [] [] = Done (p, f) ->
      dict_get f label = Some d ->
      name ∈ track_names_level0 -> dir_hists d !! name = None ->
      exists name' w',
        trackReleaseValidation root_files files labels tag odir w
        = (Fail (KeyError name'), w')
        /\ name' ∈ track_names_level0 /\ dirs w' = dirs w /\ trace w' = trace w)
  /\ (forall p f label d name,
        open_files root_files hgcal_dir (zip files labels) [] [] = Done (p, f) ->
        dict_get f label = Some d ->
        name ∈ hgcal_names_level0 -> dir_hists d !! name = None ->
        exists name' w',
          hgcalReleaseValidation root_files files labels tag odir w
          = (Fail (KeyError name'), w')
          /\ name' ∈ hgcal_names_level0 /\ dirs w' = dirs w /\ trace w' = trace w).
Proof.
  split; intros p f label d name Hopen Hd Hname Hnone;
    eapply releaseValidation_missing_level0; eassumption.
Qed.

Lemma releaseValidations_missing_level0_witness :
  (exists name' w',
      trackReleaseValidation hollow_files ["a.root"; "hollow.root"] ["A"; "H"]
        "v1" None empty_world = (Fail (KeyError name'), w')
      /\ name' ∈ track_names_level0
      /\ dirs w' = dirs empty_world /\ trace w' = trace empty_world)
  /\ (exists name' w',
        hgcalReleaseValidation hollow_files ["hollow.root"] ["H"]
          "v1" None empty_world = (Fail (KeyError name'), w')
        /\ name' ∈ hgcal_names_level0
        /\ dirs w' = dirs empty_world /\ trace w' = trace empty_world).
Proof.
  split.
  - apply (proj1 (releaseValidations_missing_level0 hollow_files
                    ["a.root"; "hollow.root"] ["A"; "H"] "v1" None empty_world)
             [("A", "a.root"); ("H", "hollow.root")]
             [("A", track_full_dir); ("H", mkRootDir ∅ ∅)]
             "H" (mkRootDir ∅ ∅) "effic_vs_coll");
      [reflexivity | reflexivity | | reflexivity].
    apply elem_of_cons. right. apply elem_of_cons. now left.
  - apply (proj2 (releaseValidations_missing_level0 hollow_files
                    ["hollow.root"] ["H"] "v1" None empty_world)
             [("H", "hollow.root")] [("H", mkRootDir ∅ ∅)]
             "H" (mkRootDir ∅ ∅) "Candidates pT");
      [reflexivity | reflexivity | | reflexivity].
    apply elem_of_cons. right. apply elem_of_cons. right. apply elem_of_cons. now left.
Defined.

(** ** The release validations: directories *)

Lemma io_for_inv_cons {A} (x : A) (l : list A) (body : A -> IO unit) w w' :
  io_for (x :: l) body w = (Done tt, w') ->
  exists w1, body x w = (Done tt, w1) /\ io_for l body w1 = (Done tt, w').
Proof.
  unfold io_for. cbn [io_fold]. intros H.
  apply io_bind_inv_done in H as ([] & w1 & H1 & H2). eauto.
Qed.

Lemma grows_io_for {A} (l : list A) (body : A -> IO unit) :
  (forall x, io_respects grows (body x)) -> io_respects grows (io_for l body).
Proof.
  intros H. unfold io_for.
  apply io_respects_fold; [exact grows_refl | exact grows_trans | auto].
Qed.

Lemma grows_exists w w' path :
  grows w w' -> os_path_exists w path = true -> os_path_exists w' path = true.
Proof. intros (_ & Hc & Hsub & _). now apply os_path_exists_mono. Qed.

(** A loop that makes a directory per item before anything else: when it
    finishes, all these directories exist. *)
Lemma io_for_makedir_dirs (items : list string) (path : string -> string)
    (rest : string -> IO unit) :
  (forall c, io_respects grows (rest c)) ->
  forall w w',
    io_for items (fun c => run (makedir (path c)) ;;;; rest c) w = (Done tt, w') ->
    forall c, c ∈ items -> os_path_exists w' (path c) = true.
Proof.
  intros Hrest. induction items as [| x items IH]; intros w w' Hrun c Hc;
    [inversion Hc |].
  apply io_for_inv_cons in Hrun as (w1 & Hbody & Hloop).
  apply elem_of_cons in Hc as [-> | Hc]; [| exact (IH _ _ Hloop c Hc)].
  apply io_bind_inv_done in Hbody as ([] & w0 & Hmk & Hrest').
  assert (Hin : os_path_exists w0 (path x) = true).
  { unfold run in Hmk.
    destruct (makedir (path x) w) as [[[] | e] w0'] eqn:E; [| discriminate].
    injection Hmk as <-. now destruct (makedir_ok _ _ _ E). }
  assert (G1 : grows w0 w1) by (pose proof (Hrest x w0) as G; now rewrite Hrest' in G).
  assert (G2 : grows w1 w').
  { pose proof (grows_io_for items (fun c => run (makedir (path c)) ;;;; rest c)) as G.
    specialize (G ltac:(intros c'; apply io_respects_bind;
                        [exact grows_trans | apply io_respects_run, grows_makedir
                        | intros; apply Hrest]) w1).
    now rewrite Hloop in G. }
  now apply (grows_exists w1 w' _ G2), (grows_exists w0 w1 _ G1).
Qed.

Lemma releaseValidation_done_dirs root_files dqm_dir collections names_level0
    names_nested files labels tag odir w w' :
  releaseValidation root_files dqm_dir collections names_level0 names_nested
    files labels tag odir w = (Done tt, w') ->
  os_path_exists w' (init_savedir tag odir w) = true
  /\ forall coll, coll ∈ collections ->
                  os_path_exists w' (os_path_join (init_savedir tag odir w) coll)
                  = true.
Proof.
  unfold releaseValidation. intros H.
  apply io_bind_inv_done in H as ([p f] & w0 & Hopen & H).
  assert (w0 = w) as -> by (unfold io_lift in Hopen; now injection Hopen).
  cbn [fst snd] in H. destruct (negb _); [discriminate |].
  apply io_bind_inv_done in H as (h0 & w1 & Hload & H).
  assert (Q1 : quiet w w1)
    by (pose proof (quiet_load_level0 f (dict_keys p) names_level0 w) as Q;
        now rewrite Hload in Q).
  apply io_bind_inv_done in H as (plotter & w2 & Hinit & H).
  unfold run in Hinit.
  destruct (ValidPlotter_init tag odir w1) as [[self | e] w2'] eqn:Einit;
    [| discriminate].
  injection Hinit as <- <-.
  destruct (ValidPlotter_init_ok _ _ _ _ _ Einit) as [-> Hmk].
  destruct (makedir_ok _ _ _ Hmk) as (Hin & _).
  assert (Esave : init_savedir tag odir w1 = init_savedir tag odir w).
  { unfold init_savedir. destruct Q1 as (-> & _). reflexivity. }
  rewrite Esave in *. cbn [savedir] in H.
  apply io_bind_inv_done in H as ([] & w3 & Hplots & H).
  apply io_bind_inv_done in H as (hn & w4 & Hnested & H).
  assert (G3 : grows w2' w3).
  { match type of Hplots with
    | io_for ?l ?b _ = _ =>
        pose proof (grows_io_for l b) as G
    end.
    specialize (G ltac:(intros name; apply io_respects_bind;
                        [exact grows_trans | apply io_respects_lift, grows_refl
                        | intros; apply grows_plotHistos]) w2').
    now rewrite Hplots in G. }
  assert (G4 : grows w3 w4)
    by (pose proof (grows_load_nested f (dict_keys p) collections names_nested w3) as G;
        now rewrite Hnested in G).
  assert (G5 : grows w4 w').
  { match type of H with
    | io_for ?l ?b _ = _ => pose proof (grows_io_for l b) as G
    end.
    specialize (G ltac:(intros coll; apply io_respects_bind;
                        [exact grows_trans | apply io_respects_run, grows_makedir |];
                        intros; apply grows_io_for; intros entry;
                        apply io_respects_bind;
                        [exact grows_trans | apply io_respects_lift, grows_refl
                        | intros; apply grows_plotHistos]) w4).
    now rewrite H in G. }
  split.
  - now apply (grows_exists w4 w' _ G5), (grows_exists w3 w4 _ G4),
      (grows_exists w2' w3 _ G3).
  - intros coll Hcoll.
    eapply (io_for_makedir_dirs collections
              (fun c => os_path_join (init_savedir tag odir w) c)); [| exact H | exact Hcoll].
    intros c. apply grows_io_for. intros entry.
    apply io_respects_bind;
      [exact grows_trans | apply io_respects_lift, grows_refl
      | intros; apply grows_plotHistos].
Qed.

(** X20: when a release validation finishes, the plotter's directory exists
    and so does, inside it, one directory per collection: two for
    [trackReleaseValidation], six for [hgcalReleaseValidation]. *)
Theorem releaseValidations_make_directories root_files files labels tag odir w :
  (forall w',
      trackReleaseValidation root_files files labels tag odir w = (Done tt, w') ->
      os_path_exists w' (init_savedir tag odir w) = true
      /\ forall coll, coll ∈ track_collections ->
                      os_path_exists w' (os_path_join (init_savedir tag odir w) coll)
                      = true)
  /\ (forall w',
        hgcalReleaseValidation root_files files labels tag odir w = (Done tt, w') ->
        os_path_exists w' (init_savedir tag odir w) = true
        /\ forall coll, coll ∈ hgcal_collections ->
                        os_path_exists w'
                          (os_path_join (init_savedir tag odir w) coll) = true).
Proof. split; intros w' H; exact (releaseValidation_done_dirs _ _ _ _ _ _ _ _ _ _ _ H). Qed.

(** ** The release validations: the files they save *)

Lemma emits_refl Q w : emits Q w w.
Proof. exists []. split; [now rewrite app_nil_r | constructor]. Qed.

Lemma emits_trans Q w1 w2 w3 : emits Q w1 w2 -> emits Q w2 w3 -> emits Q w1 w3.
Proof.
  intros (e1 & H1 & F1) (e2 & H2 & F2). exists (e1 ++ e2)%list.
  split; [now rewrite H2, H1, app_assoc | now apply Forall_app].
Qed.

Lemma emits_same_trace Q w w' : trace w' = trace w -> emits Q w w'.
Proof. intros H. exists []. split; [now rewrite app_nil_r | constructor]. Qed.

Lemma emits_mono (Q Q' : event -> Prop) w w' :
  (forall e, Q e -> Q' e) -> emits Q w w' -> emits Q' w w'.
Proof.
  intros H (evs & E & F). exists evs. split; [exact E |].
  eapply Forall_impl; eauto.
Qed.

Lemma emits_saved_files P w w' :
  emits (saves_to P) w w' -> Forall P (saved_files (new_events w w')).
Proof.
  intros (evs & E & F). rewrite (new_events_trace _ _ _ E). clear E.
  induction F as [| e evs He _ IH]; [constructor |].
  destruct e; cbn [saved_files]; try exact IH. constructor; [exact He | exact IH].
Qed.

Lemma emits_ret Q {A} (a : A) : respects (emits Q) (ret a).
Proof. intros w. apply emits_refl. Qed.

Lemma emits_lift Q {A} (r : result A) : respects (emits Q) (lift r).
Proof. intros w. apply emits_refl. Qed.

Lemma emits_raise Q {A} e : respects (emits Q) (raise (A := A) e).
Proof. intros w. apply emits_refl. Qed.

Lemma emits_deref Q l : respects (emits Q) (deref l).
Proof. intros w. unfold deref. destruct (heap w !! l); apply emits_refl. Qed.

Lemma emits_emit (Q : event -> Prop) e : Q e -> respects (emits Q) (emit e).
Proof.
  intros H w. rewrite emit_ok. exists [e]. split; [reflexivity | now constructor].
Qed.

Lemma emits_ratioHist Q self num den : respects (emits Q) (ratioHist self num den).
Proof.
  intros w.
  destruct (ratioHist_writes_only_copy self num den w) as [(_ & _ & _ & Ht) _].
  now apply emits_same_trace.
Qed.

Lemma emits_makedir Q path : respects (emits Q) (makedir path).
Proof.
  intros w. destruct (makedir_frame path w) as (_ & _ & Ht & _).
  now apply emits_same_trace.
Qed.

Lemma emits_savefig (Q : event -> Prop) path :
  Q (EvSaveFig path) -> respects (emits Q) (savefig path).
Proof.
  intros H. unfold savefig.
  apply respects_bind; [apply emits_trans | now apply emits_emit |].
  intros _ w. destruct (save_error w path); apply emits_refl.
Qed.

Lemma emits_to_hist Q h : respects (emits Q) (to_hist h).
Proof. intros w. now apply emits_same_trace. Qed.

Ltac emits_bind :=
  apply respects_bind; [apply emits_trans | | intros ?].

Ltac emits_event := apply emits_emit; exact I.

Lemma emits_all_empty Q v_h : respects (emits Q) (all_empty v_h).
Proof.
  induction v_h as [| h v_h IH]; [apply emits_ret |].
  cbn [all_empty]. emits_bind.
  { unfold values. emits_bind; [apply emits_deref | apply emits_ret]. }
  emits_bind.
  { unfold read. emits_bind; [apply emits_deref | apply emits_ret]. }
  destruct (sums_to_zero _); [exact IH | apply emits_ret].
Qed.

Lemma emits_plot_main P hl :
  forall idx, respects (emits (saves_to P)) (plot_main idx hl).
Proof.
  induction hl as [| [h label] hl IH]; intros idx; [apply emits_ret |].
  cbn [plot_main]. emits_bind; [apply emits_deref |].
  emits_bind; [emits_event | apply IH].
Qed.

Lemma emits_plot_ratios P self ref v_label ax2 hs :
  forall idx hratio,
    respects (emits (saves_to P)) (plot_ratios self ref v_label ax2 idx hs hratio).
Proof.
  induction hs as [| h hs IH]; intros idx hratio; [apply emits_ret |].
  cbn [plot_ratios]. emits_bind; [apply emits_ratioHist |].
  emits_bind; [apply emits_lift |]. emits_bind; [apply emits_lift |].
  emits_bind; [apply emits_deref |].
  emits_bind; [emits_event | apply IH].
Qed.

Lemma emits_on_ax2 Q ax2 k :
  (forall ax, respects (emits Q) (k ax)) -> respects (emits Q) (on_ax2 ax2 k).
Proof. intros H. destruct ax2; [apply H | apply emits_raise]. Qed.

(** Whatever its arguments and however it ends, a call of [plotHistos]
    hands no other path to [plt.savefig] than the directory string followed
    by the name and [.png]. *)
Lemma plotHistos_saves_to self v_h savename v_label opts :
  respects (emits (saves_to (eq (savedir self ++ savename ++ ".png"))))
    (plotHistos self v_h savename v_label opts).
Proof.
  unfold plotHistos. emits_bind; [apply emits_all_empty |].
  destruct a; [emits_event |].
  emits_bind; [emits_event |].
  emits_bind.
  { destruct (Nat.ltb 1 (length v_h)).
    - emits_bind; [emits_event |]. emits_bind; [emits_event | apply emits_ret].
    - emits_bind; [emits_event | apply emits_ret]. }
  emits_bind; [apply emits_plot_main |].
  emits_bind; [apply emits_lift |].
  emits_bind; [apply emits_plot_ratios |].
  emits_bind; [emits_event |].
  emits_bind; [emits_event |].
  emits_bind.
  { destruct (Nat.ltb 1 (length v_h)); [| apply emits_ret].
    emits_bind; [apply emits_on_ax2; intros; emits_event |].
    emits_bind; [apply emits_on_ax2; intros; emits_event |].
    emits_bind; [apply emits_on_ax2; intros; emits_event |].
    emits_bind; [destruct a3; [apply emits_deref | apply emits_raise] |].
    emits_bind; [apply emits_lift |]. emits_bind; [apply emits_lift |].
    emits_bind; [apply emits_on_ax2; intros; emits_event |].
    destruct (modify_ticks opts);
      [apply emits_on_ax2; intros; emits_event | apply emits_ret]. }
  emits_bind; [emits_event |]. emits_bind; [emits_event |].
  emits_bind; [emits_event |]. emits_bind; [emits_event |].
  cbn [fold_right].
  emits_bind; [apply emits_savefig; reflexivity |].
  emits_bind; [apply emits_savefig; reflexivity | apply emits_ret].
Qed.

Ltac io_emits_bind :=
  apply io_respects_bind; [apply emits_trans | | intros ?].

Lemma emits_load_nested Q dqm_files keys collections names_nested :
  io_respects (emits Q) (load_nested dqm_files keys collections names_nested).
Proof.
  unfold load_nested.
  apply io_respects_fold; [apply emits_refl | apply emits_trans |]. intros s label.
  apply io_respects_fold; [apply emits_refl | apply emits_trans |]. intros s' coll.
  apply io_respects_fold; [apply emits_refl | apply emits_trans |]. intros s'' name.
  io_emits_bind; [apply io_respects_lift, emits_refl |].
  io_emits_bind; [apply io_respects_lift, emits_refl |].
  io_emits_bind; [apply io_respects_lift, emits_refl |].
  io_emits_bind; [apply io_respects_run, emits_to_hist |].
  apply io_respects_ret, emits_refl.
Qed.

Lemma emits_plot_named (names : string -> Prop) self v_h savename v_label opts :
  names savename ->
  io_respects (emits (saves_to (png_of (savedir self) names)))
    (run (plotHistos self v_h savename v_label opts)).
Proof.
  intros Hname. apply io_respects_run. intros w.
  eapply emits_mono; [| apply plotHistos_saves_to].
  intros [] He; cbn in *; auto. exists savename. split; [exact Hname | now symmetry].
Qed.

Lemma releaseValidation_saved_files root_files dqm_dir collections names_level0
    names_nested files labels tag odir w :
  Forall (png_of (init_savedir tag odir w)
            (plot_names collections names_level0 names_nested))
    (saved_files
       (new_events w
          (snd (releaseValidation root_files dqm_dir collections names_level0
                  names_nested files labels tag odir w)))).
Proof.
  apply emits_saved_files. unfold releaseValidation.
  unfold io_bind at 1, io_lift at 1.
  destruct (open_files root_files dqm_dir (zip files labels) [] [])
    as [[p f] | e0]; [| apply emits_refl].
  cbn [fst snd]. destruct (negb _); [apply emits_refl |].
  unfold io_bind at 1.
  pose proof (quiet_load_level0 f (dict_keys p) names_level0 w) as (Hc & _ & Ht).
  destruct (load_level0 f (dict_keys p) names_level0 w) as [[h0 | e] w1];
    cbn [snd] in Hc, Ht; [| now apply emits_same_trace].
  unfold io_bind at 1, run at 1.
  pose proof (ValidPlotter_init_frame tag odir w1) as (_ & _ & Ht2 & _).
  rewrite ValidPlotter_init_eq in *.
  destruct (makedir (init_savedir tag odir w1) w1) as [[[] | e] w2];
    cbn [snd] in Ht2 |- *; [| apply emits_same_trace; congruence].
  assert (Esave : init_savedir tag odir w1 = init_savedir tag odir w)
    by (unfold init_savedir; now rewrite Hc).
  rewrite Esave.
  apply (emits_trans _ w w2); [apply emits_same_trace; congruence |].
  set (plotter := mkValidPlotter (init_savedir tag odir w)).
  change (init_savedir tag odir w) with (savedir plotter).
  revert w2 Ht2. intros w2 _. revert w2.
  change (io_respects
            (emits (saves_to (png_of (savedir plotter)
                                (plot_names collections names_level0 names_nested))))
            (io_for names_level0 (fun name =>
               v_histos <-- io_lift (gather h0 (fun label => (label, name))
                                       name (dict_keys p)) ;;
               run (plotHistos plotter v_histos name (dict_keys p)
                      (mkPlotOpts "" "" "" true
                         (Float64.half, Float64.three_halves)))) ;;;;
             histos_nested <-- load_nested f (dict_keys p) collections names_nested ;;
             io_for collections (fun coll =>
               run (makedir (os_path_join (savedir plotter) coll)) ;;;;
               io_for (names_nested coll) (fun entry =>
                 v_histos <-- io_lift (gather histos_nested
                                         (fun label => (label, coll, fst entry))
                                         (fst entry) (dict_keys p)) ;;
                 run (plotHistos plotter v_histos (coll ++ "/" ++ fst entry)
                        (dict_keys p)
                        (mkPlotOpts (fst (snd entry)) (snd (snd entry)) coll false
                           (Float64.half, Float64.three_halves))))))).
  io_emits_bind.
  { assert (G : forall l, (forall n, n ∈ l -> n ∈ names_level0) ->
              io_respects
                (emits (saves_to (png_of (savedir plotter)
                                    (plot_names collections names_level0 names_nested))))
                (io_for l (fun name =>
                   v_histos <-- io_lift (gather h0 (fun label => (label, name))
                                           name (dict_keys p)) ;;
                   run (plotHistos plotter v_histos name (dict_keys p)
                          (mkPlotOpts "" "" "" true
                             (Float64.half, Float64.three_halves)))))).
    { induction l as [| n l IH]; intros Hl;
        [apply io_respects_ret, emits_refl |].
      unfold io_for. cbn [io_fold]. io_emits_bind.
      - io_emits_bind; [apply io_respects_lift, emits_refl |].
        apply emits_plot_named. left. apply Hl. now left.
      - match goal with u : unit |- _ => destruct u end.
        apply IH. intros n' Hn'. apply Hl. now right. }
    apply G. auto. }
  io_emits_bind; [apply emits_load_nested |].
  assert (G : forall l, (forall c, c ∈ l -> c ∈ collections) ->
            io_respects
              (emits (saves_to (png_of (savedir plotter)
                                  (plot_names collections names_level0 names_nested))))
              (io_for l (fun coll =>
                 run (makedir (os_path_join (savedir plotter) coll)) ;;;;
                 io_for (names_nested coll) (fun entry =>
                   v_histos <-- io_lift (gather a0
                                           (fun label => (label, coll, fst entry))
                                           (fst entry) (dict_keys p)) ;;
                   run (plotHistos plotter v_histos (coll ++ "/" ++ fst entry)
                          (dict_keys p)
                          (mkPlotOpts (fst (snd entry)) (snd (snd entry)) coll false
                             (Float64.half, Float64.three_halves))))))).
  { induction l as [| c l IH]; intros Hl; [apply io_respects_ret, emits_refl |].
    unfold io_for at 1. cbn [io_fold]. io_emits_bind.
    - io_emits_bind; [apply io_respects_run, emits_makedir |].
      assert (G : forall es, (forall e, e ∈ es -> fst e ∈ dict_keys (names_nested c)) ->
                io_respects
                  (emits (saves_to (png_of (savedir plotter)
                                      (plot_names collections names_level0
                                         names_nested))))
                  (io_for es (fun entry =>
                     v_histos <-- io_lift (gather a0
                                             (fun label => (label, c, fst entry))
                                             (fst entry) (dict_keys p)) ;;
                     run (plotHistos plotter v_histos (c ++ "/" ++ fst entry)
                            (dict_keys p)
                            (mkPlotOpts (fst (snd entry)) (snd (snd entry)) c false
                               (Float64.half, Float64.three_halves)))))).
      { induction es as [| e es IHes]; intros Hes;
          [apply io_respects_ret, emits_refl |].
        unfold io_for. cbn [io_fold]. io_emits_bind.
        - io_emits_bind; [apply io_respects_lift, emits_refl |].
          apply emits_plot_named. right. exists c, (fst e).
          repeat split; [apply Hl; now left | apply Hes; now left].
        - match goal with u : unit |- _ => destruct u end.
          apply IHes. intros e' He'. apply Hes. now right. }
      apply G. intros e He. unfold dict_keys. apply list_elem_of_fmap. eauto.
    - match goal with u : unit |- _ => destruct u end.
      apply IH. intros c' Hc'. apply Hl. now right. }
  apply G. auto.
Qed.

(** X21: whatever the inputs, and whether the run finishes or fails, every
    path that [trackReleaseValidation] or [hgcalReleaseValidation] hands to
    [plt.savefig] is the plotter's directory string followed by the name of
    one of the function's plots (a level-0 name, or [coll/name]) and
    [.png]: no other file, and no file of another format, is written. *)
Theorem releaseValidations_saved_files root_files files labels tag odir w :
  Forall (png_of (init_savedir tag odir w)
            (plot_names track_collections track_names_level0
               (fun _ => track_names_nested)))
    (saved_files
       (new_events w
          (snd (trackReleaseValidation root_files files labels tag odir w))))
  /\ Forall (png_of (init_savedir tag odir w)
               (plot_names hgcal_collections hgcal_names_level0 hgcal_names_nested))
       (saved_files
          (new_events w
             (snd (hgcalReleaseValidation root_files files labels tag odir w)))).
Proof. split; apply releaseValidation_saved_files. Qed.

Lemma releaseValidations_make_directories_witness :
  (os_path_exists
     (snd (trackReleaseValidation release_files ["old.root"; "new.root"]
             ["Old"; "New"] "v1" None empty_world))
     (init_savedir "v1" None empty_world) = true
   /\ forall coll, coll ∈ track_collections ->
        os_path_exists
          (snd (trackReleaseValidation release_files ["old.root"; "new.root"]
                  ["Old"; "New"] "v1" None empty_world))
          (os_path_join (init_savedir "v1" None empty_world) coll) = true)
  /\ (os_path_exists
        (snd (hgcalReleaseValidation release_files ["old.root"; "new.root"]
                ["Old"; "New"] "v1" None empty_world))
        (init_savedir "v1" None empty_world) = true
      /\ forall coll, coll ∈ hgcal_collections ->
           os_path_exists
             (snd (hgcalReleaseValidation release_files ["old.root"; "new.root"]
                     ["Old"; "New"] "v1" None empty_world))
             (os_path_join (init_savedir "v1" None empty_world) coll) = true).
Proof.
  split.
  - apply (proj1 (releaseValidations_make_directories release_files
                    ["old.root"; "new.root"] ["Old"; "New"] "v1" None empty_world)).
    vm_compute. reflexivity.
  - apply (proj2 (releaseValidations_make_directories release_files
                    ["old.root"; "new.root"] ["Old"; "New"] "v1" None empty_world)).
    vm_compute. reflexivity.
Defined.

(** ** The release validations: no input *)











